(** * Personal Agent: the Remote Session Gateway, its PTY pool, the service
      supervisor and the client SDK, as a shallow embedding.

    The TypeScript sources are embedded as pure functions over explicit
    state.  Every nondeterministic input of the program (the clock, a fresh
    UUID, the outcome of a spawn, the ready state of a socket) is an explicit
    argument or a component of the state; every effect on the outside world
    (a frame written to a socket, a socket closed, a signal sent to a child,
    an event emitted) is an entry of an output trace.

    JavaScript [Map] and [Set] are [gmap] and [gset]; the iteration order of a
    [Map] is not modelled, so statements about broadcasts and listings speak
    about membership, not about order. *)

From stdpp Require Import gmap strings list fin_maps pretty.
From Stdlib Require Import ZArith QArith Ascii String.

Close Scope Q_scope.
Local Open Scope string_scope.
Local Open Scope list_scope.
Local Open Scope Z_scope.

(* ===================================================================== *)
(** * Part I: definitions                                                 *)
(* ===================================================================== *)

(** ** JavaScript string and value helpers *)

Module Js.

(** [s.startsWith(p)] *)
Definition startsWith (s p : string) : bool := String.prefix p s.

(** [s.substring(n)]: the suffix of [s] from index [n]. *)
Fixpoint substring_from (n : nat) (s : string) : string :=
  match n, s with
  | O, _ => s
  | S n', String _ rest => substring_from n' rest
  | S _, EmptyString => EmptyString
  end.

(** [s.split(sep)] for a one-character separator: always at least one
    part, empty parts are kept. *)
Fixpoint split (sep : ascii) (s : string) : list string :=
  match s with
  | EmptyString => [EmptyString]
  | String c rest =>
      if Ascii.eqb c sep then EmptyString :: split sep rest
      else match split sep rest with
           | p :: ps => String c p :: ps
           | [] => [String c EmptyString]
           end
  end.

(** [s.includes(p)] *)
Fixpoint includes (s p : string) : bool :=
  String.prefix p s ||
  match s with
  | EmptyString => false
  | String _ rest => includes rest p
  end.

(** Truthiness of a string: only the empty string is falsy. *)
Definition truthy (s : string) : bool := negb (String.eqb s "").

(** Truthiness of an optional string ([undefined] is falsy). *)
Definition truthy_opt (s : option string) : bool :=
  match s with Some x => truthy x | None => false end.

(** Truthiness of an optional number: [undefined] and [0] are falsy. *)
Definition truthy_num (n : option Z) : bool :=
  match n with Some x => negb (x =? 0) | None => false end.

(** [a || b] on strings. *)
Definition or_else (a : option string) (b : string) : string :=
  match a with
  | Some x => if truthy x then x else b
  | None => b
  end.

(** [a || b] on numbers. *)
Definition num_or_else (a : option Z) (b : Z) : Z :=
  match a with
  | Some x => if x =? 0 then b else x
  | None => b
  end.

End Js.

(** ** Token buffers (the first lines of RemoteServer.handleAuth)

    A [Buffer] is a list of bytes; [Buffer.from] of a string is the list of
    the bytes of the string.

    [payload] comes from [JSON.parse] and is cast, not checked, so that
    [payload.token] can be any JSON value.  [Buffer.from] accepts a string;
    it also accepts an array (or an array-like object) of numbers, whose
    elements it copies as bytes; on everything else ([undefined] for a
    missing field, [null], a number, a boolean, a plain object) it throws a
    [TypeError].  A payload that is no object at all behaves like a missing
    token: reading [payload.token] throws or yields [undefined].

    [crypto.timingSafeEqual] is a function of Node's library: it throws a
    [RangeError] on buffers of different byte lengths and otherwise returns
    whether the two buffers hold the same bytes.  How it gets there is not
    part of this program; each call of it is an entry of the caller's
    trace. *)

Module Token.

Definition Buffer := list ascii.

(** [Buffer.from(s)] for a string [s]. *)
Definition Buffer_from (s : string) : Buffer := list_ascii_of_string s.

(** The value found at [payload.token]. *)
Inductive TokenValue :=
| TokenString (s : string)
| TokenBytes (b : Buffer)
| TokenInvalid.

(** [Buffer.from(payload.token)]; [None] stands for the [TypeError]. *)
Definition Buffer_from_value (v : TokenValue) : option Buffer :=
  match v with
  | TokenString s => Some (Buffer_from s)
  | TokenBytes b => Some b
  | TokenInvalid => None
  end.

(** The result of [crypto.timingSafeEqual(a, b)]; [None] stands for the
    [RangeError]. *)
Definition timingSafeEqual (a b : Buffer) : option bool :=
  if Nat.eqb (List.length a) (List.length b)
  then Some (bool_decide (a = b))
  else None.

End Token.

(** ** Origin filter (RemoteServer.normalizeIP, isInTailscaleRange and the
       admission test of setupWebSocket)

    [Number] is JavaScript's string-to-number conversion.  It is a
    parameter: the filter only compares its results with 100, 64 and 127,
    so a result is either a rational (every finite double is one) or [None]
    for [NaN] and the infinities, on which all three comparisons fail. *)

Module Origin.

Section Filter.

Variable Number : string -> option Q.

Definition num_is (x : option Q) (k : Z) : bool :=
  match x with Some q => Qeq_bool q (inject_Z k) | None => false end.

Definition num_ge (x : option Q) (k : Z) : bool :=
  match x with Some q => Qle_bool (inject_Z k) q | None => false end.

Definition num_le (x : option Q) (k : Z) : bool :=
  match x with Some q => Qle_bool q (inject_Z k) | None => false end.

(** [normalizeIP]: an IPv6-mapped IPv4 address loses its prefix. *)
Definition normalizeIP (ip : string) : string :=
  if Js.startsWith ip "::ffff:" then Js.substring_from 7 ip else ip.

(** [isInTailscaleRange]: it normalizes its argument once more. *)
Definition isInTailscaleRange (ip : string) : bool :=
  let normalized := normalizeIP ip in
  let parts := map Number (Js.split "." normalized) in
  if negb (Nat.eqb (List.length parts) 4) then false
  else num_is (mjoin (parts !! 0%nat)) 100
       && num_ge (mjoin (parts !! 1%nat)) 64
       && num_le (mjoin (parts !! 1%nat)) 127.

Definition isLocalhost (normalizedIP : string) : bool :=
  String.eqb normalizedIP "127.0.0.1" || String.eqb normalizedIP "::1".

(** The verdict of the connection handler on a new socket whose
    [req.socket.remoteAddress] is [ip] ([None] for [undefined]). *)
Inductive Verdict :=
| Accept (isLocal : bool)
| Reject (code : Z) (reason : string).

Definition check_origin (restrictToTailscale : bool) (ip : option string)
  : Verdict :=
  let rejected :=
    match ip with
    | Some addr =>
        if restrictToTailscale && Js.truthy addr then
          let normalizedIP := normalizeIP addr in
          negb (isLocalhost normalizedIP)
          && negb (isInTailscaleRange normalizedIP)
        else false
    | None => false
    end in
  if rejected then Reject 4000 "Connection not allowed from this address"
  else
    let normalizedIP :=
      match ip with
      | Some addr => if Js.truthy addr then normalizeIP addr else ""
      | None => ""
      end in
    Accept (isLocalhost normalizedIP).

Definition accepted (v : Verdict) : bool :=
  match v with Accept _ => true | Reject _ _ => false end.

End Filter.

(** A reading of decimal digit strings, used to instantiate [Number] on
    the strings that make up a dotted quad. *)
Definition digit_value (c : ascii) : option Z :=
  let n := Z.of_N (N_of_ascii c) in
  if (48 <=? n) && (n <=? 57) then Some (n - 48) else None.

Fixpoint decimal_from (acc : Z) (s : string) : option Z :=
  match s with
  | EmptyString => Some acc
  | String c rest =>
      match digit_value c with
      | Some d => decimal_from (10 * acc + d) rest
      | None => None
      end
  end.

(** [Number] on the empty string (which converts to 0) and on strings of
    one to fifteen decimal digits (exact in a double); every other string is
    left at [None] by this instance. *)
Definition Number_decimal (s : string) : option Q :=
  if Nat.leb (String.length s) 15
  then inject_Z <$> decimal_from 0 s else None.

(** What every admissible [Number] must do: read the octets that occur
    in the boundary addresses as the integers they spell. *)
Definition reads_octets (Number : string -> option Q) : Prop :=
  forall s, s ∈ ["0"; "63"; "64"; "100"; "127"; "128"; "255"] ->
            Number s = Number_decimal s.

(** What JavaScript's [Number] does on the parts of a peer address: the
    decimal text of an octet converts to that octet, and a text that
    starts with a colon converts to [NaN]. *)
Definition converts_octets (Number : string -> option Q) : Prop :=
  (forall n : N, (n < 256)%N -> Number (pretty n) = Some (inject_Z (Z.of_N n)))
  /\ (forall s : string, Number (String ":" s) = None).

(** No character of [s] is a dot. *)
Fixpoint dotless (s : string) : bool :=
  match s with
  | EmptyString => true
  | String c rest => negb (Ascii.eqb c ".") && dotless rest
  end.

(** What [isInTailscaleRange] tests of the text it has normalized: it
    splits at the dots into four parts, the first of which converts to 100
    and the second to a number from 64 to 127. *)
Definition parts_in_range (Number : string -> option Q) (q : string) : Prop :=
  exists a b c d x y,
    Js.split "." q = [a; b; c; d] /\ Number a = Some x /\ Number b = Some y
    /\ (x == inject_Z 100)%Q /\ (inject_Z 64 <= y)%Q /\ (y <= inject_Z 127)%Q.

End Origin.

(** ** Peer addresses

    [req.socket.remoteAddress] of an accepted TCP connection is the text
    that the operating system's address formatter gives for the peer: a
    dotted quad of four decimal octets for IPv4; for IPv6 the colon
    notation, which embeds a dotted quad only for an IPv4-mapped address
    (["::ffff:a.b.c.d"]) and for an IPv4-compatible one (["::a.b.c.d"]).
    Of the colon notation nothing is used here but that it is not empty
    and holds no dot. *)

Module PeerAddress.

Definition octet (n : N) : Prop := (n < 256)%N.

(** The text of the IPv4 address [a.b.c.d]. *)
Definition dotted_quad (a b c d : N) : string :=
  pretty a +:+ "." +:+ pretty b +:+ "." +:+ pretty c +:+ "." +:+ pretty d.

Inductive reported : string -> Prop :=
| reported_IPv4 a b c d :
    octet a -> octet b -> octet c -> octet d ->
    reported (dotted_quad a b c d)
| reported_mapped a b c d :
    octet a -> octet b -> octet c -> octet d ->
    reported ("::ffff:" +:+ dotted_quad a b c d)
| reported_compatible a b c d :
    octet a -> octet b -> octet c -> octet d ->
    reported ("::" +:+ dotted_quad a b c d)
| reported_IPv6 s :
    s <> "" -> Origin.dotless s = true -> reported s.

End PeerAddress.


(** ** The service supervisor (src/services/ServiceManager.ts)

    A child process is a handle (a number drawn from [next_child]); the
    supervisor's listeners on a child are identified by the handle they were
    registered on.  The [service] object captured by those listeners is the
    entry of [services] under the service's id: entries are created by
    [registerService] and never replaced or removed, so a lookup by id reads
    the same object the closure holds.

    [setTimeout] appends to [timers]; nothing in the class keeps the handle
    [setTimeout] returns, and the class never calls [clearTimeout].

    [restartService] and [stopAll] are compositions of [stopService] and
    [startService] over promises and are not embedded. *)

Module ServiceManager.

Inductive Lifecycle := stopped | starting | running | error.

Record ServiceConfig := mkConfig {
  cfg_id : string;
  cfg_name : string;
  command : string;
  args : list string;
  cfg_cwd : option string;
  cfg_env : list (string * string);
  autoStart : bool;
  restartOnFailure : bool
}.

Record ServiceStatus := mkStatus {
  id : string;
  name : string;
  status : Lifecycle;
  pid : option Z;
  uptime : option Z;
  lastError : option string
}.

Record ManagedService := mkService {
  config : ServiceConfig;
  process : option nat;
  svc_status : ServiceStatus;
  startTime : option Z
}.

(** Listeners attached to one child: the handlers of [startService] are
    always there; [stop_waiters] counts the [once('exit')] listeners added
    by calls of [stopService], which are gone once they have run.  [exited]
    records that an ['exit'] event of the child has been handled; no
    handler reads it. *)
Record Child := mkChild {
  child_service : string;
  stop_waiters : nat;
  exited : bool
}.

Inductive Timer :=
| RestartTimer (id : string)           (* () => this.startService(id) *)
| KillTimer (id : string) (h : nat).   (* if (service.process) proc.kill('SIGKILL') *)

Record State := mkState {
  services : gmap string ManagedService;
  children : gmap nat Child;
  next_child : nat;
  timers : list (Z * Timer)
}.

Inductive Event :=
| service_registered (c : ServiceConfig)
| service_status (s : ServiceStatus)
| service_output (id : string) (stream : string) (data : string)
| service_error (id : string) (message : string)
| service_exit (id : string) (code : option Z) (signal : option string).

Inductive Output :=
| Emit (e : Event)
| Spawn (h : nat) (c : ServiceConfig)
| Kill (h : nat) (signal : string)
| StopResolved (id : string).

(** How a call ends: normally, or with a thrown [Error] (a rejected promise
    for the [async] methods). *)
Inductive Result := Ok | Threw (message : string).

(** What [spawn] does, as chosen by the operating system. *)
Inductive SpawnResult :=
| Spawned (pid : option Z)
| SpawnThrew (message : string).

Definition initial : State := mkState ∅ ∅ 0 [].

(** Field updates of the mutable objects. *)
Definition with_status (s : ServiceStatus) (l : Lifecycle) : ServiceStatus :=
  mkStatus (id s) (name s) l (pid s) (uptime s) (lastError s).

Definition with_pid (s : ServiceStatus) (p : option Z) : ServiceStatus :=
  mkStatus (id s) (name s) (status s) p (uptime s) (lastError s).

Definition with_uptime (s : ServiceStatus) (u : option Z) : ServiceStatus :=
  mkStatus (id s) (name s) (status s) (pid s) u (lastError s).

Definition with_lastError (s : ServiceStatus) (e : option string) : ServiceStatus :=
  mkStatus (id s) (name s) (status s) (pid s) (uptime s) e.

Definition set_services (st : State) (m : gmap string ManagedService) : State :=
  mkState m (children st) (next_child st) (timers st).

Definition set_timers (st : State) (t : list (Z * Timer)) : State :=
  mkState (services st) (children st) (next_child st) t.

Definition set_children (st : State) (c : gmap nat Child) : State :=
  mkState (services st) c (next_child st) (timers st).

(** [setTimeout(callback, delay)] at time [now]. *)
Definition setTimeout (st : State) (now delay : Z) (t : Timer) : State :=
  set_timers st (timers st ++ [(now + delay, t)]).

(** [registerService(config)] *)
Definition registerService (st : State) (c : ServiceConfig)
  : State * list Output * Result :=
  match services st !! cfg_id c with
  | Some _ =>
      (st, [], Threw ("Service " +:+ cfg_id c +:+ " already registered"))
  | None =>
      let service :=
        mkService c None
          (mkStatus (cfg_id c) (cfg_name c) stopped None None None) None in
      (set_services st (<[cfg_id c := service]> (services st)),
       [Emit (service_registered c)], Ok)
  end.

(** [startService(id)], run at time [now]; [sp] is what [spawn] does if it
    is reached. *)
Definition startService (st : State) (now : Z) (sp : SpawnResult) (i : string)
  : State * list Output * Result :=
  match services st !! i with
  | None => (st, [], Threw ("Service " +:+ i +:+ " not found"))
  | Some service =>
      match status (svc_status service) with
      | running => (st, [], Ok)
      | _ =>
          let s1 := with_status (svc_status service) starting in
          match sp with
          | Spawned p =>
              let h := next_child st in
              let s2 := with_pid (with_status s1 running) p in
              let service' := mkService (config service) (Some h) s2 (Some now) in
              (mkState (<[i := service']> (services st))
                       (<[h := mkChild i 0 false]> (children st))
                       (S h) (timers st),
               [Emit (service_status s1); Spawn h (config service);
                Emit (service_status s2)],
               Ok)
          | SpawnThrew message =>
              let s2 := with_lastError (with_status s1 error) (Some message) in
              let service' :=
                mkService (config service) (process service) s2
                          (startTime service) in
              (set_services st (<[i := service']> (services st)),
               [Emit (service_status s1); Emit (service_status s2)],
               Threw message)
          end
      end
  end.

(** [proc.stdout.on('data')] and [proc.stderr.on('data')] of child [h]. *)
Definition on_child_output (st : State) (h : nat) (stream data : string)
  : State * list Output :=
  match children st !! h with
  | Some c => (st, [Emit (service_output (child_service c) stream data)])
  | None => (st, [])
  end.

(** [proc.on('error')] of child [h]. *)
Definition on_child_error (st : State) (h : nat) (message : string)
  : State * list Output :=
  match children st !! h with
  | Some c =>
      let i := child_service c in
      match services st !! i with
      | Some service =>
          let s := with_lastError (with_status (svc_status service) error)
                                  (Some message) in
          let service' :=
            mkService (config service) (process service) s (startTime service) in
          (set_services st (<[i := service']> (services st)),
           [Emit (service_status s); Emit (service_error i message)])
      | None => (st, [])
      end
  | None => (st, [])
  end.

(** The body of one [once('exit')] listener of [stopService]. *)
Definition stop_listener (i : string) (acc : State * list Output)
  : State * list Output :=
  let '(st, out) := acc in
  match services st !! i with
  | Some service =>
      let s := with_status (svc_status service) stopped in
      let service' := mkService (config service) None s (startTime service) in
      (set_services st (<[i := service']> (services st)),
       out ++ [Emit (service_status s); StopResolved i])
  | None => (st, out)
  end.

(** [code !== 0] on [number | null]. *)
Definition code_not_zero (code : option Z) : bool :=
  match code with Some 0 => false | _ => true end.

(** An ['exit'] event of the child [h], with [code] and [signal], at time
    [now]: first the [proc.on('exit')] listener of [startService], which
    stays registered, then the [once] listeners that calls of [stopService]
    have added, in order of registration. *)
Definition on_child_exit (st : State) (now : Z) (h : nat)
    (code : option Z) (signal : option string) : State * list Output :=
  match children st !! h with
  | Some c =>
      let i := child_service c in
      let st0 :=
        set_children st (<[h := mkChild i 0 true]> (children st)) in
      match services st0 !! i with
      | Some service =>
          let s := with_status (svc_status service) stopped in
          let service' := mkService (config service) None s None in
          let st1 := set_services st0 (<[i := service']> (services st0)) in
          let st2 :=
            if restartOnFailure (config service) && code_not_zero code
            then setTimeout st1 now 5000 (RestartTimer i)
            else st1 in
          Nat.iter (stop_waiters c) (stop_listener i)
            (st2, [Emit (service_status s); Emit (service_exit i code signal)])
      | None => (st0, [])
      end
  | None => (st, [])
  end.

(** [stopService(id)] at time [now]. *)
Definition stopService (st : State) (now : Z) (i : string)
  : State * list Output :=
  match services st !! i with
  | None => (st, [])
  | Some service =>
      match process service with
      | None => (st, [])
      | Some h =>
          let children' :=
            match children st !! h with
            | Some c =>
                <[h := mkChild (child_service c) (S (stop_waiters c)) (exited c)]>
                  (children st)
            | None => children st
            end in
          (setTimeout (set_children st children') now 10000 (KillTimer i h),
           [Kill h "SIGTERM"])
      end
  end.

(** The callback of a timer. *)
Definition run_timer (st : State) (now : Z) (sp : SpawnResult) (t : Timer)
  : State * list Output :=
  match t with
  | RestartTimer i => let '(st', out, _) := startService st now sp i in (st', out)
  | KillTimer i h =>
      match services st !! i with
      | Some service =>
          match process service with
          | Some _ => (st, [Kill h "SIGKILL"])
          | None => (st, [])
          end
      | None => (st, [])
      end
  end.

(** The event loop fires the pending timer at position [k], once it is due. *)
Definition fire_timer (st : State) (now : Z) (sp : SpawnResult) (k : nat)
  : State * list Output :=
  match timers st !! k with
  | Some (due, t) =>
      if due <=? now
      then run_timer (set_timers st (delete k (timers st))) now sp t
      else (st, [])
  | None => (st, [])
  end.

(** [service.startTime] as a condition: [null] and [0] are falsy. *)
Definition refresh (now : Z) (service : ManagedService) : ManagedService :=
  match startTime service with
  | Some t =>
      if t =? 0 then service
      else mkService (config service) (process service)
                     (with_uptime (svc_status service) (Some (now - t)))
                     (startTime service)
  | None => service
  end.

(** [getStatus(id)] at time [now]: the copy returned, and the state with the
    [uptime] field it has written. *)
Definition getStatus (st : State) (now : Z) (i : string)
  : option ServiceStatus * State :=
  match services st !! i with
  | None => (None, st)
  | Some service =>
      let service' := refresh now service in
      (Some (svc_status service'),
       set_services st (<[i := service']> (services st)))
  end.

(** [getAllStatuses()]: one [getStatus] per registered service. *)
Definition getAllStatuses (st : State) (now : Z)
  : list ServiceStatus * State :=
  let services' := refresh now <$> services st in
  ((svc_status <$> (map_to_list services').*2), set_services st services').

End ServiceManager.


(** ** The PTY pool (class PTYManager of services/PTYManager.ts, which this
       tree holds in src/main/preload.ts)

    The [pty.IPty] handle of a session is identified with the session id:
    the calls made on it are entries of the output trace.  [uuid] is the
    result of [uuidv4()], [now] of [Date.now()], [home] of
    [process.env.HOME], and [spawn_ok] says whether [pty.spawn] returns or
    throws. *)

Module PTYManager.

Definition ALLOWED_SHELLS : list string :=
  [ "/bin/zsh"; "/bin/bash"; "/bin/sh"; "/usr/bin/zsh"; "/usr/bin/bash";
    "/usr/local/bin/zsh"; "/usr/local/bin/bash" ].

Record PTYSession := mkSession {
  id : string;
  name : string;
  cols : Z;
  rows : Z;
  cwd : string;
  shell : string;
  createdAt : Z
}.

Record CreateOptions := mkOptions {
  opt_name : option string;
  opt_cols : option Z;
  opt_rows : option Z;
  opt_cwd : option string;
  opt_shell : option string
}.

Record State := mkState {
  sessions : gmap string PTYSession;
  defaultShell : string
}.

Record Env := mkEnv {
  now : Z;
  uuid : string;
  home : option string;
  spawn_ok : bool
}.

Inductive Output :=
| PtySpawn (s : PTYSession)
| PtyWrite (sessionId data : string)
| PtyResize (sessionId : string) (cols rows : Z)
| PtyKill (sessionId : string)
| EmitCreated (s : PTYSession)
| EmitClosed (sessionId : string).

Definition isValidShell (shell : string) : bool :=
  bool_decide (shell ∈ ALLOWED_SHELLS).

Definition isValidCwd (cwd : string) : bool :=
  if Js.includes cwd ".." then false else Js.startsWith cwd "/".

Definition set_sessions (st : State) (m : gmap string PTYSession) : State :=
  mkState m (defaultShell st).

(** [createSession(options)]: [None] when [pty.spawn] throws, in which case
    nothing has been stored yet. *)
Definition createSession (st : State) (e : Env) (options : CreateOptions)
  : option PTYSession * State * list Output :=
  let id := uuid e in
  let shell0 := Js.or_else (opt_shell options) (defaultShell st) in
  let shell :=
    if Js.truthy_opt (opt_shell options)
       && negb (isValidShell (default "" (opt_shell options)))
    then defaultShell st else shell0 in
  let home_dir := Js.or_else (home e) "/" in
  let cwd0 := Js.or_else (opt_cwd options) home_dir in
  let cwd :=
    if Js.truthy_opt (opt_cwd options)
       && negb (isValidCwd (default "" (opt_cwd options)))
    then home_dir else cwd0 in
  let session :=
    mkSession id
      (Js.or_else (opt_name options)
         ("Terminal " +:+ pretty (S (size (sessions st)))))
      (Js.num_or_else (opt_cols options) 80)
      (Js.num_or_else (opt_rows options) 24)
      cwd shell (now e) in
  if spawn_ok e then
    (Some session, set_sessions st (<[id := session]> (sessions st)),
     [PtySpawn session; EmitCreated session])
  else (None, st, []).

(** [write(sessionId, data)] *)
Definition write (st : State) (sessionId data : string) : list Output :=
  match sessions st !! sessionId with
  | Some _ => [PtyWrite sessionId data]
  | None => []
  end.

(** [resize(sessionId, cols, rows)]: the call on the PTY is recorded as it
    is made; what node-pty does with the dimensions is not modelled. *)
Definition resize (st : State) (sessionId : string) (c r : Z)
  : State * list Output :=
  match sessions st !! sessionId with
  | Some s =>
      let s' := mkSession (id s) (name s) c r (cwd s) (shell s) (createdAt s) in
      (set_sessions st (<[sessionId := s']> (sessions st)),
       [PtyResize sessionId c r])
  | None => (st, [])
  end.

(** [closeSession(sessionId)] *)
Definition closeSession (st : State) (sessionId : string)
  : State * list Output :=
  match sessions st !! sessionId with
  | Some _ =>
      (set_sessions st (delete sessionId (sessions st)),
       [PtyKill sessionId; EmitClosed sessionId])
  | None => (st, [])
  end.

(** [getSession(sessionId)] *)
Definition getSession (st : State) (sessionId : string) : option PTYSession :=
  sessions st !! sessionId.

(** [getAllSessions()] *)
Definition getAllSessions (st : State) : list PTYSession :=
  (map_to_list (sessions st)).*2.

(** The tail of the [onExit] callback, after the ['exit'] event has been
    emitted to the listeners. *)
Definition after_exit (st : State) (sessionId : string) : State :=
  set_sessions st (delete sessionId (sessions st)).

End PTYManager.


(** ** The gateway (class RemoteServer of services/RemoteServer.ts, which
       this tree holds in src/main/preload.ts)

    A connection is identified by the [clientId] the connection handler
    draws for it; its [WebSocket] is identified with the same string.  The
    calls the server makes on a socket ([ws.send], [ws.close]) are entries
    of the output trace.  [sockets] holds, for each connection whose
    handlers are registered, whether [ws.readyState] is [OPEN], the
    [isLocal] flag captured by the handlers, and the due time of the
    authentication timer while it is armed.

    [sessionOwnership] is the module-level map of the source file. *)

Module RemoteServer.

Record AuthenticatedClient := mkClient {
  id : string;
  ws : string;
  deviceId : string;
  deviceName : string;
  authenticatedAt : Z;
  sessionSubscriptions : gset string;
  ownedSessions : gset string;
  serviceSubscriptions : gset string;
  isLocal : bool
}.

Record AuthPayload := mkAuth {
  token : Token.TokenValue;
  clientId : string;
  auth_deviceName : string
}.

Inductive PtyAction :=
| PtyCreate (options : PTYManager.CreateOptions)
| PtyWrite (sessionId data : string)
| PtyResize (sessionId : string) (cols rows : option Z)
| PtyClose (sessionId : string)
| PtySubscribe (sessionId : string)
| PtyUnsubscribe (sessionId : string)
| PtyList
| PtyOther (action : string).

Inductive ServiceAction :=
| SvcCommand (action serviceId : string)   (* start, stop, restart *)
| SvcList
| SvcSubscribe (serviceId : string)
| SvcUnsubscribe (serviceId : string)
| SvcOther (action : string).

Inductive Incoming :=
| Auth (p : AuthPayload)
| Pty (a : PtyAction)
| Service (a : ServiceAction)
| System (action : string)
| UnknownType (type : string).

Record Frame := mkFrame {
  body : Incoming;
  frame_requestId : option string
}.

Inductive Payload :=
| P_auth_success (clientId : string) (sessions : list PTYManager.PTYSession)
                 (services : list ServiceManager.ServiceStatus)
| P_session (s : PTYManager.PTYSession)
| P_sessions (l : list PTYManager.PTYSession)
| P_data (sessionId data : string)
| P_exit (sessionId : string) (exitCode : Z) (signal : option Z)
| P_service_status (s : ServiceManager.ServiceStatus)
| P_service_output (id stream data : string)
| P_statuses (l : list ServiceManager.ServiceStatus)
| P_error (error : string)
| P_pong (timestamp : Z)
| P_info.

Record RemoteMessage := mkMessage {
  type : string;
  action : string;
  payload : Payload;
  requestId : option string
}.

Record Socket := mkSocket {
  ready_open : bool;
  sock_isLocal : bool;
  authTimeout : option Z
}.

Record State := mkState {
  authToken : string;
  restrictToTailscale : bool;
  clients : gmap string AuthenticatedClient;
  sessionOwnership : gmap string string;
  ptyManager : PTYManager.State;
  serviceManager : ServiceManager.State;
  sockets : gmap string Socket
}.

Inductive ServerEvent :=
| client_authenticated (c : AuthenticatedClient)
| client_disconnected (clientId : string).

Inductive Output :=
| WsSend (ws : string) (m : RemoteMessage)
| WsClose (ws : string) (code : Z) (reason : string)
| PtyOut (o : PTYManager.Output)
| EmitServer (e : ServerEvent)
| CryptoCompare (a b : Token.Buffer).   (* crypto.timingSafeEqual(a, b) *)

(** Whether a handler returned or threw. *)
Inductive Completion := Done | Thrown.

Definition set_clients (st : State) (m : gmap string AuthenticatedClient) : State :=
  mkState (authToken st) (restrictToTailscale st) m (sessionOwnership st)
          (ptyManager st) (serviceManager st) (sockets st).

Definition set_sessionOwnership (st : State) (m : gmap string string) : State :=
  mkState (authToken st) (restrictToTailscale st) (clients st) m
          (ptyManager st) (serviceManager st) (sockets st).

Definition set_ptyManager (st : State) (p : PTYManager.State) : State :=
  mkState (authToken st) (restrictToTailscale st) (clients st)
          (sessionOwnership st) p (serviceManager st) (sockets st).

Definition set_serviceManager (st : State) (s : ServiceManager.State) : State :=
  mkState (authToken st) (restrictToTailscale st) (clients st)
          (sessionOwnership st) (ptyManager st) s (sockets st).

Definition set_sockets (st : State) (m : gmap string Socket) : State :=
  mkState (authToken st) (restrictToTailscale st) (clients st)
          (sessionOwnership st) (ptyManager st) (serviceManager st) m.

Definition with_sessionSubscriptions (c : AuthenticatedClient) (s : gset string)
  : AuthenticatedClient :=
  mkClient (id c) (ws c) (deviceId c) (deviceName c) (authenticatedAt c)
           s (ownedSessions c) (serviceSubscriptions c) (isLocal c).

Definition with_ownedSessions (c : AuthenticatedClient) (s : gset string)
  : AuthenticatedClient :=
  mkClient (id c) (ws c) (deviceId c) (deviceName c) (authenticatedAt c)
           (sessionSubscriptions c) s (serviceSubscriptions c) (isLocal c).

Definition with_serviceSubscriptions (c : AuthenticatedClient) (s : gset string)
  : AuthenticatedClient :=
  mkClient (id c) (ws c) (deviceId c) (deviceName c) (authenticatedAt c)
           (sessionSubscriptions c) (ownedSessions c) s (isLocal c).

(** The server as constructed: no client, no session, no owner. *)
Definition constructed (token : string) (restrict : bool) (shell : string)
    (svc : ServiceManager.State) : State :=
  mkState token restrict ∅ ∅ (PTYManager.mkState ∅ shell) svc ∅.

(** [ws.readyState === WebSocket.OPEN] *)
Definition is_open (st : State) (w : string) : bool :=
  match sockets st !! w with
  | Some s => ready_open s
  | None => false
  end.

(** [send(ws, message)] *)
Definition send (st : State) (w : string) (m : RemoteMessage) : list Output :=
  if is_open st w then [WsSend w m] else [].

(** [sendError(ws, error)] *)
Definition sendError (st : State) (w : string) (error : string) : list Output :=
  send st w (mkMessage "system" "error" (P_error error) None).

(** The socket leaves the [OPEN] state. *)
Definition leave_open (st : State) (w : string) : State :=
  match sockets st !! w with
  | Some s =>
      set_sockets st
        (<[w := mkSocket false (sock_isLocal s) (authTimeout s)]> (sockets st))
  | None => st
  end.

(** [ws.close(code, reason)] *)
Definition close_ws (st : State) (w : string) (code : Z) (reason : string)
  : State * list Output :=
  (leave_open st w, [WsClose w code reason]).

(** [clearTimeout(authTimeout)] *)
Definition clear_authTimeout (st : State) (w : string) : State :=
  match sockets st !! w with
  | Some s =>
      set_sockets st (<[w := mkSocket (ready_open s) (sock_isLocal s) None]>
                        (sockets st))
  | None => st
  end.

(** [broadcast(message)] *)
Definition broadcast (st : State) (m : RemoteMessage) : list Output :=
  mjoin ((fun c => send st (ws c) m) <$> (map_to_list (clients st)).*2).

(** [broadcastToSubscribers(sessionId, message)] *)
Definition broadcastToSubscribers (st : State) (sessionId : string)
    (m : RemoteMessage) : list Output :=
  mjoin ((fun c =>
            if bool_decide (sessionId ∈ sessionSubscriptions c)
            then send st (ws c) m else [])
         <$> (map_to_list (clients st)).*2).

(** [broadcastToServiceSubscribers(serviceId, message)] *)
Definition broadcastToServiceSubscribers (st : State) (serviceId : string)
    (m : RemoteMessage) : list Output :=
  mjoin ((fun c =>
            if bool_decide (serviceId ∈ serviceSubscriptions c)
            then send st (ws c) m else [])
         <$> (map_to_list (clients st)).*2).

(** The loop of [handleAuth] over [sessionOwnership.entries()]. *)
Definition restore_owned (ownership : gmap string string) (device : string)
  : gset string :=
  map_fold (fun sessionId ownerId (acc : gset string) =>
              if bool_decide (ownerId = device) then {[sessionId]} ∪ acc else acc)
           ∅ ownership.

(** [handleAuth(clientId, ws, payload, requestId, authTimeout, isLocal)]
    at time [now].  It throws when [Buffer.from] does. *)
Definition handleAuth (st : State) (now : Z) (conn : string)
    (p : AuthPayload) (rid : option string) (local : bool)
  : State * list Output * Completion :=
  let tokenBuffer := Token.Buffer_from (authToken st) in
  match Token.Buffer_from_value (token p) with
  | None => (st, [], Thrown)
  | Some payloadBuffer =>
      if negb (Nat.eqb (List.length tokenBuffer) (List.length payloadBuffer))
      then
        let '(st', out) := close_ws st conn 4003 "Invalid authentication token" in
        (st', out, Done)
      else
        match Token.timingSafeEqual tokenBuffer payloadBuffer with
        | None => (st, [CryptoCompare tokenBuffer payloadBuffer], Thrown)
        | Some false =>
            let '(st', out) :=
              close_ws st conn 4003 "Invalid authentication token" in
            (st', CryptoCompare tokenBuffer payloadBuffer :: out, Done)
        | Some true =>
            let st1 := clear_authTimeout st conn in
            let device := Js.or_else (Some (clientId p)) conn in
            let owned := restore_owned (sessionOwnership st1) device in
            let client :=
              mkClient conn conn device (auth_deviceName p) now owned owned ∅
                       local in
            let st2 := set_clients st1 (<[conn := client]> (clients st1)) in
            let deviceSessions :=
              if isLocal client
              then PTYManager.getAllSessions (ptyManager st2)
              else filter (fun s => sessionOwnership st2 !! PTYManager.id s
                                    = Some device)
                          (PTYManager.getAllSessions (ptyManager st2)) in
            let '(statuses, svc') :=
              ServiceManager.getAllStatuses (serviceManager st2) now in
            let st3 := set_serviceManager st2 svc' in
            (st3,
             CryptoCompare tokenBuffer payloadBuffer
             :: send st3 conn
                  (mkMessage "auth" "success"
                     (P_auth_success conn deviceSessions statuses) rid)
             ++ [EmitServer (client_authenticated client)],
             Done)
        end
  end.

(** [canAccessSession(client, sessionId)] *)
Definition canAccessSession (c : AuthenticatedClient) (sessionId : string) : bool :=
  if isLocal c then true
  else bool_decide (sessionId ∈ ownedSessions c)
       || bool_decide (sessionId ∈ sessionSubscriptions c).

(** A write to the fields of the [client] object: the object is the entry
    of [clients] under its [id]. *)
Definition update_client (st : State) (c : AuthenticatedClient) : State :=
  set_clients st (<[id c := c]> (clients st)).

Definition access_denied (what sessionId : string) : string :=
  "Access denied: You don't have permission to " +:+ what +:+ " session "
  +:+ sessionId.

(** [handlePTYMessage(client, message)] *)
Definition handlePTYMessage (st : State) (e : PTYManager.Env)
    (client : AuthenticatedClient) (a : PtyAction) (rid : option string)
  : State * list Output * Completion :=
  match a with
  | PtyCreate options =>
      match PTYManager.createSession (ptyManager st) e options with
      | (Some session, pm, out) =>
          let sid := PTYManager.id session in
          let client' :=
            with_ownedSessions
              (with_sessionSubscriptions client
                 ({[sid]} ∪ sessionSubscriptions client))
              ({[sid]} ∪ ownedSessions client) in
          let st1 := update_client (set_ptyManager st pm) client' in
          let st2 :=
            set_sessionOwnership st1
              (<[sid := deviceId client]> (sessionOwnership st1)) in
          (st2,
           (PtyOut <$> out)
           ++ send st2 (ws client) (mkMessage "pty" "created" (P_session session) rid),
           Done)
      | (None, pm, out) => (set_ptyManager st pm, PtyOut <$> out, Thrown)
      end
  | PtyWrite sessionId data =>
      if negb (canAccessSession client sessionId)
      then (st, sendError st (ws client) (access_denied "write to" sessionId), Done)
      else (st, PtyOut <$> PTYManager.write (ptyManager st) sessionId data, Done)
  | PtyResize sessionId c r =>
      if Js.truthy sessionId && Js.truthy_num c && Js.truthy_num r then
        if negb (canAccessSession client sessionId)
        then (st, sendError st (ws client) (access_denied "resize" sessionId), Done)
        else
          let '(pm, out) :=
            PTYManager.resize (ptyManager st) sessionId (default 0 c) (default 0 r) in
          (set_ptyManager st pm, PtyOut <$> out, Done)
      else (st, [], Done)
  | PtyClose sessionId =>
      if negb (canAccessSession client sessionId)
      then (st, sendError st (ws client) (access_denied "close" sessionId), Done)
      else
        let '(pm, out) := PTYManager.closeSession (ptyManager st) sessionId in
        let client' :=
          with_ownedSessions
            (with_sessionSubscriptions client
               (sessionSubscriptions client ∖ {[sessionId]}))
            (ownedSessions client ∖ {[sessionId]}) in
        let st1 := update_client (set_ptyManager st pm) client' in
        (set_sessionOwnership st1 (delete sessionId (sessionOwnership st1)),
         PtyOut <$> out, Done)
  | PtySubscribe sessionId =>
      if negb (isLocal client)
         && negb (bool_decide (sessionOwnership st !! sessionId = Some (deviceId client)))
      then (st,
            sendError st (ws client)
              ("Access denied: You don't own session " +:+ sessionId),
            Done)
      else
        let client1 :=
          with_sessionSubscriptions client
            ({[sessionId]} ∪ sessionSubscriptions client) in
        let client2 :=
          if bool_decide (sessionOwnership st !! sessionId = Some (deviceId client))
          then with_ownedSessions client1 ({[sessionId]} ∪ ownedSessions client1)
          else client1 in
        (update_client st client2, [], Done)
  | PtyUnsubscribe sessionId =>
      (update_client st
         (with_sessionSubscriptions client
            (sessionSubscriptions client ∖ {[sessionId]})),
       [], Done)
  | PtyList =>
      let accessibleSessions :=
        if isLocal client
        then PTYManager.getAllSessions (ptyManager st)
        else filter (fun s =>
                       bool_decide (PTYManager.id s ∈ ownedSessions client)
                       || bool_decide (PTYManager.id s ∈ sessionSubscriptions client))
                    (PTYManager.getAllSessions (ptyManager st)) in
      (st,
       send st (ws client) (mkMessage "pty" "list" (P_sessions accessibleSessions) rid),
       Done)
  | PtyOther _ => (st, [], Done)
  end.

(** [handleServiceMessage(client, message)].  The three supervisor commands
    ([start], [stop], [restart]) call into the supervisor and reply when
    its promise resolves; here they leave the gateway's own state alone,
    and the supervisor's part is a step of its own (see [step_supervisor]
    below). *)
Definition handleServiceMessage (st : State) (now : Z)
    (client : AuthenticatedClient) (a : ServiceAction) (rid : option string)
  : State * list Output * Completion :=
  match a with
  | SvcCommand _ _ => (st, [], Done)
  | SvcList =>
      let '(statuses, svc) :=
        ServiceManager.getAllStatuses (serviceManager st) now in
      let st1 := set_serviceManager st svc in
      (st1, send st1 (ws client) (mkMessage "service" "list" (P_statuses statuses) rid),
       Done)
  | SvcSubscribe serviceId =>
      match ServiceManager.getStatus (serviceManager st) now serviceId with
      | (None, svc) =>
          let st1 := set_serviceManager st svc in
          (st1,
           sendError st1 (ws client) ("Service " +:+ serviceId +:+ " not found"),
           Done)
      | (Some _, svc) =>
          (update_client (set_serviceManager st svc)
             (with_serviceSubscriptions client
                ({[serviceId]} ∪ serviceSubscriptions client)),
           [], Done)
      end
  | SvcUnsubscribe serviceId =>
      (update_client st
         (with_serviceSubscriptions client
            (serviceSubscriptions client ∖ {[serviceId]})),
       [], Done)
  | SvcOther _ => (st, [], Done)
  end.

(** [handleSystemMessage(client, message)] *)
Definition handleSystemMessage (st : State) (now : Z)
    (client : AuthenticatedClient) (action : string) (rid : option string)
  : State * list Output * Completion :=
  if String.eqb action "ping"
  then (st, send st (ws client) (mkMessage "system" "pong" (P_pong now) rid), Done)
  else if String.eqb action "info"
  then (st, send st (ws client) (mkMessage "system" "info" P_info rid), Done)
  else (st, [], Done).

(** [handleMessage(clientId, ws, message, authTimeout, isLocal)] *)
Definition handleMessage (st : State) (e : PTYManager.Env) (conn : string)
    (f : Frame) (local : bool) : State * list Output * Completion :=
  match body f with
  | Auth p =>
      handleAuth st (PTYManager.now e) conn p (frame_requestId f) local
  | b =>
      match clients st !! conn with
      | None => (st, sendError st conn "Not authenticated", Done)
      | Some client =>
          match b with
          | Pty a => handlePTYMessage st e client a (frame_requestId f)
          | Service a =>
              handleServiceMessage st (PTYManager.now e) client a (frame_requestId f)
          | System a =>
              handleSystemMessage st (PTYManager.now e) client a (frame_requestId f)
          | UnknownType t =>
              (st, sendError st conn ("Unknown message type: " +:+ t), Done)
          | Auth _ => (st, [], Done)
          end
      end
  end.

(** The ['message'] listener of a socket: [None] is a text that
    [JSON.parse] rejects, or that it reads as a value without a [type].
    An exception of a handler ends in the same [catch]. *)
Definition on_message (st : State) (e : PTYManager.Env) (conn : string)
    (data : option Frame) : State * list Output :=
  match sockets st !! conn with
  | None => (st, [])
  | Some s =>
      match data with
      | None => (st, sendError st conn "Invalid message format")
      | Some f =>
          match handleMessage st e conn f (sock_isLocal s) with
          | (st', out, Done) => (st', out)
          | (st', out, Thrown) =>
              (st', out ++ sendError st' conn "Invalid message format")
          end
      end
  end.

(** The ['close'] listener of a socket. *)
Definition on_close (st : State) (conn : string) : State * list Output :=
  match sockets st !! conn with
  | None => (st, [])
  | Some _ =>
      let st1 := set_sockets st (delete conn (sockets st)) in
      match clients st1 !! conn with
      | Some _ =>
          (set_clients st1 (delete conn (clients st1)),
           [EmitServer (client_disconnected conn)])
      | None => (st1, [])
      end
  end.

(** The peer starts closing: [ws.readyState] leaves [OPEN] before the
    ['close'] listener runs. *)
Definition on_peer_closing (st : State) (conn : string) : State :=
  leave_open st conn.

(** The callback of the authentication timer. *)
Definition on_auth_timeout (st : State) (now : Z) (conn : string)
  : State * list Output :=
  match sockets st !! conn with
  | Some s =>
      match authTimeout s with
      | Some due =>
          if due <=? now then
            let st1 := clear_authTimeout st conn in
            match clients st1 !! conn with
            | None => close_ws st1 conn 4001 "Authentication timeout"
            | Some _ => (st1, [])
            end
          else (st, [])
      | None => (st, [])
      end
  | None => (st, [])
  end.

(** The ['connection'] listener of [setupWebSocket], for a socket that
    gets the id [conn] and whose peer address is [ip]. *)
Definition on_connection (Number : string -> option Q) (st : State) (now : Z)
    (conn : string) (ip : option string) : State * list Output :=
  match Origin.check_origin Number (restrictToTailscale st) ip with
  | Origin.Reject code reason => (st, [WsClose conn code reason])
  | Origin.Accept local =>
      (set_sockets st (<[conn := mkSocket true local (Some (now + 10000))]> (sockets st)),
       [])
  end.

(** [setupPTYForwarding]: the listener of the pool's ['data'] event. *)
Definition on_pty_data (st : State) (sessionId data : string) : list Output :=
  broadcastToSubscribers st sessionId
    (mkMessage "pty" "data" (P_data sessionId data) None).

(** The [onExit] callback of a PTY: the pool emits ['exit'], whose
    listener in [setupPTYForwarding] runs, and then the pool drops the
    session. *)
Definition on_pty_exit (st : State) (sessionId : string) (exitCode : Z)
    (signal : option Z) : State * list Output :=
  let st1 := set_sessionOwnership st (delete sessionId (sessionOwnership st)) in
  let out :=
    broadcastToSubscribers st1 sessionId
      (mkMessage "pty" "exit" (P_exit sessionId exitCode signal) None) in
  (set_ptyManager st1 (PTYManager.after_exit (ptyManager st1) sessionId), out).

(** [setupServiceForwarding]: the listeners of the supervisor's events. *)
Definition on_service_event (st : State) (ev : ServiceManager.Event)
  : list Output :=
  match ev with
  | ServiceManager.service_status s =>
      broadcast st (mkMessage "service" "status" (P_service_status s) None)
  | ServiceManager.service_output i stream data =>
      broadcastToServiceSubscribers st i
        (mkMessage "service" "output" (P_service_output i stream data) None)
  | _ => []
  end.

(** The desktop IPC handlers of src/main/index.ts that reach the pool:
    ['create-session'] and ['close-session']. *)
Definition ipc_create_session (st : State) (e : PTYManager.Env)
    (options : PTYManager.CreateOptions) : State * list Output :=
  let '(_, pm, out) := PTYManager.createSession (ptyManager st) e options in
  (set_ptyManager st pm, PtyOut <$> out).

Definition ipc_close_session (st : State) (sessionId : string)
  : State * list Output :=
  let '(pm, out) := PTYManager.closeSession (ptyManager st) sessionId in
  (set_ptyManager st pm, PtyOut <$> out).

(** One step of the gateway seen from the network: a socket connects,
    delivers a frame, starts closing or is closed, the authentication timer
    fires, a PTY exits, or the supervisor moves on its own. *)
Inductive step (Number : string -> option Q) : State -> State -> Prop :=
| step_connection st now conn ip :
    step Number st (fst (on_connection Number st now conn ip))
| step_message st e conn data :
    step Number st (fst (on_message st e conn data))
| step_peer_closing st conn :
    step Number st (on_peer_closing st conn)
| step_close st conn :
    step Number st (fst (on_close st conn))
| step_auth_timeout st now conn :
    step Number st (fst (on_auth_timeout st now conn))
| step_pty_exit st sessionId exitCode signal :
    step Number st (fst (on_pty_exit st sessionId exitCode signal))
| step_supervisor st svc :
    step Number st (set_serviceManager st svc).

(** The states the gateway reaches from its construction through the
    network alone. *)
Inductive reachable (Number : string -> option Q) : State -> Prop :=
| reachable_initial token restrict shell svc :
    reachable Number (constructed token restrict shell svc)
| reachable_step st st' :
    reachable Number st -> step Number st st' -> reachable Number st'.

(** The same with the desktop IPC handlers as further steps. *)
Inductive reachable_with_desktop (Number : string -> option Q) : State -> Prop :=
| desktop_initial token restrict shell svc :
    reachable_with_desktop Number (constructed token restrict shell svc)
| desktop_step st st' :
    reachable_with_desktop Number st -> step Number st st' ->
    reachable_with_desktop Number st'
| desktop_create st e options :
    reachable_with_desktop Number st ->
    reachable_with_desktop Number (fst (ipc_create_session st e options))
| desktop_close st sessionId :
    reachable_with_desktop Number st ->
    reachable_with_desktop Number (fst (ipc_close_session st sessionId)).

End RemoteServer.

(** ** What happens to a connection id after its socket has closed *)

Module GatewayRuns.

(** [later Number conn st st']: the gateway gets from [st] to [st'] by any
    number of events (those of [RemoteServer.step] and the two desktop
    handlers), none of which is a new connection that draws the id [conn]
    again. *)
Inductive later (Number : string -> option Q) (conn : string)
  : RemoteServer.State -> RemoteServer.State -> Prop :=
| later_now st : later Number conn st st
| later_connection st st' now conn' ip :
    later Number conn st st' -> conn' <> conn ->
    later Number conn st
      (fst (RemoteServer.on_connection Number st' now conn' ip))
| later_message st st' e conn' data :
    later Number conn st st' ->
    later Number conn st (fst (RemoteServer.on_message st' e conn' data))
| later_peer_closing st st' conn' :
    later Number conn st st' ->
    later Number conn st (RemoteServer.on_peer_closing st' conn')
| later_close st st' conn' :
    later Number conn st st' ->
    later Number conn st (fst (RemoteServer.on_close st' conn'))
| later_auth_timeout st st' now conn' :
    later Number conn st st' ->
    later Number conn st (fst (RemoteServer.on_auth_timeout st' now conn'))
| later_pty_exit st st' sessionId exitCode signal :
    later Number conn st st' ->
    later Number conn st
      (fst (RemoteServer.on_pty_exit st' sessionId exitCode signal))
| later_supervisor st st' svc :
    later Number conn st st' ->
    later Number conn st (RemoteServer.set_serviceManager st' svc)
| later_desktop_create st st' e options :
    later Number conn st st' ->
    later Number conn st (fst (RemoteServer.ipc_create_session st' e options))
| later_desktop_close st st' sessionId :
    later Number conn st st' ->
    later Number conn st (fst (RemoteServer.ipc_close_session st' sessionId)).

End GatewayRuns.


(** ** The client SDK of the editor extension
       (vscode-extension/src/AgentClient.ts)

    A pending request is its [requestId]: the [resolve] and [reject]
    closures stored under it settle the promise of that request, which the
    output trace records. *)

Module AgentClient.

Record RemoteMessage := mkMessage {
  type : string;
  action : string;
  payload : string;
  requestId : option string
}.

Record State := mkState {
  ws_open : bool;
  connected : bool;
  pendingRequests : gset string;
  timers : list (Z * string)
}.

Inductive Output :=
| Sent (m : RemoteMessage)
| Resolved (requestId payload : string)
| Rejected (requestId error : string)
| Emitted (event payload : string).

(** [send(message)] *)
Definition send (st : State) (m : RemoteMessage) : list Output :=
  if ws_open st then [Sent m] else [].

(** [request(message)] at time [now]; [rid] is the result of [uuidv4()]. *)
Definition request (st : State) (now : Z) (rid : string) (m : RemoteMessage)
  : State * list Output :=
  let pending := {[rid]} ∪ pendingRequests st in
  (mkState (ws_open st) (connected st) pending
           (timers st ++ [(now + 10000, rid)]),
   send st (mkMessage (type m) (action m) (payload m) (Some rid))).

(** The callback that [request] hands to [setTimeout]. *)
Definition on_timeout (st : State) (rid : string) : State * list Output :=
  if bool_decide (rid ∈ pendingRequests st)
  then (mkState (ws_open st) (connected st) (pendingRequests st ∖ {[rid]})
                (timers st),
        [Rejected rid "Request timed out"])
  else (st, []).

(** The event loop fires the pending timer at position [k], once it is due. *)
Definition fire_request_timer (st : State) (now : Z) (k : nat)
  : State * list Output :=
  match timers st !! k with
  | Some (due, rid) =>
      if due <=? now
      then on_timeout (mkState (ws_open st) (connected st) (pendingRequests st)
                               (delete k (timers st))) rid
      else (st, [])
  | None => (st, [])
  end.

(** The part of [handleMessage] below the request/response branch. *)
Definition handle_event (st : State) (m : RemoteMessage) : State * list Output :=
  if String.eqb (type m) "auth" && String.eqb (action m) "success"
  then (mkState (ws_open st) true (pendingRequests st) (timers st),
        [Emitted "connected" (payload m)])
  else if String.eqb (type m) "system" && String.eqb (action m) "error"
  then (st, [Emitted "error" (payload m)])
  else if String.eqb (type m) "pty"
  then (if String.eqb (action m) "data"
        then (st, [Emitted "pty:data" (payload m)])
        else if String.eqb (action m) "exit"
        then (st, [Emitted "pty:exit" (payload m)])
        else if String.eqb (action m) "created"
        then (st, [Emitted "pty:created" (payload m)])
        else (st, []))
  else (st, []).

(** [handleMessage(message)] *)
Definition handleMessage (st : State) (m : RemoteMessage) : State * list Output :=
  match requestId m with
  | Some rid =>
      if Js.truthy rid && bool_decide (rid ∈ pendingRequests st)
      then (mkState (ws_open st) (connected st) (pendingRequests st ∖ {[rid]})
                    (timers st),
            [Resolved rid (payload m)])
      else handle_event st m
  | None => handle_event st m
  end.

(** The default the specification names for the request timeout, in
    milliseconds. *)
Definition spec_default_timeout : Z := 30000.

End AgentClient.


(** ** The admission rule in the words of the specification

    A peer address [p] is admissible when, after stripping an optional
    ["::ffff:"] prefix, it equals 127.0.0.1 or ::1, or is a dotted quad whose
    first octet is 100 and whose second octet is between 64 and 127
    inclusive. *)

Module OriginSpec.

Definition strip_mapped (p : string) : string :=
  if String.prefix "::ffff:" p then Js.substring_from 7 p else p.

Definition in_cgnat (q : string) : Prop :=
  exists a b c d : N,
    PeerAddress.octet a /\ PeerAddress.octet b
    /\ PeerAddress.octet c /\ PeerAddress.octet d
    /\ q = PeerAddress.dotted_quad a b c d
    /\ a = 100%N /\ (64 <= b)%N /\ (b <= 127)%N.

Definition claimed_admissible (p : string) : Prop :=
  strip_mapped p = "127.0.0.1" \/ strip_mapped p = "::1"
  \/ in_cgnat (strip_mapped p).

End OriginSpec.

(** ** Concrete configurations used by the examples *)

Module Scenario.

Definition env0 : PTYManager.Env :=
  PTYManager.mkEnv 1000 "s1" (Some "/home/agent") true.

Definition no_options : PTYManager.CreateOptions :=
  PTYManager.mkOptions None None None None None.

(** A server with token "c0ffee" in Tailscale mode, and no service. *)
Definition server0 : RemoteServer.State :=
  RemoteServer.constructed "c0ffee" true "/bin/zsh" ServiceManager.initial.

(** A remote peer has connected as "c1"; a peer on the loopback as "c2". *)
Definition server1 : RemoteServer.State :=
  fst (RemoteServer.on_connection Origin.Number_decimal server0 0 "c1"
         (Some "100.64.0.7")).

Definition server2 : RemoteServer.State :=
  fst (RemoteServer.on_connection Origin.Number_decimal server1 0 "c2"
         (Some "::ffff:127.0.0.1")).

Definition auth_phone : RemoteServer.AuthPayload :=
  RemoteServer.mkAuth (Token.TokenString "c0ffee") "phone" "Phone".

Definition auth_laptop : RemoteServer.AuthPayload :=
  RemoteServer.mkAuth (Token.TokenString "c0ffee") "laptop" "Laptop".

Definition auth_wrong : RemoteServer.AuthPayload :=
  RemoteServer.mkAuth (Token.TokenString "c0ffef") "phone" "Phone".

(** A token one byte short, and an auth frame without any token. *)
Definition auth_short : RemoteServer.AuthPayload :=
  RemoteServer.mkAuth (Token.TokenString "c0ffe") "phone" "Phone".

Definition auth_no_token : RemoteServer.AuthPayload :=
  RemoteServer.mkAuth Token.TokenInvalid "phone" "Phone".

Definition frame (b : RemoteServer.Incoming) : option RemoteServer.Frame :=
  Some (RemoteServer.mkFrame b None).

(** The client record of the phone once it has authenticated as "c1". *)
Definition phone : RemoteServer.AuthenticatedClient :=
  RemoteServer.mkClient "c1" "c1" "phone" "Phone" 1000 ∅ ∅ ∅ false.

(** Both peers have authenticated. *)
Definition server3 : RemoteServer.State :=
  fst (RemoteServer.on_message server2 env0 "c1"
         (frame (RemoteServer.Auth auth_phone))).

Definition server4 : RemoteServer.State :=
  fst (RemoteServer.on_message server3 env0 "c2"
         (frame (RemoteServer.Auth auth_laptop))).

(** The phone has created the session "s1". *)
Definition server5 : RemoteServer.State :=
  fst (RemoteServer.on_message server4 env0 "c1"
         (frame (RemoteServer.Pty (RemoteServer.PtyCreate no_options)))).

(** The desktop window has created a session "s1" on the fresh server. *)
Definition desktop1 : RemoteServer.State :=
  fst (RemoteServer.ipc_create_session server0 env0 no_options).

(** A supervised service that is restarted on failure: registered, then
    started at time 1000 with pid 42 (child handle 0). *)
Definition worker : ServiceManager.ServiceConfig :=
  ServiceManager.mkConfig "worker" "Worker" "/usr/bin/worker" [] None [] false true.

Definition sup1 : ServiceManager.State :=
  fst (fst (ServiceManager.registerService ServiceManager.initial worker)).

Definition sup2 : ServiceManager.State :=
  fst (fst (ServiceManager.startService sup1 1000
              (ServiceManager.Spawned (Some 42)) "worker")).

(** The status is queried at 1500; the child exits with code 0 at 1800. *)
Definition sup3 : ServiceManager.State :=
  snd (ServiceManager.getStatus sup2 1500 "worker").

Definition sup4 : ServiceManager.State :=
  fst (ServiceManager.on_child_exit sup3 1800 0 (Some 0) None).

(** Instead: the child crashes with code 1 at 2000, a stop is requested at
    3000, and the timer that is then pending fires at 7000. *)
Definition crashed : ServiceManager.State :=
  fst (ServiceManager.on_child_exit sup2 2000 0 (Some 1) None).

Definition stop_requested : ServiceManager.State :=
  fst (ServiceManager.stopService crashed 3000 "worker").

Definition respawned : ServiceManager.State :=
  fst (ServiceManager.fire_timer stop_requested 7000
         (ServiceManager.Spawned (Some 43)) 0).

(** Instead: a stop is requested at 3000 while the worker runs, the child
    dies of the SIGTERM at 3100, and the restart that is then pending fires
    at 8100. *)
Definition stopping : ServiceManager.State :=
  fst (ServiceManager.stopService sup2 3000 "worker").

Definition terminated : ServiceManager.State :=
  fst (ServiceManager.on_child_exit stopping 3100 0 None (Some "SIGTERM")).

Definition restarted : ServiceManager.State :=
  fst (ServiceManager.fire_timer terminated 8100
         (ServiceManager.Spawned (Some 44)) 1).

(** The editor client with an open socket and nothing pending. *)
Definition idle_client : AgentClient.State :=
  AgentClient.mkState true true ∅ [].

Definition list_request : AgentClient.RemoteMessage :=
  AgentClient.mkMessage "pty" "list" "{}" None.

End Scenario.

(** ** The relation between the pool and the ownership map *)

Module Invariants.

(** Every session is stored under its own id. *)
Definition keyed_by_id (pm : PTYManager.State) : Prop :=
  map_Forall (fun k s => PTYManager.id s = k) (PTYManager.sessions pm).

(** The pool and the ownership map hold the same session ids, and every
    session is stored under its own id. *)
Definition pool_matches_registry (st : RemoteServer.State) : Prop :=
  dom (PTYManager.sessions (RemoteServer.ptyManager st))
  = dom (RemoteServer.sessionOwnership st)
  /\ keyed_by_id (RemoteServer.ptyManager st).

(** [sessionId] is the id of a session of [PTYManager.getAllSessions]. *)
Definition listed (st : RemoteServer.State) (sessionId : string) : Prop :=
  exists s, s ∈ PTYManager.getAllSessions (RemoteServer.ptyManager st)
            /\ PTYManager.id s = sessionId.

End Invariants.

(** ** The rest of the PTY pool: [handleMessage] and [closeAll] *)

Module PTYMessages.

Inductive MessageType := data | resize | close.

Record PTYMessage := mkPTYMessage {
  type : MessageType;
  sessionId : string;
  msg_data : option string;
  msg_cols : option Z;
  msg_rows : option Z
}.

Definition seq (acc : PTYManager.State * list PTYManager.Output)
    (f : PTYManager.State -> PTYManager.State * list PTYManager.Output)
  : PTYManager.State * list PTYManager.Output :=
  (fst (f (fst acc)), snd acc ++ snd (f (fst acc))).

(** [handleMessage(message)] *)
Definition handleMessage (st : PTYManager.State) (m : PTYMessage)
  : PTYManager.State * list PTYManager.Output :=
  match type m with
  | data =>
      if Js.truthy_opt (msg_data m)
      then (st, PTYManager.write st (sessionId m) (default "" (msg_data m)))
      else (st, [])
  | resize =>
      if Js.truthy_num (msg_cols m) && Js.truthy_num (msg_rows m)
      then PTYManager.resize st (sessionId m)
             (default 0 (msg_cols m)) (default 0 (msg_rows m))
      else (st, [])
  | close => PTYManager.closeSession st (sessionId m)
  end.

(** [closeAll()]: the loop visits every session of the map; each visit
    removes the session it is at. *)
Definition closeAll (st : PTYManager.State)
  : PTYManager.State * list PTYManager.Output :=
  foldl (fun acc i => seq acc (fun s => PTYManager.closeSession s i))
        (st, []) (map_to_list (PTYManager.sessions st)).*1.

End PTYMessages.

(** ** The Tailscale collaborator (src/services/TailscaleService.ts)

    The command line tool is the environment: [available] says for which
    entries of [CLI_PATHS] the probe of [findCli] succeeds; a call of
    [status --json] either throws (with the [message] and [stderr] of the
    error, also when [JSON.parse] throws) or yields an object of which the
    code reads [BackendState] and [Self?.HostName]; a call of [ip -4]
    throws or prints a text, given here as [String.trim] returns it. *)

Module TailscaleService.

Record TailscaleStatus := mkStatus {
  installed : bool;
  running : bool;
  loggedIn : bool;
  ip : option string;
  hostname : option string;
  error : option string
}.

Definition CLI_PATHS : list string :=
  [ "/Applications/Tailscale.app/Contents/MacOS/Tailscale";
    "/usr/local/bin/tailscale"; "/opt/homebrew/bin/tailscale"; "tailscale" ].

Inductive StatusCall :=
| StatusThrew (message stderr : option string)
| StatusJson (BackendState HostName : option string).

Inductive IpCall :=
| IpThrew
| IpPrinted (trimmed : string).

(** [findCli()] *)
Definition findCli (available : string -> bool) : option string :=
  List.find available CLI_PATHS.

(** [x || null] on an optional string. *)
Definition or_null (x : option string) : option string :=
  match x with
  | Some v => if Js.truthy v then Some v else None
  | None => None
  end.

(** [getIPv4()] *)
Definition getIPv4 (cliPath : option string) (call : IpCall) : option string :=
  match cliPath with
  | None => None
  | Some _ =>
      match call with
      | IpThrew => None
      | IpPrinted text => or_null (Some text)
      end
  end.

(** [x?.includes('not running')] as a condition. *)
Definition mentions_not_running (x : option string) : bool :=
  match x with
  | Some v => Js.includes v "not running"
  | None => false
  end.

(** A value of [status.BackendState] in a template string. *)
Definition show_state (x : option string) : string :=
  match x with Some v => v | None => "undefined" end.

(** [getStatus()] *)
Definition getStatus (cliPath : option string) (call : StatusCall)
    (ipCall : IpCall) : TailscaleStatus :=
  match cliPath with
  | None =>
      mkStatus false false false None None (Some "Tailscale not installed")
  | Some _ =>
      match call with
      | StatusJson backendState hostName =>
          if bool_decide (backendState = Some "NeedsLogin")
             || bool_decide (backendState = Some "NoState")
          then mkStatus true true false None (or_null hostName)
                        (Some "Please log in to Tailscale")
          else if negb (bool_decide (backendState = Some "Running"))
          then mkStatus true true false None (or_null hostName)
                        (Some ("Tailscale state: " +:+ show_state backendState))
          else mkStatus true true true (getIPv4 cliPath ipCall)
                        (or_null hostName) None
      | StatusThrew message stderr =>
          if mentions_not_running message || mentions_not_running stderr
          then mkStatus true false false None None
                        (Some "Tailscale is not running")
          else mkStatus true false false None None
                        (Some (Js.or_else message "Failed to get Tailscale status"))
      end
  end.

End TailscaleService.

(** ** Runs of the supervisor *)

Module SupervisorRuns.

(** One step of the supervisor: a call of one of its methods, an event of
    a child, or a timer that fires. *)
Inductive step : ServiceManager.State -> ServiceManager.State -> Prop :=
| step_register st c :
    step st (fst (fst (ServiceManager.registerService st c)))
| step_start st now sp i :
    step st (fst (fst (ServiceManager.startService st now sp i)))
| step_stop st now i :
    step st (fst (ServiceManager.stopService st now i))
| step_child_error st h message :
    step st (fst (ServiceManager.on_child_error st h message))
| step_child_exit st now h code signal :
    step st (fst (ServiceManager.on_child_exit st now h code signal))
| step_timer st now sp k :
    step st (fst (ServiceManager.fire_timer st now sp k))
| step_getStatus st now i :
    step st (snd (ServiceManager.getStatus st now i))
| step_getAllStatuses st now :
    step st (snd (ServiceManager.getAllStatuses st now)).

Inductive reachable : ServiceManager.State -> Prop :=
| reachable_initial : reachable ServiceManager.initial
| reachable_step st st' : reachable st -> step st st' -> reachable st'.

(** What holds of every registered service in a run: it is stored under
    the id of its configuration and of its status; its process, if any, is
    a child that was spawned for it; and while its status is [running] it
    has a process and a start time. *)
Definition well_formed (st : ServiceManager.State) : Prop :=
  forall k service,
    ServiceManager.services st !! k = Some service ->
    ServiceManager.cfg_id (ServiceManager.config service) = k
    /\ ServiceManager.id (ServiceManager.svc_status service) = k
    /\ (forall h, ServiceManager.process service = Some h ->
                  exists c, ServiceManager.children st !! h = Some c
                            /\ ServiceManager.child_service c = k)
    /\ (ServiceManager.status (ServiceManager.svc_status service)
        = ServiceManager.running ->
        is_Some (ServiceManager.process service)
        /\ is_Some (ServiceManager.startTime service)).

(** Every child of the table was spawned for a registered service and
    carries a handle below the next one to be drawn. *)
Definition children_known (st : ServiceManager.State) : Prop :=
  forall h c,
    ServiceManager.children st !! h = Some c ->
    (h < ServiceManager.next_child st)%nat
    /\ is_Some (ServiceManager.services st !! ServiceManager.child_service c).

End SupervisorRuns.

(** ** Further concrete configurations *)

Module Scenario2.

(** The pool of the sample server once the phone has created "s1". *)
Definition pool1 : PTYManager.State :=
  RemoteServer.ptyManager Scenario.server5.

Definition evil_options : PTYManager.CreateOptions :=
  PTYManager.mkOptions (Some "x") (Some 0) None (Some "/tmp/../etc")
                       (Some "/bin/evil").

Definition env1 : PTYManager.Env :=
  PTYManager.mkEnv 2000 "s2" (Some "/home/agent") true.

(** What the pool makes of [evil_options]. *)
Definition sanitised : PTYManager.PTYSession :=
  PTYManager.mkSession "s2" "x" 80 24 "/home/agent" "/bin/zsh" 2000.

(** The session that the desktop window gets on the fresh server. *)
Definition desktop_session : PTYManager.PTYSession :=
  PTYManager.mkSession "s1" "Terminal 1" 80 24 "/home/agent" "/bin/zsh" 1000.

(** The phone record once it has created "s1". *)
Definition phone_owner : RemoteServer.AuthenticatedClient :=
  RemoteServer.mkClient "c1" "c1" "phone" "Phone" 1000 {["s1"]} {["s1"]} ∅ false.

(** A second remote device. *)
Definition tablet : RemoteServer.AuthenticatedClient :=
  RemoteServer.mkClient "c7" "c7" "tablet" "Tablet" 1000 ∅ ∅ ∅ false.

(** The sample supervisor while a stop is in flight, and a failed spawn. *)
Definition failed : ServiceManager.State :=
  fst (fst (ServiceManager.startService Scenario.sup1 1000
              (ServiceManager.SpawnThrew "spawn EACCES") "worker")).

(** The client with the request "r1" pending since time 0. *)
Definition waiting_client : AgentClient.State :=
  fst (AgentClient.request Scenario.idle_client 0 "r1" Scenario.list_request).

Definition reply_r1 : AgentClient.RemoteMessage :=
  AgentClient.mkMessage "pty" "list" "[]" (Some "r1").

End Scenario2.

(** ** A property of the sessions of a pool *)

Module PoolInvariants.

(** No session of the pool has zero columns or zero rows. *)
Definition dims_nonzero (pm : PTYManager.State) : Prop :=
  map_Forall (fun _ s => PTYManager.cols s <> 0 /\ PTYManager.rows s <> 0)
             (PTYManager.sessions pm).

End PoolInvariants.

(** ** Reading the trace of the supervisor *)

Module SupervisorTrace.

(** [o] is the resolution of a promise of [stopService] for service [i]. *)
Definition is_resolution (i : string) (o : ServiceManager.Output) : bool :=
  match o with
  | ServiceManager.StopResolved j => String.eqb i j
  | _ => false
  end.

(** How many promises of [stopService] for service [i] a trace resolves. *)
Definition resolutions (i : string) (out : list ServiceManager.Output) : nat :=
  List.length (List.filter (is_resolution i) out).

(** Two service records that differ at most in the [uptime] of their
    status. *)
Definition same_but_uptime (a b : ServiceManager.ManagedService) : Prop :=
  ServiceManager.config b = ServiceManager.config a
  /\ ServiceManager.process b = ServiceManager.process a
  /\ ServiceManager.startTime b = ServiceManager.startTime a
  /\ ServiceManager.with_uptime (ServiceManager.svc_status b) None
     = ServiceManager.with_uptime (ServiceManager.svc_status a) None.

End SupervisorTrace.

(* ===================================================================== *)
(** * Part II: theorems                                                   *)
(* ===================================================================== *)

(** ** Strings and buffers *)

Module JsFacts.

Lemma length_Buffer_from (s : string) :
  List.length (Token.Buffer_from s) = String.length s.
Proof. induction s as [|c s IH]; simpl; [reflexivity | now rewrite IH]. Qed.

Lemma Buffer_from_inj (s t : string) :
  Token.Buffer_from s = Token.Buffer_from t -> s = t.
Proof.
  intros H. unfold Token.Buffer_from in H.
  rewrite <- (string_of_list_ascii_of_string s),
          <- (string_of_list_ascii_of_string t).
  now rewrite H.
Qed.

Lemma N_of_ascii_inj (a b : ascii) : N_of_ascii a = N_of_ascii b -> a = b.
Proof.
  intros H. rewrite <- (ascii_N_embedding a), <- (ascii_N_embedding b).
  now rewrite H.
Qed.

Lemma truthy_true (s : string) : Js.truthy s = true <-> s <> "".
Proof.
  unfold Js.truthy. destruct (String.eqb_spec s ""); simpl; split;
    congruence.
Qed.

Lemma split_nonempty (sep : ascii) (s : string) : Js.split sep s <> [].
Proof.
  destruct s as [|c s]; simpl; [discriminate|].
  destruct (Ascii.eqb c sep); [discriminate|].
  destruct (Js.split sep s); discriminate.
Qed.

End JsFacts.

(** ** Token buffers *)

Module TokenFacts.

Lemma timingSafeEqual_same_length (a b : Token.Buffer) :
  List.length a = List.length b ->
  Token.timingSafeEqual a b = Some (bool_decide (a = b)).
Proof.
  intros H. unfold Token.timingSafeEqual. now rewrite H, Nat.eqb_refl.
Qed.

(** [Buffer.from] of a string token, and its length. *)
Lemma Buffer_from_value_string (s : string) :
  Token.Buffer_from_value (Token.TokenString s) = Some (Token.Buffer_from s)
  /\ List.length (Token.Buffer_from s) = String.length s.
Proof. split; [reflexivity | apply JsFacts.length_Buffer_from]. Qed.

End TokenFacts.

(** ** The origin filter *)

Module OriginFacts.

Lemma isLocalhost_spec (q : string) :
  Origin.isLocalhost q = true <-> q = "127.0.0.1" \/ q = "::1".
Proof.
  unfold Origin.isLocalhost. rewrite orb_true_iff.
  destruct (String.eqb_spec q "127.0.0.1"), (String.eqb_spec q "::1");
    intuition congruence.
Qed.

Lemma num_is_spec (x : option Q) (k : Z) :
  Origin.num_is x k = true <-> exists q, x = Some q /\ (q == inject_Z k)%Q.
Proof.
  destruct x as [q|]; simpl.
  - rewrite Qeq_bool_iff. split; [eauto | intros (? & [= <-] & ?); trivial].
  - split; [discriminate | intros (? & [=] & _)].
Qed.

Lemma num_ge_spec (x : option Q) (k : Z) :
  Origin.num_ge x k = true <-> exists q, x = Some q /\ (inject_Z k <= q)%Q.
Proof.
  destruct x as [q|]; simpl.
  - rewrite Qle_bool_iff. split; [eauto | intros (? & [= <-] & ?); trivial].
  - split; [discriminate | intros (? & [=] & _)].
Qed.

Lemma num_le_spec (x : option Q) (k : Z) :
  Origin.num_le x k = true <-> exists q, x = Some q /\ (q <= inject_Z k)%Q.
Proof.
  destruct x as [q|]; simpl.
  - rewrite Qle_bool_iff. split; [eauto | intros (? & [= <-] & ?); trivial].
  - split; [discriminate | intros (? & [=] & _)].
Qed.

(** [isInTailscaleRange] strips a prefix of its own and then tests the
    first two of exactly four parts. *)
Lemma isInTailscaleRange_spec (Number : string -> option Q) (q : string) :
  Origin.isInTailscaleRange Number q = true
  <-> Origin.parts_in_range Number (Origin.normalizeIP q).
Proof.
  unfold Origin.isInTailscaleRange, Origin.parts_in_range.
  destruct (Js.split "." (Origin.normalizeIP q)) as [|a [|b [|c [|d [|e l]]]]];
    simpl; try (split; [discriminate | intros (?&?&?&?&?&?&[=]&_)]).
  rewrite !andb_true_iff, num_is_spec, num_ge_spec, num_le_spec. split.
  - intros [[(x & Hx & Hx100) (y & Hy & Hy64)] (y' & Hy' & Hy127)].
    assert (y' = y) as -> by congruence.
    exists a, b, c, d, x, y. auto 10.
  - intros (a' & b' & c' & d' & x & y & [= <- <- <- <-] & Hx & Hy & ? & ? & ?).
    eauto 10.
Qed.

(** The verdict on a peer whose address is known. *)
Lemma accepted_known_address (Number : string -> option Q) (p : string) :
  p <> "" ->
  Origin.accepted (Origin.check_origin Number true (Some p)) = true
  <-> Origin.normalizeIP p = "127.0.0.1" \/ Origin.normalizeIP p = "::1"
      \/ Origin.isInTailscaleRange Number (Origin.normalizeIP p) = true.
Proof.
  intros Hp. apply JsFacts.truthy_true in Hp.
  unfold Origin.check_origin. rewrite Hp. simpl.
  pose proof (isLocalhost_spec (Origin.normalizeIP p)) as HL.
  destruct (Origin.isLocalhost (Origin.normalizeIP p)),
           (Origin.isInTailscaleRange Number (Origin.normalizeIP p));
    simpl; intuition congruence.
Qed.

Lemma rejected_with_4000 (Number : string -> option Q) (restrict : bool)
    (ip : option string) :
  Origin.accepted (Origin.check_origin Number restrict ip) = false ->
  Origin.check_origin Number restrict ip
  = Origin.Reject 4000 "Connection not allowed from this address".
Proof.
  unfold Origin.check_origin.
  destruct ip as [p|]; [destruct (restrict && Js.truthy p)|];
    try discriminate.
  destruct (negb _ && negb _); [reflexivity | discriminate].
Qed.

Lemma unrestricted_accepts (Number : string -> option Q) (ip : option string) :
  Origin.accepted (Origin.check_origin Number false ip) = true.
Proof. destruct ip; reflexivity. Qed.

(** *** Octets and their decimal text *)

Lemma octet_forall (P : N -> bool) :
  forallb P (N.of_nat <$> seq 0 256) = true ->
  forall n : N, PeerAddress.octet n -> P n = true.
Proof.
  intros H n Hn. rewrite forallb_forall in H. apply H.
  apply list_elem_of_In, list_elem_of_fmap. exists (N.to_nat n). split.
  - now rewrite N2Nat.id.
  - apply elem_of_seq. unfold PeerAddress.octet in Hn. lia.
Qed.

(** The decimal text of an octet starts with a digit and holds no dot. *)
Lemma octet_text (n : N) :
  PeerAddress.octet n ->
  exists c r,
    pretty n = String c r
    /\ c <> ":"%char /\ c <> "f"%char /\ c <> "."%char
    /\ Origin.dotless r = true.
Proof.
  intros Hn.
  assert (Hall : forallb
                   (fun n : N =>
                      match pretty n with
                      | String c r =>
                          negb (Ascii.eqb c ":") && negb (Ascii.eqb c "f")
                          && negb (Ascii.eqb c ".") && Origin.dotless r
                      | EmptyString => false
                      end) (N.of_nat <$> seq 0 256) = true)
    by (vm_compute; reflexivity).
  pose proof (octet_forall _ Hall n Hn) as H.
  cbv beta in H. destruct (pretty n) as [|c r]; [discriminate|].
  exists c, r. rewrite !andb_true_iff, !negb_true_iff in H.
  destruct H as [[[H1 H2] H3] H4].
  split; [reflexivity|].
  repeat split; try assumption; intros ->; discriminate.
Qed.

Lemma octet_dotless (n : N) :
  PeerAddress.octet n -> Origin.dotless (pretty n) = true.
Proof.
  intros Hn. destruct (octet_text n Hn) as (c & r & -> & _ & _ & Hc & Hr).
  simpl. rewrite Hr, andb_true_r. apply negb_true_iff.
  destruct (Ascii.eqb_spec c "."); [contradiction | reflexivity].
Qed.

Lemma Number_decimal_converts : Origin.converts_octets Origin.Number_decimal.
Proof.
  split.
  - intros n Hn.
    assert (Hall : forallb
                     (fun n : N =>
                        match Origin.decimal_from 0 (pretty n) with
                        | Some z => Z.eqb z (Z.of_N n)
                        | None => false
                        end
                        && Nat.leb (String.length (pretty n)) 15)
                     (N.of_nat <$> seq 0 256) = true)
      by (vm_compute; reflexivity).
    pose proof (octet_forall _ Hall n Hn) as H.
    cbv beta in H. apply andb_true_iff in H as [H1 H2].
    unfold Origin.Number_decimal. rewrite H2.
    destruct (Origin.decimal_from 0 (pretty n)) as [z|]; [|discriminate].
    apply Z.eqb_eq in H1. now subst z.
  - intros s. unfold Origin.Number_decimal.
    destruct (Nat.leb _ 15); reflexivity.
Qed.

Lemma converts_reads_octets (Number : string -> option Q) :
  Origin.converts_octets Number -> Origin.reads_octets Number.
Proof.
  intros [HN _] s Hs.
  assert (Hall : forall n : N,
             PeerAddress.octet n ->
             Number (pretty n) = Origin.Number_decimal (pretty n)).
  { intros n Hn. rewrite (HN n Hn).
    symmetry. apply (proj1 Number_decimal_converts n Hn). }
  repeat (apply elem_of_cons in Hs as [->|Hs]);
    [ apply (Hall 0%N) | apply (Hall 63%N) | apply (Hall 64%N)
    | apply (Hall 100%N) | apply (Hall 127%N) | apply (Hall 128%N)
    | apply (Hall 255%N) | now apply elem_of_nil in Hs ];
    reflexivity.
Qed.

Lemma octet_value (Number : string -> option Q) (s : string) :
  Origin.reads_octets Number ->
  s ∈ ["0"; "63"; "64"; "100"; "127"; "128"; "255"] ->
  Number s = Origin.Number_decimal s.
Proof. intros H. apply H. Qed.

Ltac boundary HN :=
  unfold Origin.check_origin, Origin.isInTailscaleRange; simpl;
  rewrite ?(octet_value _ "100" HN), ?(octet_value _ "63" HN),
          ?(octet_value _ "64" HN), ?(octet_value _ "127" HN),
          ?(octet_value _ "128" HN) by set_solver;
  reflexivity.

Lemma boundary_addresses (Number : string -> option Q) :
  Origin.reads_octets Number ->
  Origin.check_origin Number true (Some "100.63.255.255")
  = Origin.Reject 4000 "Connection not allowed from this address"
  /\ Origin.check_origin Number true (Some "100.128.0.0")
     = Origin.Reject 4000 "Connection not allowed from this address"
  /\ Origin.check_origin Number true (Some "100.64.0.0") = Origin.Accept false
  /\ Origin.check_origin Number true (Some "100.127.255.255")
     = Origin.Accept false.
Proof. intros HN. repeat split; boundary HN. Qed.

(** *** Splitting an address at its dots *)

Lemma dotless_app (x r : string) :
  Origin.dotless (x +:+ r) = Origin.dotless x && Origin.dotless r.
Proof.
  induction x as [|c x IH]; simpl; [reflexivity|].
  now rewrite IH, andb_assoc.
Qed.

Lemma dotless_substring (n : nat) (s : string) :
  Origin.dotless s = true -> Origin.dotless (Js.substring_from n s) = true.
Proof.
  revert s. induction n as [|n IH]; intros s Hs; simpl; [exact Hs|].
  destruct s as [|c s]; [reflexivity|].
  simpl in Hs. apply andb_true_iff in Hs as [_ Hs]. now apply IH.
Qed.

Lemma split_dotless (x : string) :
  Origin.dotless x = true -> Js.split "." x = [x].
Proof.
  induction x as [|c x IH]; simpl; [reflexivity|].
  intros H. apply andb_true_iff in H as [Hc Hx].
  apply negb_true_iff in Hc. rewrite Hc, (IH Hx). reflexivity.
Qed.

Lemma split_app_dot (x r : string) :
  Origin.dotless x = true ->
  Js.split "." (x +:+ String "." r) = x :: Js.split "." r.
Proof.
  induction x as [|c x IH]; simpl; [reflexivity|].
  intros H. apply andb_true_iff in H as [Hc Hx].
  apply negb_true_iff in Hc. rewrite Hc, (IH Hx). reflexivity.
Qed.

Lemma split_dotted (a b c d : N) :
  PeerAddress.octet a -> PeerAddress.octet b ->
  PeerAddress.octet c -> PeerAddress.octet d ->
  Js.split "." (PeerAddress.dotted_quad a b c d)
  = [pretty a; pretty b; pretty c; pretty d].
Proof.
  intros Ha Hb Hc Hd.
  change (PeerAddress.dotted_quad a b c d)
    with (pretty a
          +:+ String "." (pretty b
                          +:+ String "." (pretty c +:+ String "." (pretty d)))).
  rewrite (split_app_dot (pretty a)) by now apply octet_dotless.
  rewrite (split_app_dot (pretty b)) by now apply octet_dotless.
  rewrite (split_app_dot (pretty c)) by now apply octet_dotless.
  rewrite (split_dotless (pretty d)) by now apply octet_dotless.
  reflexivity.
Qed.

Lemma dotted_dotless (a b c d : N) :
  Origin.dotless (PeerAddress.dotted_quad a b c d) = false.
Proof.
  change (PeerAddress.dotted_quad a b c d)
    with (pretty a
          +:+ String "." (pretty b
                          +:+ String "." (pretty c +:+ String "." (pretty d)))).
  rewrite dotless_app. simpl. apply andb_false_r.
Qed.

(** A dotted quad starts with a digit. *)
Lemma dotted_head (a b c d : N) :
  PeerAddress.octet a ->
  exists x r,
    PeerAddress.dotted_quad a b c d = String x r
    /\ x <> ":"%char /\ x <> "f"%char.
Proof.
  intros Ha. destruct (octet_text a Ha) as (x & r & Hx & H1 & H2 & _).
  unfold PeerAddress.dotted_quad. rewrite Hx. simpl. eauto.
Qed.

Lemma prefix_cons (x y : ascii) (s t : string) :
  String.prefix (String x s) (String y t)
  = if ascii_dec x y then String.prefix s t else false.
Proof. reflexivity. Qed.

Lemma normalizeIP_dotted (a b c d : N) :
  PeerAddress.octet a ->
  Origin.normalizeIP (PeerAddress.dotted_quad a b c d)
  = PeerAddress.dotted_quad a b c d.
Proof.
  intros Ha. destruct (dotted_head a b c d Ha) as (x & r & -> & H1 & _).
  unfold Origin.normalizeIP, Js.startsWith. rewrite prefix_cons.
  destruct (ascii_dec ":" x); [congruence | reflexivity].
Qed.

Lemma normalizeIP_mapped (q : string) :
  Origin.normalizeIP ("::ffff:" +:+ q) = q.
Proof.
  unfold Origin.normalizeIP, Js.startsWith.
  change ("::ffff:" +:+ q)
    with (String ":" (String ":" (String "f" (String "f" (String "f"
            (String "f" (String ":" q))))))).
  rewrite !prefix_cons.
  replace (String.prefix "" q) with true by (destruct q; reflexivity).
  vm_compute. reflexivity.
Qed.

Lemma normalizeIP_compatible (a b c d : N) :
  PeerAddress.octet a ->
  Origin.normalizeIP ("::" +:+ PeerAddress.dotted_quad a b c d)
  = "::" +:+ PeerAddress.dotted_quad a b c d.
Proof.
  intros Ha. destruct (dotted_head a b c d Ha) as (x & r & -> & _ & H2).
  unfold Origin.normalizeIP, Js.startsWith.
  change ("::" +:+ String x r) with (String ":" (String ":" (String x r))).
  rewrite !prefix_cons.
  destruct (ascii_dec ":" ":"); [|congruence].
  destruct (ascii_dec "f" x); [congruence | reflexivity].
Qed.

Lemma normalizeIP_dotless (s : string) :
  Origin.dotless s = true -> Origin.dotless (Origin.normalizeIP s) = true.
Proof.
  intros Hs. unfold Origin.normalizeIP.
  destruct (Js.startsWith s "::ffff:"); [|exact Hs].
  now apply dotless_substring.
Qed.

(** *** The filter on the addresses that are reported *)

Lemma range_dotted (Number : string -> option Q) (a b c d : N) :
  Origin.converts_octets Number ->
  PeerAddress.octet a -> PeerAddress.octet b ->
  PeerAddress.octet c -> PeerAddress.octet d ->
  Origin.isInTailscaleRange Number (PeerAddress.dotted_quad a b c d) = true
  <-> a = 100%N /\ (64 <= b)%N /\ (b <= 127)%N.
Proof.
  intros [HN _] Ha Hb Hc Hd.
  rewrite isInTailscaleRange_spec, normalizeIP_dotted by exact Ha.
  unfold Origin.parts_in_range. rewrite split_dotted by assumption. split.
  - intros (a' & b' & c' & d' & x & y & [= <- <- <- <-] & Hx & Hy & H1 & H2 & H3).
    rewrite HN in Hx, Hy by assumption.
    injection Hx as <-. injection Hy as <-.
    pose proof (proj1 (inject_Z_injective _ _) H1) as H1'.
    rewrite <- Zle_Qle in H2, H3. lia.
  - intros (-> & H2 & H3).
    exists (pretty 100%N), (pretty b), (pretty c), (pretty d),
           (inject_Z (Z.of_N 100)), (inject_Z (Z.of_N b)).
    split; [reflexivity|].
    split; [now apply HN|]. split; [now apply HN|].
    split; [reflexivity|]. rewrite <- !Zle_Qle. lia.
Qed.

Lemma in_cgnat_dotted (a b c d : N) :
  PeerAddress.octet a -> PeerAddress.octet b ->
  PeerAddress.octet c -> PeerAddress.octet d ->
  OriginSpec.in_cgnat (PeerAddress.dotted_quad a b c d)
  <-> a = 100%N /\ (64 <= b)%N /\ (b <= 127)%N.
Proof.
  intros Ha Hb Hc Hd. unfold OriginSpec.in_cgnat. split.
  - intros (a' & b' & c' & d' & Ha' & Hb' & Hc' & Hd' & Heq & H1 & H2 & H3).
    apply (f_equal (Js.split ".")) in Heq.
    rewrite !split_dotted in Heq by assumption.
    injection Heq as Ea Eb _ _.
    apply (inj pretty) in Ea, Eb. subst a' b'. auto.
  - intros (H1 & H2 & H3). exists a, b, c, d. auto 10.
Qed.

(** On every address that is reported the test of the program and the
    rule of the specification agree. *)
Lemma filter_agrees (Number : string -> option Q) (p : string) :
  Origin.converts_octets Number ->
  PeerAddress.reported p ->
  p <> ""
  /\ (Origin.isInTailscaleRange Number (Origin.normalizeIP p) = true
      <-> OriginSpec.in_cgnat (OriginSpec.strip_mapped p)).
Proof.
  intros HN Hp.
  change (OriginSpec.strip_mapped p) with (Origin.normalizeIP p).
  destruct Hp as [a b c d Ha Hb Hc Hd | a b c d Ha Hb Hc Hd
                 | a b c d Ha Hb Hc Hd | s Hs Hdot].
  - split.
    + destruct (dotted_head a b c d Ha) as (x & r & -> & _). discriminate.
    + rewrite normalizeIP_dotted by exact Ha.
      now rewrite range_dotted, in_cgnat_dotted.
  - split; [discriminate|].
    rewrite normalizeIP_mapped.
    now rewrite range_dotted, in_cgnat_dotted.
  - split; [discriminate|].
    rewrite normalizeIP_compatible by exact Ha. split.
    + intros H. apply isInTailscaleRange_spec in H.
      rewrite normalizeIP_compatible in H by exact Ha.
      destruct H as (a' & b' & c' & d' & x & y & Hsplit & Hx & _).
      change ("::" +:+ PeerAddress.dotted_quad a b c d)
        with (("::" +:+ pretty a)
              +:+ String "." (pretty b
                              +:+ String "." (pretty c
                                              +:+ String "." (pretty d))))
        in Hsplit.
      rewrite split_app_dot in Hsplit
        by (simpl; now apply octet_dotless).
      injection Hsplit as <- _.
      change ("::" +:+ pretty a) with (String ":" (String ":" (pretty a)))
        in Hx.
      rewrite (proj2 HN) in Hx. discriminate.
    + intros (a' & b' & c' & d' & Ha' & _ & _ & _ & Heq & _).
      destruct (dotted_head a' b' c' d' Ha') as (x & r & Hx & H1 & _).
      rewrite Hx in Heq. simpl in Heq. injection Heq as <- _.
      now contradiction H1.
  - split; [exact Hs|]. split.
    + intros H. apply isInTailscaleRange_spec in H.
      destruct H as (a' & b' & c' & d' & x & y & Hsplit & _).
      rewrite split_dotless in Hsplit
        by now apply normalizeIP_dotless, normalizeIP_dotless.
      discriminate.
    + intros (a' & b' & c' & d' & _ & _ & _ & _ & Heq & _).
      apply normalizeIP_dotless in Hdot.
      rewrite Heq, dotted_dotless in Hdot. discriminate.
Qed.

(** The claim's rule decides the verdict on every reported address. *)
Lemma verdict_on_reported (Number : string -> option Q) (p : string) :
  Origin.converts_octets Number ->
  PeerAddress.reported p ->
  Origin.accepted (Origin.check_origin Number true (Some p)) = true
  <-> OriginSpec.claimed_admissible p.
Proof.
  intros HN Hp. destruct (filter_agrees Number p HN Hp) as [Hne Hiff].
  rewrite (accepted_known_address Number p Hne).
  unfold OriginSpec.claimed_admissible.
  change (OriginSpec.strip_mapped p) with (Origin.normalizeIP p) in *.
  now rewrite Hiff.
Qed.

End OriginFacts.


(** ** Admission and authentication at the gateway *)

Module GatewayFacts.

Lemma is_open_clear_authTimeout (st : RemoteServer.State) (conn w : string) :
  RemoteServer.is_open (RemoteServer.clear_authTimeout st conn) w
  = RemoteServer.is_open st w.
Proof.
  unfold RemoteServer.is_open, RemoteServer.clear_authTimeout.
  destruct (RemoteServer.sockets st !! conn) as [s|] eqn:Hs; [|reflexivity].
  simpl. destruct (decide (w = conn)) as [->|Hne].
  - now rewrite lookup_insert_eq, Hs.
  - now rewrite lookup_insert_ne by congruence.
Qed.

(** A token whose bytes are not those of the stored one. *)
Lemma handleAuth_rejects (st : RemoteServer.State) (now : Z) (conn : string)
    (p : RemoteServer.AuthPayload) (rid : option string) (local : bool)
    (b : Token.Buffer) :
  Token.Buffer_from_value (RemoteServer.token p) = Some b ->
  b <> Token.Buffer_from (RemoteServer.authToken st) ->
  RemoteServer.handleAuth st now conn p rid local
  = (RemoteServer.leave_open st conn,
     (if Nat.eqb (List.length (Token.Buffer_from (RemoteServer.authToken st)))
                 (List.length b)
      then [RemoteServer.CryptoCompare
              (Token.Buffer_from (RemoteServer.authToken st)) b]
      else [])
     ++ [RemoteServer.WsClose conn 4003 "Invalid authentication token"],
     RemoteServer.Done).
Proof.
  intros Hb Hne. unfold RemoteServer.handleAuth. rewrite Hb.
  destruct (Nat.eqb_spec
              (List.length (Token.Buffer_from (RemoteServer.authToken st)))
              (List.length b)) as [E|E]; simpl; [|reflexivity].
  rewrite (TokenFacts.timingSafeEqual_same_length _ _ E).
  rewrite bool_decide_eq_false_2 by congruence. reflexivity.
Qed.

(** A token whose bytes are those of the stored one. *)
Lemma handleAuth_accepts (st : RemoteServer.State) (now : Z) (conn : string)
    (p : RemoteServer.AuthPayload) (rid : option string) (local : bool) :
  Token.Buffer_from_value (RemoteServer.token p)
  = Some (Token.Buffer_from (RemoteServer.authToken st)) ->
  exists (c : RemoteServer.AuthenticatedClient)
         (listed : list PTYManager.PTYSession)
         (statuses : list ServiceManager.ServiceStatus)
         (st' : RemoteServer.State),
    RemoteServer.handleAuth st now conn p rid local
    = (st',
       RemoteServer.CryptoCompare
         (Token.Buffer_from (RemoteServer.authToken st))
         (Token.Buffer_from (RemoteServer.authToken st))
       :: RemoteServer.send st' conn
            (RemoteServer.mkMessage "auth" "success"
               (RemoteServer.P_auth_success conn listed statuses) rid)
       ++ [RemoteServer.EmitServer (RemoteServer.client_authenticated c)],
       RemoteServer.Done)
    /\ c = RemoteServer.mkClient conn conn
             (Js.or_else (Some (RemoteServer.clientId p)) conn)
             (RemoteServer.auth_deviceName p) now
             (RemoteServer.restore_owned (RemoteServer.sessionOwnership st)
                (Js.or_else (Some (RemoteServer.clientId p)) conn))
             (RemoteServer.restore_owned (RemoteServer.sessionOwnership st)
                (Js.or_else (Some (RemoteServer.clientId p)) conn))
             ∅ local
    /\ listed
       = (if local
          then PTYManager.getAllSessions (RemoteServer.ptyManager st)
          else filter (fun s => RemoteServer.sessionOwnership st
                                  !! PTYManager.id s
                                = Some (Js.or_else
                                          (Some (RemoteServer.clientId p)) conn))
                      (PTYManager.getAllSessions (RemoteServer.ptyManager st)))
    /\ statuses
       = fst (ServiceManager.getAllStatuses (RemoteServer.serviceManager st) now)
    /\ RemoteServer.clients st' = <[conn := c]> (RemoteServer.clients st)
    /\ RemoteServer.sockets st'
       = RemoteServer.sockets (RemoteServer.clear_authTimeout st conn)
    /\ RemoteServer.sessionOwnership st' = RemoteServer.sessionOwnership st
    /\ RemoteServer.ptyManager st' = RemoteServer.ptyManager st
    /\ RemoteServer.authToken st' = RemoteServer.authToken st
    /\ RemoteServer.restrictToTailscale st' = RemoteServer.restrictToTailscale st
    /\ RemoteServer.serviceManager st'
       = snd (ServiceManager.getAllStatuses (RemoteServer.serviceManager st) now).
Proof.
  intros Hb. unfold RemoteServer.handleAuth. rewrite Hb.
  rewrite Nat.eqb_refl. simpl.
  rewrite (TokenFacts.timingSafeEqual_same_length _ _ eq_refl).
  rewrite bool_decide_eq_true_2 by reflexivity.
  assert (Hframe : RemoteServer.sessionOwnership
                     (RemoteServer.clear_authTimeout st conn)
                   = RemoteServer.sessionOwnership st
                   /\ RemoteServer.ptyManager
                        (RemoteServer.clear_authTimeout st conn)
                      = RemoteServer.ptyManager st
                   /\ RemoteServer.clients
                        (RemoteServer.clear_authTimeout st conn)
                      = RemoteServer.clients st
                   /\ RemoteServer.serviceManager
                        (RemoteServer.clear_authTimeout st conn)
                      = RemoteServer.serviceManager st
                   /\ RemoteServer.authToken
                        (RemoteServer.clear_authTimeout st conn)
                      = RemoteServer.authToken st
                   /\ RemoteServer.restrictToTailscale
                        (RemoteServer.clear_authTimeout st conn)
                      = RemoteServer.restrictToTailscale st).
  { unfold RemoteServer.clear_authTimeout.
    destruct (RemoteServer.sockets st !! conn); simpl; auto 10. }
  destruct Hframe as (Ho & Hp & Hc & Hs & Ht & Hr).
  eexists _, _, _, _. split; [reflexivity|]. simpl.
  rewrite Ho, Hp, Hc, Hs, Ht, Hr.
  split; [reflexivity|]. split; [destruct local; reflexivity|].
  repeat (split; [reflexivity|]). reflexivity.
Qed.

(** C1, as stated, fails: an auth frame that carries no token is a
    mismatch, yet the connection is not closed.  [Buffer.from] throws, the
    [catch] of the message listener answers with system/error "Invalid
    message format", and the socket stays open and unauthenticated. *)
Lemma C1_counterexample :
  Token.Buffer_from_value (RemoteServer.token Scenario.auth_no_token)
  <> Some (Token.Buffer_from (RemoteServer.authToken Scenario.server1))
  /\ RemoteServer.on_message Scenario.server1 Scenario.env0 "c1"
       (Scenario.frame (RemoteServer.Auth Scenario.auth_no_token))
     = (Scenario.server1,
        [RemoteServer.WsSend "c1"
           (RemoteServer.mkMessage "system" "error"
              (RemoteServer.P_error "Invalid message format") None)])
  /\ RemoteServer.is_open Scenario.server1 "c1" = true
  /\ RemoteServer.clients Scenario.server1 !! "c1" = None.
Proof.
  split; [discriminate|]. repeat split; vm_compute; reflexivity.
Qed.

(** C1, amended.  In every authentication attempt whose token [Buffer.from]
    accepts: a token whose byte length differs from that of the stored
    token is rejected by the length test, without any call of the
    comparator; a token of the same byte length is handed, whole and once,
    to [crypto.timingSafeEqual] together with the stored token, whatever
    its bytes are, and the attempt succeeds exactly when the bytes are
    equal.  Every rejection on these two paths closes the socket with code
    4003 "Invalid authentication token" and registers no client.  An
    attempt whose token [Buffer.from] refuses closes nothing: it is
    answered with system/error "Invalid message format" and changes no
    state. *)
Theorem C1_token_comparison :
  forall (st : RemoteServer.State) (now : Z) (conn : string)
         (p : RemoteServer.AuthPayload) (rid : option string) (local : bool),
    (forall b,
        Token.Buffer_from_value (RemoteServer.token p) = Some b ->
        List.length b
        <> List.length (Token.Buffer_from (RemoteServer.authToken st)) ->
        RemoteServer.handleAuth st now conn p rid local
        = (RemoteServer.leave_open st conn,
           [RemoteServer.WsClose conn 4003 "Invalid authentication token"],
           RemoteServer.Done))
    /\ (forall b,
           Token.Buffer_from_value (RemoteServer.token p) = Some b ->
           List.length b
           = List.length (Token.Buffer_from (RemoteServer.authToken st)) ->
           b <> Token.Buffer_from (RemoteServer.authToken st) ->
           RemoteServer.handleAuth st now conn p rid local
           = (RemoteServer.leave_open st conn,
              [RemoteServer.CryptoCompare
                 (Token.Buffer_from (RemoteServer.authToken st)) b;
               RemoteServer.WsClose conn 4003 "Invalid authentication token"],
              RemoteServer.Done))
    /\ (forall b,
           Token.Buffer_from_value (RemoteServer.token p) = Some b ->
           b = Token.Buffer_from (RemoteServer.authToken st) ->
           exists st' out,
             RemoteServer.handleAuth st now conn p rid local
             = (st',
                RemoteServer.CryptoCompare
                  (Token.Buffer_from (RemoteServer.authToken st)) b :: out,
                RemoteServer.Done)
             /\ is_Some (RemoteServer.clients st' !! conn)
             /\ forall o, o ∈ out ->
                          (forall x y, o <> RemoteServer.CryptoCompare x y)
                          /\ (forall w code reason,
                                 o <> RemoteServer.WsClose w code reason))
    /\ (forall s,
           RemoteServer.token p = Token.TokenString s ->
           s <> RemoteServer.authToken st ->
           RemoteServer.clients
             (fst (fst (RemoteServer.handleAuth st now conn p rid local)))
           = RemoteServer.clients st
           /\ RemoteServer.WsClose conn 4003 "Invalid authentication token"
              ∈ snd (fst (RemoteServer.handleAuth st now conn p rid local)))
    /\ (Token.Buffer_from_value (RemoteServer.token p) = None ->
        RemoteServer.handleAuth st now conn p rid local
        = (st, [], RemoteServer.Thrown)
        /\ forall e sock,
            RemoteServer.sockets st !! conn = Some sock ->
            RemoteServer.on_message st e conn
              (Some (RemoteServer.mkFrame (RemoteServer.Auth p) rid))
            = (st, RemoteServer.sendError st conn "Invalid message format")).
Proof.
  intros st now conn p rid local. split; [|split; [|split; [|split]]].
  - intros b Hb Hlen.
    rewrite (handleAuth_rejects st now conn p rid local b Hb)
      by (intros ->; now apply Hlen).
    destruct (Nat.eqb_spec
                (List.length (Token.Buffer_from (RemoteServer.authToken st)))
                (List.length b)) as [E|E]; [congruence | reflexivity].
  - intros b Hb Hlen Hne.
    rewrite (handleAuth_rejects st now conn p rid local b Hb Hne).
    now rewrite Hlen, Nat.eqb_refl.
  - intros b Hb ->.
    destruct (handleAuth_accepts st now conn p rid local Hb)
      as (c & listed & statuses & st' & -> & _ & _ & _ & Hcl & _).
    eexists _, _. split; [reflexivity|]. split.
    + rewrite Hcl, lookup_insert_eq. eauto.
    + intros o Ho. apply elem_of_app in Ho as [Ho|Ho].
      * unfold RemoteServer.send in Ho.
        destruct (RemoteServer.is_open st' conn); [|inversion Ho].
        apply list_elem_of_singleton in Ho. subst o. split; discriminate.
      * apply list_elem_of_singleton in Ho. subst o. split; discriminate.
  - intros s Hs Hne.
    assert (Hb : Token.Buffer_from_value (RemoteServer.token p)
                 = Some (Token.Buffer_from s)) by now rewrite Hs.
    rewrite (handleAuth_rejects st now conn p rid local _ Hb)
      by (intros E; apply JsFacts.Buffer_from_inj in E; contradiction).
    cbn [fst snd]. split.
    + unfold RemoteServer.leave_open.
      destruct (RemoteServer.sockets st !! conn); reflexivity.
    + apply elem_of_app. right. apply list_elem_of_singleton. reflexivity.
  - intros Hnone.
    assert (Hthrow : RemoteServer.handleAuth st now conn p rid local
                     = (st, [], RemoteServer.Thrown))
      by (unfold RemoteServer.handleAuth; now rewrite Hnone).
    split; [exact Hthrow|].
    intros e sock Hsock. unfold RemoteServer.on_message. rewrite Hsock.
    unfold RemoteServer.handleMessage. cbn [RemoteServer.body
      RemoteServer.frame_requestId].
    unfold RemoteServer.handleAuth. rewrite Hnone. reflexivity.
Qed.

(** On the sample server, whose token is "c0ffee": a token one byte short
    is closed out by the length test alone; a token of the right length
    with its last byte changed goes through the comparator and is closed
    out as well. *)
Lemma C1_token_comparison_witness :
  RemoteServer.handleAuth Scenario.server1 5 "c1" Scenario.auth_short None false
  = (RemoteServer.leave_open Scenario.server1 "c1",
     [RemoteServer.WsClose "c1" 4003 "Invalid authentication token"],
     RemoteServer.Done)
  /\ RemoteServer.handleAuth Scenario.server1 5 "c1" Scenario.auth_wrong None
       false
     = (RemoteServer.leave_open Scenario.server1 "c1",
        [RemoteServer.CryptoCompare (Token.Buffer_from "c0ffee")
           (Token.Buffer_from "c0ffef");
         RemoteServer.WsClose "c1" 4003 "Invalid authentication token"],
        RemoteServer.Done).
Proof.
  pose proof (C1_token_comparison Scenario.server1 5 "c1"
                Scenario.auth_short None false) as (H1 & _).
  pose proof (C1_token_comparison Scenario.server1 5 "c1"
                Scenario.auth_wrong None false) as (_ & H2 & _).
  split.
  - apply (H1 (Token.Buffer_from "c0ffe")); [reflexivity|].
    vm_compute. discriminate.
  - apply (H2 (Token.Buffer_from "c0ffef")); [reflexivity | reflexivity |].
    vm_compute. discriminate.
Defined.

(** C2.  For every conversion [Number] that does on octets what
    JavaScript's does: in Tailscale mode a new connection from a peer
    address [p], as the socket reports it, is admitted if and only if [p],
    after stripping an optional ["::ffff:"] prefix, equals 127.0.0.1 or
    ::1, or is a dotted quad whose first octet is 100 and whose second
    octet is between 64 and 127 inclusive.  An admitted connection gets its
    listeners and its authentication timer; any other is closed with code
    4000 and gets no listener, so that no frame of it is ever processed.
    100.63.255.255 and 100.128.0.0 are rejected, 100.64.0.0 and
    100.127.255.255 are accepted.  When restrictToTailscale is false every
    origin is accepted. *)
Theorem C2_origin_filter :
  forall (Number : string -> option Q),
    Origin.converts_octets Number ->
    (forall p : string,
        PeerAddress.reported p ->
        (Origin.accepted (Origin.check_origin Number true (Some p)) = true
         <-> OriginSpec.claimed_admissible p)
        /\ (forall (st : RemoteServer.State) (now : Z) (conn : string),
               RemoteServer.restrictToTailscale st = true ->
               (OriginSpec.claimed_admissible p ->
                exists local,
                  RemoteServer.on_connection Number st now conn (Some p)
                  = (RemoteServer.set_sockets st
                       (<[conn := RemoteServer.mkSocket true local
                                    (Some (now + 10000))]>
                          (RemoteServer.sockets st)),
                     []))
               /\ (~ OriginSpec.claimed_admissible p ->
                   RemoteServer.on_connection Number st now conn (Some p)
                   = (st, [RemoteServer.WsClose conn 4000
                             "Connection not allowed from this address"])
                   /\ (RemoteServer.sockets st !! conn = None ->
                       forall e data,
                         RemoteServer.on_message st e conn data = (st, [])))))
    /\ (Origin.accepted (Origin.check_origin Number true (Some "100.63.255.255"))
        = false
        /\ Origin.accepted (Origin.check_origin Number true (Some "100.128.0.0"))
           = false
        /\ Origin.accepted (Origin.check_origin Number true (Some "100.64.0.0"))
           = true
        /\ Origin.accepted
             (Origin.check_origin Number true (Some "100.127.255.255"))
           = true)
    /\ (forall ip : option string,
           Origin.accepted (Origin.check_origin Number false ip) = true).
Proof.
  intros Number HN. split; [|split].
  - intros p Hp.
    pose proof (OriginFacts.verdict_on_reported Number p HN Hp) as Hiff.
    split; [exact Hiff|].
    intros st now conn Hrestrict. unfold RemoteServer.on_connection.
    rewrite Hrestrict. split.
    + intros Hadm. apply Hiff in Hadm.
      destruct (Origin.check_origin Number true (Some p)) as [local|code reason];
        [|discriminate].
      exists local. reflexivity.
    + intros Hnot.
      assert (Hrej : Origin.accepted
                       (Origin.check_origin Number true (Some p)) = false).
      { destruct (Origin.accepted _) eqn:E; [|reflexivity].
        exfalso. now apply Hnot, Hiff. }
      rewrite (OriginFacts.rejected_with_4000 _ _ _ Hrej). split; [reflexivity|].
      intros Hnone e data. unfold RemoteServer.on_message. now rewrite Hnone.
  - destruct (OriginFacts.boundary_addresses Number
                (OriginFacts.converts_reads_octets Number HN))
      as (H1 & H2 & H3 & H4).
    rewrite H1, H2, H3, H4. auto.
  - apply OriginFacts.unrestricted_accepts.
Qed.

(** At the decimal reader: the mapped CGNAT address ::ffff:100.100.1.2 is
    admitted, and the public address 192.0.2.1 is closed with 4000 on the
    sample server. *)
Lemma C2_origin_filter_witness :
  Origin.accepted
    (Origin.check_origin Origin.Number_decimal true (Some "::ffff:100.100.1.2"))
  = true
  /\ RemoteServer.on_connection Origin.Number_decimal Scenario.server0 0 "c9"
       (Some "192.0.2.1")
     = (Scenario.server0,
        [RemoteServer.WsClose "c9" 4000 "Connection not allowed from this address"]).
Proof.
  pose proof (C2_origin_filter Origin.Number_decimal
                OriginFacts.Number_decimal_converts) as (H & _).
  split.
  - assert (Hp : PeerAddress.reported
                   ("::ffff:" +:+ PeerAddress.dotted_quad 100 100 1 2))
      by (apply PeerAddress.reported_mapped; reflexivity).
    apply (proj1 (H _ Hp)). right. right.
    exists 100%N, 100%N, 1%N, 2%N.
    repeat split; try reflexivity; discriminate.
  - assert (Hp : PeerAddress.reported (PeerAddress.dotted_quad 192 0 2 1))
      by (apply PeerAddress.reported_IPv4; reflexivity).
    apply (proj2 (H _ Hp) Scenario.server0 0 "c9" eq_refl).
    intros [E | [E | E]]; try discriminate E.
    apply (OriginFacts.in_cgnat_dotted 192 0 2 1) in E;
      [destruct E as [E _]; discriminate E | reflexivity..].
Defined.

(** *** The handshake *)

Lemma restore_owned_spec (ownership : gmap string string) (device s : string) :
  s ∈ RemoteServer.restore_owned ownership device <-> ownership !! s = Some device.
Proof.
  unfold RemoteServer.restore_owned.
  apply (map_fold_weak_ind
           (fun (r : gset string) (m : gmap string string) =>
              s ∈ r <-> m !! s = Some device)).
  - rewrite lookup_empty. split; [intros H; inversion H | discriminate].
  - intros i x m r Hi IH. destruct (decide (i = s)) as [->|Hne].
    + rewrite lookup_insert_eq. case_bool_decide as Hx.
      * rewrite Hx. split; [reflexivity | intros _].
        apply elem_of_union_l, elem_of_singleton. reflexivity.
      * rewrite IH, Hi. split; [discriminate | congruence].
    + rewrite lookup_insert_ne by exact Hne.
      case_bool_decide; [|exact IH].
      rewrite <- IH, elem_of_union, elem_of_singleton. intuition congruence.
Qed.

Lemma elem_of_getAllSessions (pm : PTYManager.State) (s : PTYManager.PTYSession) :
  s ∈ PTYManager.getAllSessions pm
  <-> exists k, PTYManager.sessions pm !! k = Some s.
Proof.
  unfold PTYManager.getAllSessions. rewrite list_elem_of_fmap. split.
  - intros ([k v] & -> & Hin). exists k. now apply elem_of_map_to_list.
  - intros (k & Hk). exists (k, s). split; [reflexivity|].
    now apply elem_of_map_to_list.
Qed.

Lemma or_else_nonempty (a b : string) :
  a <> "" -> Js.or_else (Some a) b = a.
Proof.
  intros Ha. unfold Js.or_else.
  now rewrite (proj2 (JsFacts.truthy_true a) Ha).
Qed.

(** C3.  For every successful authentication on an open socket: the
    client registered for the connection carries as device id the
    presented one (the connection id stands in for an empty one, as
    [payload.clientId || clientId] has it); its [ownedSessions] holds
    exactly the session ids that the global ownership map attributes to
    that device id, and its [sessionSubscriptions] is that same set.  One
    frame is written to the socket, the auth/success reply, and the
    sessions it lists are, for a remote client, exactly the sessions of the
    pool whose id the ownership map attributes to the device id, and for a
    local client exactly the sessions of the pool. *)
Theorem C3_auth_restores_ownership :
  forall (st : RemoteServer.State) (now : Z) (conn : string)
         (p : RemoteServer.AuthPayload) (rid : option string) (local : bool),
    Token.Buffer_from_value (RemoteServer.token p)
    = Some (Token.Buffer_from (RemoteServer.authToken st)) ->
    RemoteServer.is_open st conn = true ->
    exists (c : RemoteServer.AuthenticatedClient)
           (listed : list PTYManager.PTYSession)
           (statuses : list ServiceManager.ServiceStatus)
           (st' : RemoteServer.State),
      RemoteServer.handleAuth st now conn p rid local
      = (st',
         [RemoteServer.CryptoCompare
            (Token.Buffer_from (RemoteServer.authToken st))
            (Token.Buffer_from (RemoteServer.authToken st));
          RemoteServer.WsSend conn
            (RemoteServer.mkMessage "auth" "success"
               (RemoteServer.P_auth_success conn listed statuses) rid);
          RemoteServer.EmitServer (RemoteServer.client_authenticated c)],
         RemoteServer.Done)
      /\ RemoteServer.clients st' !! conn = Some c
      /\ RemoteServer.deviceId c
         = Js.or_else (Some (RemoteServer.clientId p)) conn
      /\ (RemoteServer.clientId p <> "" ->
          RemoteServer.deviceId c = RemoteServer.clientId p)
      /\ RemoteServer.isLocal c = local
      /\ (forall s, s ∈ RemoteServer.ownedSessions c
                    <-> RemoteServer.sessionOwnership st !! s
                        = Some (RemoteServer.deviceId c))
      /\ RemoteServer.sessionSubscriptions c = RemoteServer.ownedSessions c
      /\ (forall s,
             s ∈ listed
             <-> (exists k,
                     PTYManager.sessions (RemoteServer.ptyManager st) !! k
                     = Some s)
                 /\ (local = true
                     \/ RemoteServer.sessionOwnership st !! PTYManager.id s
                        = Some (RemoteServer.deviceId c))).
Proof.
  intros st now conn p rid local Htok Hopen.
  destruct (handleAuth_accepts st now conn p rid local Htok)
    as (c & listed & statuses & st' & Heq & Hc & Hl & _ & Hcl & Hsock & _).
  assert (Hopen' : RemoteServer.is_open st' conn = true).
  { unfold RemoteServer.is_open. rewrite Hsock.
    fold (RemoteServer.is_open (RemoteServer.clear_authTimeout st conn) conn).
    now rewrite is_open_clear_authTimeout. }
  exists c, listed, statuses, st'. split.
  { rewrite Heq. unfold RemoteServer.send. now rewrite Hopen'. }
  split; [rewrite Hcl; apply lookup_insert_eq|].
  subst c. cbn [RemoteServer.deviceId RemoteServer.isLocal
                RemoteServer.ownedSessions RemoteServer.sessionSubscriptions].
  split; [reflexivity|].
  split; [intros Hne; now apply or_else_nonempty|].
  split; [reflexivity|].
  split; [intros s; apply restore_owned_spec|].
  split; [reflexivity|].
  intros s. subst listed. destruct local.
  - rewrite elem_of_getAllSessions. intuition.
  - rewrite list_elem_of_filter, elem_of_getAllSessions.
    intuition discriminate.
Qed.

(** The phone authenticates again on "c1" after it has created "s1": the
    session is back in both of its sets, and the reply written to "c1"
    lists it. *)
Lemma C3_auth_restores_ownership_witness :
  exists (c : RemoteServer.AuthenticatedClient)
         (listed : list PTYManager.PTYSession)
         (statuses : list ServiceManager.ServiceStatus),
    snd (fst (RemoteServer.handleAuth Scenario.server5 2000 "c1"
                Scenario.auth_phone None false))
    = [RemoteServer.CryptoCompare (Token.Buffer_from "c0ffee")
         (Token.Buffer_from "c0ffee");
       RemoteServer.WsSend "c1"
         (RemoteServer.mkMessage "auth" "success"
            (RemoteServer.P_auth_success "c1" listed statuses) None);
       RemoteServer.EmitServer (RemoteServer.client_authenticated c)]
    /\ RemoteServer.deviceId c = "phone"
    /\ "s1" ∈ RemoteServer.ownedSessions c
    /\ RemoteServer.sessionSubscriptions c = RemoteServer.ownedSessions c
    /\ Scenario2.desktop_session ∈ listed.
Proof.
  destruct (C3_auth_restores_ownership Scenario.server5 2000 "c1"
              Scenario.auth_phone None false eq_refl
              ltac:(vm_compute; reflexivity))
    as (c & listed & statuses & st' & Heq & _ & Hd & _ & _ & Ho & Hs & Hl).
  exists c, listed, statuses.
  split; [now rewrite Heq|]. split; [exact Hd|].
  split; [apply Ho; rewrite Hd; vm_compute; reflexivity|].
  split; [exact Hs|].
  apply Hl. split.
  - exists "s1". vm_compute. reflexivity.
  - right. rewrite Hd. vm_compute. reflexivity.
Defined.

(** *** The pool and the ownership map *)

Lemma listed_iff_live (st : RemoteServer.State) (sessionId : string) :
  Invariants.keyed_by_id (RemoteServer.ptyManager st) ->
  Invariants.listed st sessionId
  <-> is_Some (PTYManager.getSession (RemoteServer.ptyManager st) sessionId).
Proof.
  intros Hk. unfold Invariants.listed, PTYManager.getSession. split.
  - intros (s & Hin & Hid). apply elem_of_getAllSessions in Hin as (k & Hks).
    pose proof (Hk k s Hks) as Hkey. simpl in Hkey.
    exists s. congruence.
  - intros (s & Hs). exists s. split.
    + apply elem_of_getAllSessions. eauto.
    + exact (Hk _ _ Hs).
Qed.

Lemma matches_initial (token : string) (restrict : bool) (shell : string)
    (svc : ServiceManager.State) :
  Invariants.pool_matches_registry (RemoteServer.constructed token restrict shell svc).
Proof.
  split; simpl.
  - now rewrite !dom_empty_L.
  - apply map_Forall_empty.
Qed.

Lemma handleAuth_frame (st : RemoteServer.State) now conn p rid local :
  RemoteServer.ptyManager
    (fst (fst (RemoteServer.handleAuth st now conn p rid local)))
  = RemoteServer.ptyManager st
  /\ RemoteServer.sessionOwnership
       (fst (fst (RemoteServer.handleAuth st now conn p rid local)))
     = RemoteServer.sessionOwnership st.
Proof.
  unfold RemoteServer.handleAuth, RemoteServer.close_ws,
    RemoteServer.leave_open, RemoteServer.clear_authTimeout.
  destruct (Token.Buffer_from_value (RemoteServer.token p)) as [b|];
    [|auto].
  destruct (negb _);
    [|destruct (Token.timingSafeEqual _ b) as [[|]|]];
    destruct (RemoteServer.sockets st !! conn); simpl; auto.
Qed.

Lemma handleServiceMessage_frame (st : RemoteServer.State) now client a rid :
  RemoteServer.ptyManager
    (fst (fst (RemoteServer.handleServiceMessage st now client a rid)))
  = RemoteServer.ptyManager st
  /\ RemoteServer.sessionOwnership
       (fst (fst (RemoteServer.handleServiceMessage st now client a rid)))
     = RemoteServer.sessionOwnership st.
Proof.
  destruct a as [? ?| |i|i|?]; simpl; auto.
  unfold ServiceManager.getStatus.
  destruct (ServiceManager.services _ !! i); simpl; auto.
Qed.

Lemma handleSystemMessage_frame (st : RemoteServer.State) now client a rid :
  fst (fst (RemoteServer.handleSystemMessage st now client a rid)) = st.
Proof.
  unfold RemoteServer.handleSystemMessage.
  destruct (String.eqb a "ping"); [reflexivity|].
  destruct (String.eqb a "info"); reflexivity.
Qed.

Lemma createSession_cases (pm : PTYManager.State) (e : PTYManager.Env)
    (options : PTYManager.CreateOptions) :
  (exists s out,
      PTYManager.createSession pm e options
      = (Some s,
         PTYManager.set_sessions pm (<[PTYManager.uuid e := s]> (PTYManager.sessions pm)),
         out)
      /\ PTYManager.id s = PTYManager.uuid e)
  \/ PTYManager.createSession pm e options = (None, pm, []).
Proof.
  unfold PTYManager.createSession.
  destruct (PTYManager.spawn_ok e); [left | right; reflexivity].
  eexists _, _. split; reflexivity.
Qed.

Lemma handlePTYMessage_matches (st : RemoteServer.State) e client a rid :
  Invariants.pool_matches_registry st ->
  Invariants.pool_matches_registry
    (fst (fst (RemoteServer.handlePTYMessage st e client a rid))).
Proof.
  intros [Hdom Hkey].
  destruct a as [options|sid data|sid c r|sid|sid|sid| |other]; simpl.
  - destruct (createSession_cases (RemoteServer.ptyManager st) e options)
      as [(s & out & -> & Hid) | ->]; simpl; [|split; assumption].
    split; simpl.
    + rewrite Hid, !dom_insert_L. congruence.
    + apply map_Forall_insert_2; assumption.
  - destruct (negb _); simpl; split; assumption.
  - destruct (_ && _); [|split; assumption].
    destruct (negb _); [split; assumption|].
    unfold PTYManager.resize.
    destruct (PTYManager.sessions (RemoteServer.ptyManager st) !! sid)
      as [s|] eqn:Hs; simpl; [|split; assumption].
    split; simpl.
    + rewrite dom_insert_L, <- Hdom.
      apply elem_of_dom_2 in Hs.
      apply subseteq_union_1_L, singleton_subseteq_l, Hs.
    + apply map_Forall_insert_2; [|assumption]. simpl. exact (Hkey _ _ Hs).
  - destruct (negb _); [split; assumption|].
    unfold PTYManager.closeSession.
    destruct (PTYManager.sessions (RemoteServer.ptyManager st) !! sid)
      as [s|] eqn:Hs; simpl; split; simpl.
    + rewrite !dom_delete_L. congruence.
    + apply map_Forall_delete. assumption.
    + rewrite dom_delete_L, <- Hdom.
      apply not_elem_of_dom in Hs.
      symmetry. apply difference_disjoint_L, disjoint_singleton_r, Hs.
    + assumption.
  - destruct (_ && _); simpl; split; assumption.
  - split; assumption.
  - split; assumption.
  - split; assumption.
Qed.

Lemma on_message_matches (st : RemoteServer.State) e conn data :
  Invariants.pool_matches_registry st ->
  Invariants.pool_matches_registry (fst (RemoteServer.on_message st e conn data)).
Proof.
  intros Hinv. unfold RemoteServer.on_message.
  destruct (RemoteServer.sockets st !! conn) as [sock|]; [|exact Hinv].
  destruct data as [f|]; [|exact Hinv].
  assert (Hh : Invariants.pool_matches_registry
                 (fst (fst (RemoteServer.handleMessage st e conn f
                              (RemoteServer.sock_isLocal sock))))).
  { unfold RemoteServer.handleMessage.
    destruct (RemoteServer.body f) as [p|a|a|a|t].
    - pose proof (handleAuth_frame st (PTYManager.now e) conn p
                    (RemoteServer.frame_requestId f)
                    (RemoteServer.sock_isLocal sock)) as [Hp Ho].
      destruct Hinv as [Hdom Hkey]. split.
      + now rewrite Hp, Ho.
      + unfold Invariants.keyed_by_id. now rewrite Hp.
    - destruct (RemoteServer.clients st !! conn); [|exact Hinv].
      now apply handlePTYMessage_matches.
    - destruct (RemoteServer.clients st !! conn) as [client|]; [|exact Hinv].
      destruct (handleServiceMessage_frame st (PTYManager.now e) client a
                  (RemoteServer.frame_requestId f)) as [Hp Ho].
      destruct Hinv as [Hdom Hkey]. split.
      + now rewrite Hp, Ho.
      + unfold Invariants.keyed_by_id. now rewrite Hp.
    - destruct (RemoteServer.clients st !! conn) as [client|]; [|exact Hinv].
      now rewrite handleSystemMessage_frame.
    - destruct (RemoteServer.clients st !! conn); exact Hinv. }
  destruct (RemoteServer.handleMessage st e conn f _) as [[st' out] [|]];
    exact Hh.
Qed.

Lemma step_matches (Number : string -> option Q) (st st' : RemoteServer.State) :
  RemoteServer.step Number st st' ->
  Invariants.pool_matches_registry st ->
  Invariants.pool_matches_registry st'.
Proof.
  intros Hstep Hinv. destruct Hstep.
  - unfold RemoteServer.on_connection.
    destruct (Origin.check_origin _ _ _); exact Hinv.
  - now apply on_message_matches.
  - unfold RemoteServer.on_peer_closing, RemoteServer.leave_open.
    destruct (RemoteServer.sockets st !! conn); exact Hinv.
  - unfold RemoteServer.on_close.
    destruct (RemoteServer.sockets st !! conn); [|exact Hinv]. simpl.
    destruct (RemoteServer.clients st !! conn); exact Hinv.
  - unfold RemoteServer.on_auth_timeout, RemoteServer.clear_authTimeout,
      RemoteServer.close_ws, RemoteServer.leave_open.
    destruct (RemoteServer.sockets st !! conn) as [s|] eqn:Hs; [|exact Hinv].
    destruct (RemoteServer.authTimeout s); [|exact Hinv].
    destruct (_ <=? _); [|exact Hinv]. simpl.
    destruct (RemoteServer.clients st !! conn); [exact Hinv|]. simpl.
    rewrite lookup_insert_eq. exact Hinv.
  - destruct Hinv as [Hdom Hkey]. split; simpl.
    + rewrite !dom_delete_L. congruence.
    + apply map_Forall_delete. exact Hkey.
  - exact Hinv.
Qed.

Lemma reachable_matches (Number : string -> option Q) (st : RemoteServer.State) :
  RemoteServer.reachable Number st -> Invariants.pool_matches_registry st.
Proof.
  induction 1 as [token restrict shell svc | st st' _ IH Hstep].
  - apply matches_initial.
  - exact (step_matches Number st st' Hstep IH).
Qed.

(** C4, as stated, fails: a session created through the desktop IPC
    handler ['create-session'] is listed by the pool and has no owner in
    the ownership map. *)
Lemma C4_counterexample :
  RemoteServer.reachable_with_desktop Origin.Number_decimal Scenario.desktop1
  /\ Invariants.listed Scenario.desktop1 "s1"
  /\ RemoteServer.sessionOwnership Scenario.desktop1 !! "s1" = None.
Proof.
  split; [|split].
  - apply RemoteServer.desktop_create, RemoteServer.desktop_initial.
  - eexists. split; [apply elem_of_getAllSessions; exists "s1"|];
      vm_compute; reflexivity.
  - reflexivity.
Qed.

(** C4, amended.  At every state the gateway reaches through the network
    alone (connections, frames, socket closes, the authentication timer,
    PTY exits, moves of the supervisor), a session id is listed by the pool
    if and only if the ownership map records an owner for it.  The desktop
    IPC handler ['create-session'] adds a session to the pool and leaves
    the ownership map as it is. *)
Theorem C4_owner_iff_listed :
  forall (Number : string -> option Q) (st : RemoteServer.State),
    RemoteServer.reachable Number st ->
    (forall s : string,
        Invariants.listed st s
        <-> is_Some (RemoteServer.sessionOwnership st !! s))
    /\ (forall e options,
           RemoteServer.sessionOwnership
             (fst (RemoteServer.ipc_create_session st e options))
           = RemoteServer.sessionOwnership st).
Proof.
  intros Number st Hreach.
  destruct (reachable_matches Number st Hreach) as [Hdom Hkey]. split.
  - intros s. rewrite (listed_iff_live st s Hkey).
    unfold PTYManager.getSession.
    rewrite <- !elem_of_dom, Hdom. reflexivity.
  - intros e options. unfold RemoteServer.ipc_create_session.
    destruct (PTYManager.createSession _ e options) as [[r pm] out].
    reflexivity.
Qed.

Lemma server5_reachable :
  RemoteServer.reachable Origin.Number_decimal Scenario.server5.
Proof.
  unfold Scenario.server5.
  eapply RemoteServer.reachable_step; [|apply RemoteServer.step_message].
  unfold Scenario.server4.
  eapply RemoteServer.reachable_step; [|apply RemoteServer.step_message].
  unfold Scenario.server3.
  eapply RemoteServer.reachable_step; [|apply RemoteServer.step_message].
  unfold Scenario.server2.
  eapply RemoteServer.reachable_step; [|apply RemoteServer.step_connection].
  unfold Scenario.server1.
  eapply RemoteServer.reachable_step; [|apply RemoteServer.step_connection].
  apply RemoteServer.reachable_initial.
Defined.

(** After two peers have connected and authenticated and one of them has
    created "s1", the session is listed and owned. *)
Lemma C4_owner_iff_listed_witness :
  (Invariants.listed Scenario.server5 "s1"
   <-> is_Some (RemoteServer.sessionOwnership Scenario.server5 !! "s1"))
  /\ RemoteServer.sessionOwnership Scenario.server5 !! "s1" = Some "phone".
Proof.
  split.
  - apply (proj1 (C4_owner_iff_listed Origin.Number_decimal Scenario.server5
                    server5_reachable)).
  - vm_compute. reflexivity.
Defined.

(** *** Frames that name a session which is not live *)

Lemma set_ptyManager_same (st : RemoteServer.State) :
  RemoteServer.set_ptyManager st (RemoteServer.ptyManager st) = st.
Proof. destruct st; reflexivity. Qed.

(** C5, as stated, fails: a remote client that neither owns nor is
    subscribed to the id "ghost", which is no live session, sends a write
    frame naming it and is answered with a system/error frame. *)
Lemma C5_counterexample :
  PTYManager.getSession (RemoteServer.ptyManager Scenario.server4) "ghost" = None
  /\ is_Some (RemoteServer.clients Scenario.server4 !! "c1")
  /\ RemoteServer.on_message Scenario.server4 Scenario.env0 "c1"
       (Scenario.frame (RemoteServer.Pty (RemoteServer.PtyWrite "ghost" "ls")))
     = (Scenario.server4,
        [RemoteServer.WsSend "c1"
           (RemoteServer.mkMessage "system" "error"
              (RemoteServer.P_error
                 "Access denied: You don't have permission to write to session ghost")
              None)]).
Proof.
  split; [reflexivity | split].
  - eexists. vm_compute. reflexivity.
  - vm_compute. reflexivity.
Qed.

(** C5, amended.  For a client and a session id that is not live:
    a write frame, and a resize frame, is a silent no-op (nothing sent,
    nothing changed) when the client may access the id, that is when it is
    local or holds the id in its owned or subscribed set; otherwise the
    write frame, and a resize frame whose three fields are truthy, is
    answered with a system/error "Access denied" frame and changes
    nothing.  A subscribe frame from a remote client naming an id that the
    ownership map does not attribute to its device, which is the case for
    every id that is not live at every state the gateway reaches through
    the network alone, is answered with a system/error frame and changes
    nothing; from a local client it is not answered and the id joins the
    client's subscription set. *)
Theorem C5_unknown_session :
  forall (Number : string -> option Q) (st : RemoteServer.State)
         (e : PTYManager.Env) (client : RemoteServer.AuthenticatedClient)
         (sid : string) (rid : option string),
    PTYManager.getSession (RemoteServer.ptyManager st) sid = None ->
    (forall data,
        RemoteServer.handlePTYMessage st e client
          (RemoteServer.PtyWrite sid data) rid
        = (st,
           if RemoteServer.canAccessSession client sid then []
           else RemoteServer.sendError st (RemoteServer.ws client)
                  (RemoteServer.access_denied "write to" sid),
           RemoteServer.Done))
    /\ (forall c r,
           RemoteServer.handlePTYMessage st e client
             (RemoteServer.PtyResize sid c r) rid
           = (st,
              if Js.truthy sid && Js.truthy_num c && Js.truthy_num r
                 && negb (RemoteServer.canAccessSession client sid)
              then RemoteServer.sendError st (RemoteServer.ws client)
                     (RemoteServer.access_denied "resize" sid)
              else [],
              RemoteServer.Done))
    /\ (RemoteServer.isLocal client = false ->
        RemoteServer.sessionOwnership st !! sid
        <> Some (RemoteServer.deviceId client) ->
        RemoteServer.handlePTYMessage st e client (RemoteServer.PtySubscribe sid) rid
        = (st,
           RemoteServer.sendError st (RemoteServer.ws client)
             ("Access denied: You don't own session " +:+ sid),
           RemoteServer.Done))
    /\ (RemoteServer.reachable Number st ->
        RemoteServer.sessionOwnership st !! sid = None)
    /\ (RemoteServer.isLocal client = true ->
        exists client',
          RemoteServer.handlePTYMessage st e client
            (RemoteServer.PtySubscribe sid) rid
          = (RemoteServer.update_client st client', [], RemoteServer.Done)
          /\ RemoteServer.sessionSubscriptions client'
             = {[sid]} ∪ RemoteServer.sessionSubscriptions client).
Proof.
  intros Number st e client sid rid Hdead.
  unfold PTYManager.getSession in Hdead.
  split; [|split; [|split; [|split]]].
  - intros data. simpl. unfold PTYManager.write. rewrite Hdead.
    destruct (RemoteServer.canAccessSession client sid); reflexivity.
  - intros c r. simpl. unfold PTYManager.resize. rewrite Hdead.
    destruct (Js.truthy sid && Js.truthy_num c && Js.truthy_num r);
      [|reflexivity].
    destruct (RemoteServer.canAccessSession client sid); simpl;
      [|reflexivity].
    now rewrite set_ptyManager_same.
  - intros Hremote Hown. simpl. rewrite Hremote.
    rewrite bool_decide_eq_false_2 by exact Hown. reflexivity.
  - intros Hreach. destruct (reachable_matches Number st Hreach) as [Hdom _].
    apply not_elem_of_dom. rewrite <- Hdom. now apply not_elem_of_dom.
  - intros Hlocal. simpl. rewrite Hlocal. simpl.
    eexists. split; [reflexivity|].
    case_bool_decide; reflexivity.
Qed.

(** On the sample server, where "ghost" is no session: the laptop on the
    loopback writes to it and nothing happens; the remote phone subscribes
    to it and is refused. *)
Lemma C5_unknown_session_witness :
  RemoteServer.on_message Scenario.server4 Scenario.env0 "c2"
    (Scenario.frame (RemoteServer.Pty (RemoteServer.PtyWrite "ghost" "ls")))
  = (Scenario.server4, [])
  /\ RemoteServer.clients Scenario.server4 !! "c1" = Some Scenario.phone
  /\ RemoteServer.handlePTYMessage Scenario.server4 Scenario.env0 Scenario.phone
       (RemoteServer.PtySubscribe "ghost") None
     = (Scenario.server4,
        [RemoteServer.WsSend "c1"
           (RemoteServer.mkMessage "system" "error"
              (RemoteServer.P_error "Access denied: You don't own session ghost")
              None)],
        RemoteServer.Done).
Proof.
  split; [vm_compute; reflexivity|]. split; [vm_compute; reflexivity|].
  destruct (C5_unknown_session Origin.Number_decimal Scenario.server4
              Scenario.env0 Scenario.phone "ghost" None eq_refl)
    as (_ & _ & Hsub & _).
  rewrite Hsub; [reflexivity | reflexivity | vm_compute; discriminate].
Defined.

(** *** Fan-out *)

(** Who a loop over [clients.values()] with a guarded [send] writes to. *)
Lemma elem_of_guarded_broadcast (st : RemoteServer.State)
    (guard : RemoteServer.AuthenticatedClient -> bool)
    (m : RemoteServer.RemoteMessage) (o : RemoteServer.Output) :
  o ∈ mjoin ((fun c => if guard c then RemoteServer.send st (RemoteServer.ws c) m
                       else [])
             <$> (map_to_list (RemoteServer.clients st)).*2)
  <-> exists k c,
        RemoteServer.clients st !! k = Some c
        /\ guard c = true
        /\ RemoteServer.is_open st (RemoteServer.ws c) = true
        /\ o = RemoteServer.WsSend (RemoteServer.ws c) m.
Proof.
  rewrite list_elem_of_join. split.
  - intros (l & Ho & Hl).
    apply list_elem_of_fmap in Hl as (c & -> & Hc).
    apply list_elem_of_fmap in Hc as ([k c'] & -> & Hkc).
    apply elem_of_map_to_list in Hkc. simpl in *.
    exists k, c'. unfold RemoteServer.send in Ho.
    destruct (guard c'); [|inversion Ho].
    destruct (RemoteServer.is_open st (RemoteServer.ws c')); [|inversion Ho].
    apply list_elem_of_singleton in Ho. auto.
  - intros (k & c & Hk & Hg & Hopen & ->).
    exists [RemoteServer.WsSend (RemoteServer.ws c) m]. split.
    + apply list_elem_of_singleton. reflexivity.
    + apply list_elem_of_fmap. exists c. split.
      * unfold RemoteServer.send. now rewrite Hg, Hopen.
      * apply list_elem_of_fmap. exists (k, c). split; [reflexivity|].
        now apply elem_of_map_to_list.
Qed.

(** C7.  Fan-out follows the subscriptions.  A frame is written for a pty
    data event exactly to the sockets of the authenticated clients whose
    [sessionSubscriptions] holds the session id; for a service status
    event to the socket of every authenticated client, whatever its
    subscriptions; for a service output event exactly to the sockets of the
    authenticated clients whose [serviceSubscriptions] holds the service
    id.  In all three cases [send] writes to a socket only while it is
    open. *)
Theorem C7_fanout :
  forall (st : RemoteServer.State) (o : RemoteServer.Output),
    (forall sessionId data,
        o ∈ RemoteServer.on_pty_data st sessionId data
        <-> exists k c,
              RemoteServer.clients st !! k = Some c
              /\ sessionId ∈ RemoteServer.sessionSubscriptions c
              /\ RemoteServer.is_open st (RemoteServer.ws c) = true
              /\ o = RemoteServer.WsSend (RemoteServer.ws c)
                       (RemoteServer.mkMessage "pty" "data"
                          (RemoteServer.P_data sessionId data) None))
    /\ (forall status,
           o ∈ RemoteServer.on_service_event st
                 (ServiceManager.service_status status)
           <-> exists k c,
                 RemoteServer.clients st !! k = Some c
                 /\ RemoteServer.is_open st (RemoteServer.ws c) = true
                 /\ o = RemoteServer.WsSend (RemoteServer.ws c)
                          (RemoteServer.mkMessage "service" "status"
                             (RemoteServer.P_service_status status) None))
    /\ (forall serviceId stream data,
           o ∈ RemoteServer.on_service_event st
                 (ServiceManager.service_output serviceId stream data)
           <-> exists k c,
                 RemoteServer.clients st !! k = Some c
                 /\ serviceId ∈ RemoteServer.serviceSubscriptions c
                 /\ RemoteServer.is_open st (RemoteServer.ws c) = true
                 /\ o = RemoteServer.WsSend (RemoteServer.ws c)
                          (RemoteServer.mkMessage "service" "output"
                             (RemoteServer.P_service_output serviceId stream data)
                             None)).
Proof.
  intros st o. split; [|split].
  - intros sessionId data.
    unfold RemoteServer.on_pty_data, RemoteServer.broadcastToSubscribers.
    rewrite (elem_of_guarded_broadcast st
               (fun c => bool_decide (sessionId ∈ RemoteServer.sessionSubscriptions c))).
    split; intros (k & c & Hk & Hg & H); exists k, c;
      (split; [exact Hk|]); (split; [|exact H]).
    + now apply bool_decide_eq_true in Hg.
    + now apply bool_decide_eq_true.
  - intros status. simpl. unfold RemoteServer.broadcast.
    rewrite (elem_of_guarded_broadcast st (fun _ => true)).
    split; intros (k & c & H); exists k, c; intuition.
  - intros serviceId stream data. simpl.
    unfold RemoteServer.broadcastToServiceSubscribers.
    rewrite (elem_of_guarded_broadcast st
               (fun c => bool_decide (serviceId ∈ RemoteServer.serviceSubscriptions c))).
    split; intros (k & c & Hk & Hg & H); exists k, c;
      (split; [exact Hk|]); (split; [|exact H]).
    + now apply bool_decide_eq_true in Hg.
    + now apply bool_decide_eq_true.
Qed.

End GatewayFacts.

(** ** The service supervisor *)

Module ServiceFacts.

Lemma stop_listener_timers (i : string) (acc : ServiceManager.State * list ServiceManager.Output) :
  ServiceManager.timers (fst (ServiceManager.stop_listener i acc))
  = ServiceManager.timers (fst acc).
Proof.
  destruct acc as [st out]. unfold ServiceManager.stop_listener.
  destruct (ServiceManager.services st !! i); reflexivity.
Qed.

Lemma stop_listeners_timers (n : nat) (i : string)
    (acc : ServiceManager.State * list ServiceManager.Output) :
  ServiceManager.timers (fst (Nat.iter n (ServiceManager.stop_listener i) acc))
  = ServiceManager.timers (fst acc).
Proof.
  induction n as [|n IH]; simpl; [reflexivity|].
  now rewrite stop_listener_timers.
Qed.

(** [stopService] removes no timer: it leaves the list alone or appends
    its own SIGKILL timer. *)
Lemma stopService_keeps_timers (st : ServiceManager.State) (now : Z) (i : string) :
  ServiceManager.timers (fst (ServiceManager.stopService st now i))
  = ServiceManager.timers st
  \/ exists h,
      ServiceManager.timers (fst (ServiceManager.stopService st now i))
      = ServiceManager.timers st ++ [(now + 10000, ServiceManager.KillTimer i h)].
Proof.
  unfold ServiceManager.stopService.
  destruct (ServiceManager.services st !! i) as [service|]; [|now left].
  destruct (ServiceManager.process service) as [h|]; [|now left].
  right. exists h. reflexivity.
Qed.

(** C6, as stated, fails: the worker crashes with exit code 1, so that a
    restart is pending for time 7000; a stop requested at 3000 finds no
    process, returns at once and leaves the pending restart in place; when
    the timer fires the service is spawned again and is running. *)
Lemma C6_counterexample :
  ServiceManager.timers Scenario.crashed
  = [(7000, ServiceManager.RestartTimer "worker")]
  /\ ServiceManager.stopService Scenario.crashed 3000 "worker"
     = (Scenario.crashed, [])
  /\ ServiceManager.timers Scenario.stop_requested
     = [(7000, ServiceManager.RestartTimer "worker")]
  /\ (ServiceManager.status ∘ ServiceManager.svc_status
      <$> ServiceManager.services Scenario.stop_requested !! "worker")
     = Some ServiceManager.stopped
  /\ (ServiceManager.status ∘ ServiceManager.svc_status
      <$> ServiceManager.services Scenario.respawned !! "worker")
     = Some ServiceManager.running
  /\ (ServiceManager.process
      <$> ServiceManager.services Scenario.respawned !! "worker")
     = Some (Some 1%nat).
Proof. repeat split; vm_compute; reflexivity. Qed.

(** The same for a stop in flight: the worker is running when the stop is
    requested; the exit that the SIGTERM causes carries no exit code, so the
    exit listener schedules a restart, and the stopped service runs again
    once that timer fires. *)
Lemma stop_in_flight_is_followed_by_restart :
  ServiceManager.stopService Scenario.sup2 3000 "worker"
  = (Scenario.stopping, [ServiceManager.Kill 0 "SIGTERM"])
  /\ ServiceManager.timers Scenario.terminated
     = [(13000, ServiceManager.KillTimer "worker" 0);
        (8100, ServiceManager.RestartTimer "worker")]
  /\ (ServiceManager.status ∘ ServiceManager.svc_status
      <$> ServiceManager.services Scenario.terminated !! "worker")
     = Some ServiceManager.stopped
  /\ (ServiceManager.status ∘ ServiceManager.svc_status
      <$> ServiceManager.services Scenario.restarted !! "worker")
     = Some ServiceManager.running.
Proof. repeat split; vm_compute; reflexivity. Qed.

(** C6, amended.  For every service registered with restartOnFailure true:
    when its child exits with an exit code other than 0 (a child killed
    by a signal reports no code and counts as such), the supervisor
    schedules exactly one restart, due 5 seconds later.  A stop operation
    cancels nothing: whatever timers are pending before [stopService] are
    pending after it, and when a pending restart fires it runs
    [startService] on the service. *)
Theorem C6_restart_scheduling :
  forall (st : ServiceManager.State) (now : Z) (h : nat)
         (c : ServiceManager.Child) (service : ServiceManager.ManagedService)
         (code : option Z) (signal : option string),
    ServiceManager.children st !! h = Some c ->
    ServiceManager.exited c = false ->
    ServiceManager.services st !! ServiceManager.child_service c = Some service ->
    ServiceManager.restartOnFailure (ServiceManager.config service) = true ->
    code <> Some 0 ->
    ServiceManager.timers (fst (ServiceManager.on_child_exit st now h code signal))
    = ServiceManager.timers st
      ++ [(now + 5000, ServiceManager.RestartTimer (ServiceManager.child_service c))]
    /\ (forall (st' : ServiceManager.State) (now' : Z) (i : string),
           exists later,
             ServiceManager.timers (fst (ServiceManager.stopService st' now' i))
             = ServiceManager.timers st' ++ later
             /\ forall t, t ∈ later -> exists h', t = (now' + 10000, ServiceManager.KillTimer i h'))
    /\ (forall (st' : ServiceManager.State) (now' : Z)
               (sp : ServiceManager.SpawnResult) (i : string),
           ServiceManager.run_timer st' now' sp (ServiceManager.RestartTimer i)
           = (fst (fst (ServiceManager.startService st' now' sp i)),
              snd (fst (ServiceManager.startService st' now' sp i)))).
Proof.
  intros st now h c service code signal Hc Hex Hs Hr Hcode.
  split; [|split].
  - unfold ServiceManager.on_child_exit. rewrite Hc. simpl.
    rewrite Hs, Hr. simpl.
    assert (ServiceManager.code_not_zero code = true) as ->.
    { destruct code as [[| |]|]; simpl; congruence. }
    rewrite stop_listeners_timers. reflexivity.
  - intros st' now' i.
    destruct (stopService_keeps_timers st' now' i) as [-> | (h' & ->)].
    + exists []. rewrite app_nil_r. split; [reflexivity|].
      intros t Ht. inversion Ht.
    + eexists. split; [reflexivity|].
      intros t Ht. apply list_elem_of_singleton in Ht. eauto.
  - intros st' now' sp i. simpl.
    destruct (ServiceManager.startService st' now' sp i) as [[s o] r].
    reflexivity.
Qed.

(** The worker of the sample supervisor crashes with code 1 at time 2000:
    one restart is pending, due at 7000. *)
Lemma C6_restart_scheduling_witness :
  ServiceManager.timers
    (fst (ServiceManager.on_child_exit Scenario.sup2 2000 0 (Some 1) None))
  = ServiceManager.timers Scenario.sup2
    ++ [(2000 + 5000, ServiceManager.RestartTimer "worker")].
Proof.
  refine (proj1 (C6_restart_scheduling Scenario.sup2 2000 0
                   (ServiceManager.mkChild "worker" 0 false)
                   (ServiceManager.mkService Scenario.worker (Some 0%nat)
                      (ServiceManager.mkStatus "worker" "Worker"
                         ServiceManager.running (Some 42) None None)
                      (Some 1000))
                   (Some 1) None _ _ _ _ _)).
  - vm_compute. reflexivity.
  - reflexivity.
  - vm_compute. reflexivity.
  - reflexivity.
  - discriminate.
Defined.

(** A service that is running has a start time. *)
Lemma getStatus_running (st : ServiceManager.State) (now : Z) (i : string)
    (service : ServiceManager.ManagedService) (t : Z) :
  ServiceManager.services st !! i = Some service ->
  ServiceManager.startTime service = Some t ->
  t <> 0 ->
  exists s, fst (ServiceManager.getStatus st now i) = Some s
            /\ ServiceManager.uptime s = Some (now - t)
            /\ ServiceManager.status s
               = ServiceManager.status (ServiceManager.svc_status service).
Proof.
  intros Hs Ht Hne. unfold ServiceManager.getStatus, ServiceManager.refresh.
  rewrite Hs, Ht. destruct (Z.eqb_spec t 0); [contradiction|].
  eexists. split; [reflexivity|]. split; reflexivity.
Qed.

Lemma stop_listeners_keep_uptime (n : nat) (i : string) (u : option Z) :
  forall acc : ServiceManager.State * list ServiceManager.Output,
    (exists service,
        ServiceManager.services (fst acc) !! i = Some service
        /\ ServiceManager.uptime (ServiceManager.svc_status service) = u
        /\ ServiceManager.status (ServiceManager.svc_status service)
           = ServiceManager.stopped
        /\ ServiceManager.startTime service = None) ->
    exists service,
      ServiceManager.services
        (fst (Nat.iter n (ServiceManager.stop_listener i) acc)) !! i
      = Some service
      /\ ServiceManager.uptime (ServiceManager.svc_status service) = u
      /\ ServiceManager.status (ServiceManager.svc_status service)
         = ServiceManager.stopped
      /\ ServiceManager.startTime service = None.
Proof.
  induction n as [|n IH]; intros acc Hacc; simpl; [exact Hacc|].
  destruct (IH acc Hacc) as (service & Hs & Hu & _ & Ht).
  destruct (Nat.iter n (ServiceManager.stop_listener i) acc) as [st out].
  simpl in *. rewrite Hs. simpl. rewrite lookup_insert_eq.
  eexists. split; [reflexivity|]. split; [exact Hu|].
  split; [reflexivity | exact Ht].
Qed.

(** Whatever [uptime] the status object of a service holds when its child
    exits is what a query on the state the exit leaves reports, at whatever
    time, although the service is stopped and has no start time. *)
Lemma uptime_survives_exit (st : ServiceManager.State) (now now' : Z) (h : nat)
    (c : ServiceManager.Child) (service : ServiceManager.ManagedService)
    (code : option Z) (signal : option string) :
  ServiceManager.children st !! h = Some c ->
  ServiceManager.exited c = false ->
  ServiceManager.services st !! ServiceManager.child_service c = Some service ->
  exists s,
    fst (ServiceManager.getStatus
           (fst (ServiceManager.on_child_exit st now h code signal)) now'
           (ServiceManager.child_service c)) = Some s
    /\ ServiceManager.status s = ServiceManager.stopped
    /\ ServiceManager.uptime s
       = ServiceManager.uptime (ServiceManager.svc_status service).
Proof.
  intros Hc Hex Hs. unfold ServiceManager.on_child_exit.
  rewrite Hc. simpl. rewrite Hs.
  match goal with
  | |- context [Nat.iter ?n ?f ?acc] =>
      destruct (stop_listeners_keep_uptime n (ServiceManager.child_service c)
                  (ServiceManager.uptime (ServiceManager.svc_status service)) acc)
        as (service' & Hs' & Hu & Hst & Ht)
  end.
  { exists (ServiceManager.mkService (ServiceManager.config service) None
              (ServiceManager.with_status (ServiceManager.svc_status service)
                 ServiceManager.stopped) None).
    split; [|repeat split].
    destruct (_ && _); simpl; apply lookup_insert_eq. }
  unfold ServiceManager.getStatus, ServiceManager.refresh.
  rewrite Hs', Ht. eexists. split; [reflexivity|]. split; assumption.
Qed.

(** C8, evaluated on the failing input.  The worker is started at 1000;
    a status query at 1500 reports the uptime 500 and stores it in the
    status object; the child exits at 1800; the query at 2000 reports the
    service as stopped, with the stored uptime 500 instead of none. *)
Theorem C8_stale_uptime_after_exit :
  (ServiceManager.uptime <$> fst (ServiceManager.getStatus Scenario.sup2 1500 "worker"))
  = Some (Some 500)
  /\ (ServiceManager.status <$> fst (ServiceManager.getStatus Scenario.sup4 2000 "worker"))
     = Some ServiceManager.stopped
  /\ (ServiceManager.startTime <$> ServiceManager.services Scenario.sup4 !! "worker")
     = Some None
  /\ (ServiceManager.uptime <$> fst (ServiceManager.getStatus Scenario.sup4 2000 "worker"))
     = Some (Some 500).
Proof. repeat split; vm_compute; reflexivity. Qed.

(** C10.  Starting a service that is in the running state is a no-op:
    [startService] returns normally, the state of the supervisor is the
    one before the call (no child is spawned, and the status, start time
    and pid of the service are unchanged), and nothing is emitted. *)
Theorem C10_start_running_is_noop :
  forall (st : ServiceManager.State) (now : Z) (sp : ServiceManager.SpawnResult)
         (i : string) (service : ServiceManager.ManagedService),
    ServiceManager.services st !! i = Some service ->
    ServiceManager.status (ServiceManager.svc_status service)
    = ServiceManager.running ->
    ServiceManager.startService st now sp i = (st, [], ServiceManager.Ok).
Proof.
  intros st now sp i service Hs Hrun. unfold ServiceManager.startService.
  now rewrite Hs, Hrun.
Qed.

(** The running worker is started again at 1200, with a spawn that would
    succeed: nothing happens. *)
Lemma C10_start_running_is_noop_witness :
  ServiceManager.startService Scenario.sup2 1200
    (ServiceManager.Spawned (Some 43)) "worker"
  = (Scenario.sup2, [], ServiceManager.Ok).
Proof.
  refine (C10_start_running_is_noop Scenario.sup2 1200
            (ServiceManager.Spawned (Some 43)) "worker"
            (ServiceManager.mkService Scenario.worker (Some 0%nat)
               (ServiceManager.mkStatus "worker" "Worker"
                  ServiceManager.running (Some 42) None None)
               (Some 1000)) _ _).
  - vm_compute. reflexivity.
  - reflexivity.
Defined.

End ServiceFacts.

(** ** The client SDK *)

Module ClientFacts.

(** C9, as stated, fails: [request] takes no duration from its caller, and
    the timer it arms is due 10 seconds after the call, not 30: a request
    made at time 0 and still unanswered at time 10000 is rejected then. *)
Lemma C9_counterexample :
  AgentClient.timers
    (fst (AgentClient.request Scenario.idle_client 0 "r1" Scenario.list_request))
  = [(10000, "r1")]
  /\ 10000 < AgentClient.spec_default_timeout
  /\ AgentClient.fire_request_timer
       (fst (AgentClient.request Scenario.idle_client 0 "r1" Scenario.list_request))
       10000 0
     = (Scenario.idle_client, [AgentClient.Rejected "r1" "Request timed out"]).
Proof. repeat split; vm_compute; reflexivity. Qed.

(** C9, amended.  In the client SDK of the editor extension every
    request/response call arms a timer due a fixed 10 seconds after the
    call (the caller cannot choose the duration) and records the request as
    pending.  When that timer fires while the request is still pending,
    the request is rejected with the error "Request timed out" and removed
    from the pending-request map; before the timer is due it does
    nothing. *)
Theorem C9_request_timeout :
  forall (st : AgentClient.State) (now : Z) (rid : string)
         (m : AgentClient.RemoteMessage),
    AgentClient.timers (fst (AgentClient.request st now rid m))
    = AgentClient.timers st ++ [(now + 10000, rid)]
    /\ rid ∈ AgentClient.pendingRequests (fst (AgentClient.request st now rid m))
    /\ (forall (st' : AgentClient.State) (now' : Z) (k : nat),
           AgentClient.timers st' !! k = Some (now + 10000, rid) ->
           rid ∈ AgentClient.pendingRequests st' ->
           (now + 10000 <= now' ->
            snd (AgentClient.fire_request_timer st' now' k)
            = [AgentClient.Rejected rid "Request timed out"]
            /\ AgentClient.pendingRequests (fst (AgentClient.fire_request_timer st' now' k))
               = AgentClient.pendingRequests st' ∖ {[rid]}
            /\ AgentClient.timers (fst (AgentClient.fire_request_timer st' now' k))
               = delete k (AgentClient.timers st'))
           /\ (now' < now + 10000 ->
               AgentClient.fire_request_timer st' now' k = (st', []))).
Proof.
  intros st now rid m. split; [reflexivity|]. split.
  - simpl. apply elem_of_union_l, elem_of_singleton. reflexivity.
  - intros st' now' k Hk Hp. unfold AgentClient.fire_request_timer. rewrite Hk.
    split; intros Hdue.
    + rewrite (proj2 (Z.leb_le _ _) Hdue).
      unfold AgentClient.on_timeout. simpl.
      rewrite bool_decide_eq_true_2 by exact Hp. simpl. auto.
    + rewrite (proj2 (Z.leb_gt _ _) Hdue). reflexivity.
Qed.

(** A request made at time 0 by the idle client: pending until 10000,
    untouched at 9999. *)
Lemma C9_request_timeout_witness :
  AgentClient.timers
    (fst (AgentClient.request Scenario.idle_client 0 "r1" Scenario.list_request))
  = [(0 + 10000, "r1")]
  /\ AgentClient.fire_request_timer
       (fst (AgentClient.request Scenario.idle_client 0 "r1" Scenario.list_request))
       9999 0
     = (fst (AgentClient.request Scenario.idle_client 0 "r1" Scenario.list_request),
        []).
Proof.
  destruct (C9_request_timeout Scenario.idle_client 0 "r1" Scenario.list_request)
    as (H1 & _ & H3).
  split; [exact H1|].
  apply (H3 _ 9999 0%nat); [reflexivity | vm_compute; reflexivity | lia].
Defined.

End ClientFacts.

(** ** The PTY pool *)

Module PoolFacts.

Lemma isValidCwd_spec (c : string) :
  PTYManager.isValidCwd c = true
  <-> Js.startsWith c "/" = true /\ Js.includes c ".." = false.
Proof.
  unfold PTYManager.isValidCwd.
  destruct (Js.includes c ".."); split; intuition congruence.
Qed.

Lemma or_else_cases (a : option string) (b : string) :
  (Js.truthy_opt a = true /\ a = Some (Js.or_else a b))
  \/ (Js.truthy_opt a = false /\ Js.or_else a b = b).
Proof.
  destruct a as [x|]; simpl; [|now right].
  destruct (Js.truthy x); [now left | now right].
Qed.

Lemma num_or_else_nonzero (a : option Z) (b : Z) :
  b <> 0 -> Js.num_or_else a b <> 0.
Proof.
  intros Hb. destruct a as [x|]; simpl; [|exact Hb].
  destruct (Z.eqb_spec x 0); assumption.
Qed.

(** The session that a successful [createSession] returns. *)
Lemma createSession_some (st : PTYManager.State) (e : PTYManager.Env)
    (options : PTYManager.CreateOptions) (s : PTYManager.PTYSession)
    (pm : PTYManager.State) (out : list PTYManager.Output) :
  PTYManager.createSession st e options = (Some s, pm, out) ->
  PTYManager.spawn_ok e = true
  /\ pm = PTYManager.set_sessions st
            (<[PTYManager.uuid e := s]> (PTYManager.sessions st))
  /\ out = [PTYManager.PtySpawn s; PTYManager.EmitCreated s]
  /\ PTYManager.id s = PTYManager.uuid e
  /\ PTYManager.createdAt s = PTYManager.now e
  /\ PTYManager.cols s = Js.num_or_else (PTYManager.opt_cols options) 80
  /\ PTYManager.rows s = Js.num_or_else (PTYManager.opt_rows options) 24
  /\ PTYManager.name s
     = Js.or_else (PTYManager.opt_name options)
         ("Terminal " +:+ pretty (S (size (PTYManager.sessions st))))
  /\ PTYManager.shell s
     = (if Js.truthy_opt (PTYManager.opt_shell options)
           && negb (PTYManager.isValidShell
                      (default "" (PTYManager.opt_shell options)))
        then PTYManager.defaultShell st
        else Js.or_else (PTYManager.opt_shell options) (PTYManager.defaultShell st))
  /\ PTYManager.cwd s
     = (if Js.truthy_opt (PTYManager.opt_cwd options)
           && negb (PTYManager.isValidCwd
                      (default "" (PTYManager.opt_cwd options)))
        then Js.or_else (PTYManager.home e) "/"
        else Js.or_else (PTYManager.opt_cwd options)
               (Js.or_else (PTYManager.home e) "/")).
Proof.
  unfold PTYManager.createSession.
  destruct (PTYManager.spawn_ok e); [|discriminate].
  intros [= <- <- <-]. repeat split.
Qed.

(** X1.  Whatever options a caller supplies, the shell of a created
    session is the pool's default shell or an entry of the allow-list, and
    its working directory is the home fallback ([HOME], or "/" without it)
    or an absolute path that does not contain "..". *)
Theorem createSession_sanitises_shell_and_cwd :
  forall (st : PTYManager.State) (e : PTYManager.Env)
         (options : PTYManager.CreateOptions) (s : PTYManager.PTYSession)
         (pm : PTYManager.State) (out : list PTYManager.Output),
    PTYManager.createSession st e options = (Some s, pm, out) ->
    (PTYManager.shell s = PTYManager.defaultShell st
     \/ PTYManager.shell s ∈ PTYManager.ALLOWED_SHELLS)
    /\ (PTYManager.cwd s = Js.or_else (PTYManager.home e) "/"
        \/ (Js.startsWith (PTYManager.cwd s) "/" = true
            /\ Js.includes (PTYManager.cwd s) ".." = false)).
Proof.
  intros st e options s pm out H.
  apply createSession_some in H as (_ & _ & _ & _ & _ & _ & _ & _ & Hsh & Hcwd).
  split.
  - rewrite Hsh.
    destruct (or_else_cases (PTYManager.opt_shell options)
                (PTYManager.defaultShell st)) as [[Ht Hs] | [Ht Hs]];
      rewrite Ht; simpl.
    + destruct (PTYManager.isValidShell _) eqn:Hv; simpl; [|now left].
      right. rewrite Hs in Hv. simpl in Hv.
      now apply bool_decide_eq_true in Hv.
    + now left.
  - rewrite Hcwd.
    destruct (or_else_cases (PTYManager.opt_cwd options)
                (Js.or_else (PTYManager.home e) "/")) as [[Ht Hs] | [Ht Hs]];
      rewrite Ht; simpl.
    + destruct (PTYManager.isValidCwd _) eqn:Hv; simpl; [|now left].
      right. rewrite Hs in Hv. simpl in Hv.
      now apply isValidCwd_spec.
    + now left.
Qed.

(** A request for the shell "/bin/evil" in the directory "/tmp/../etc" is
    served with the default shell in the home directory. *)
Lemma createSession_sanitises_shell_and_cwd_witness :
  (PTYManager.shell Scenario2.sanitised = PTYManager.defaultShell Scenario2.pool1
   \/ PTYManager.shell Scenario2.sanitised ∈ PTYManager.ALLOWED_SHELLS)
  /\ (PTYManager.cwd Scenario2.sanitised
      = Js.or_else (PTYManager.home Scenario2.env1) "/"
      \/ (Js.startsWith (PTYManager.cwd Scenario2.sanitised) "/" = true
          /\ Js.includes (PTYManager.cwd Scenario2.sanitised) ".." = false)).
Proof.
  refine (createSession_sanitises_shell_and_cwd Scenario2.pool1 Scenario2.env1
            Scenario2.evil_options Scenario2.sanitised
            (snd (fst (PTYManager.createSession Scenario2.pool1 Scenario2.env1
                         Scenario2.evil_options)))
            (snd (PTYManager.createSession Scenario2.pool1 Scenario2.env1
                    Scenario2.evil_options)) _).
  vm_compute. reflexivity.
Defined.

(** X2.  A successful [createSession] stores the session under the drawn
    id: the session carries that id and the time of the call, a lookup of
    the id returns it, it is listed, no other id is affected, its columns
    and rows are not zero and its name is not empty. *)
Theorem createSession_then_lookup :
  forall (st : PTYManager.State) (e : PTYManager.Env)
         (options : PTYManager.CreateOptions) (s : PTYManager.PTYSession)
         (pm : PTYManager.State) (out : list PTYManager.Output),
    PTYManager.createSession st e options = (Some s, pm, out) ->
    PTYManager.id s = PTYManager.uuid e
    /\ PTYManager.createdAt s = PTYManager.now e
    /\ PTYManager.getSession pm (PTYManager.uuid e) = Some s
    /\ s ∈ PTYManager.getAllSessions pm
    /\ (forall k, k <> PTYManager.uuid e ->
                  PTYManager.getSession pm k = PTYManager.getSession st k)
    /\ PTYManager.cols s <> 0 /\ PTYManager.rows s <> 0
    /\ PTYManager.name s <> "".
Proof.
  intros st e options s pm out H.
  apply createSession_some in H
    as (_ & -> & _ & Hid & Hat & Hc & Hr & Hn & _ & _).
  unfold PTYManager.getSession. simpl.
  split; [exact Hid|]. split; [exact Hat|].
  split; [apply lookup_insert_eq|].
  split.
  { apply GatewayFacts.elem_of_getAllSessions. exists (PTYManager.uuid e).
    apply lookup_insert_eq. }
  split; [intros k Hk; now apply lookup_insert_ne|].
  split; [rewrite Hc; now apply num_or_else_nonzero|].
  split; [rewrite Hr; now apply num_or_else_nonzero|].
  rewrite Hn.
  destruct (or_else_cases (PTYManager.opt_name options)
              ("Terminal " +:+ pretty (S (size (PTYManager.sessions st)))))
    as [[Ht Hs] | [_ ->]].
  - destruct (PTYManager.opt_name options) as [x|]; [|discriminate].
    simpl in Ht |- *. rewrite Ht. now apply JsFacts.truthy_true.
  - discriminate.
Qed.

(** The options of the last example ask for zero columns and the name
    "x": the session has 80 columns and is found under "s2". *)
Lemma createSession_then_lookup_witness :
  exists s pm,
    fst (PTYManager.createSession Scenario2.pool1 Scenario2.env1
           Scenario2.evil_options) = (Some s, pm)
    /\ PTYManager.getSession pm "s2" = Some s
    /\ PTYManager.cols s = 80 /\ PTYManager.name s = "x".
Proof.
  destruct (PTYManager.createSession Scenario2.pool1 Scenario2.env1
              Scenario2.evil_options) as [[[s|] pm] out] eqn:H;
    [|vm_compute in H; discriminate].
  destruct (createSession_then_lookup _ _ _ _ _ _ H) as (_ & _ & Hg & _).
  exists s, pm. split; [reflexivity|]. split; [exact Hg|].
  vm_compute in H. injection H as <- _ _. split; reflexivity.
Defined.

(** X3.  [closeSession] removes exactly the named session.  On a live
    session it kills the PTY once and announces the closure, after which a
    lookup of the id finds nothing and every other session is as before; on
    an id that is not live, and so on a second call, it does nothing.
    Closing a session right after it was created under a fresh id gives the
    pool back as it was. *)
Theorem closeSession_removes_exactly_one :
  forall (st : PTYManager.State) (i : string),
    PTYManager.getSession (fst (PTYManager.closeSession st i)) i = None
    /\ (forall k, k <> i ->
           PTYManager.getSession (fst (PTYManager.closeSession st i)) k
           = PTYManager.getSession st k)
    /\ (is_Some (PTYManager.getSession st i) ->
        snd (PTYManager.closeSession st i)
        = [PTYManager.PtyKill i; PTYManager.EmitClosed i])
    /\ (PTYManager.getSession st i = None ->
        PTYManager.closeSession st i = (st, []))
    /\ PTYManager.closeSession (fst (PTYManager.closeSession st i)) i
       = (fst (PTYManager.closeSession st i), [])
    /\ (forall e options s pm out,
           PTYManager.uuid e = i ->
           PTYManager.getSession st i = None ->
           PTYManager.createSession st e options = (Some s, pm, out) ->
           fst (PTYManager.closeSession pm i) = st).
Proof.
  intros st i. unfold PTYManager.getSession, PTYManager.closeSession.
  destruct (PTYManager.sessions st !! i) as [s|] eqn:Hs; simpl.
  - rewrite !lookup_delete_eq.
    split; [reflexivity|].
    split; [intros k Hk; now apply lookup_delete_ne|].
    split; [reflexivity|]. split; [discriminate|].
    split; [reflexivity|]. discriminate.
  - split; [exact Hs|]. split; [reflexivity|].
    split; [intros [? [=]]|]. split; [reflexivity|].
    split; [now rewrite Hs|].
    intros e options s pm out Hu _ Hc.
    apply createSession_some in Hc as (_ & -> & _). simpl.
    rewrite Hu, lookup_insert_eq. simpl.
    rewrite delete_insert_id by exact Hs. destruct st; reflexivity.
Qed.

(** The visits of [closeAll], for any list of ids. *)
Lemma closeSession_lookup (st : PTYManager.State) (a j : string) :
  PTYManager.sessions (fst (PTYManager.closeSession st a)) !! j
  = if bool_decide (j = a) then None else PTYManager.sessions st !! j.
Proof.
  unfold PTYManager.closeSession.
  destruct (PTYManager.sessions st !! a) eqn:Hs; simpl;
    case_bool_decide as Hj; subst;
    rewrite ?lookup_delete_eq, ?lookup_delete_ne by congruence; auto.
Qed.

Lemma closeAll_visits_lookup (l : list string) :
  forall (acc : PTYManager.State * list PTYManager.Output) (k : string),
    PTYManager.sessions
      (fst (foldl (fun acc i =>
                     PTYMessages.seq acc (fun s => PTYManager.closeSession s i))
                  acc l)) !! k
    = if bool_decide (k ∈ l) then None else PTYManager.sessions (fst acc) !! k.
Proof.
  induction l as [|a l IH]; intros acc k; cbn [foldl].
  - rewrite bool_decide_eq_false_2; [reflexivity | apply not_elem_of_nil].
  - rewrite IH. unfold PTYMessages.seq. cbn [fst snd].
    rewrite closeSession_lookup.
    destruct (decide (k ∈ l)) as [Hin|Hin].
    + rewrite !bool_decide_eq_true_2; [reflexivity | now right | exact Hin].
    + rewrite (bool_decide_eq_false_2 _ Hin).
      case_bool_decide as Hk.
      * subst. rewrite bool_decide_eq_true_2; [reflexivity | now left].
      * rewrite bool_decide_eq_false_2; [reflexivity|].
        intros [->|?]%elem_of_cons; contradiction.
Qed.

Lemma closeAll_visits_keep_output (l : list string) :
  forall (acc : PTYManager.State * list PTYManager.Output) o,
    o ∈ snd acc ->
    o ∈ snd (foldl (fun acc i =>
                      PTYMessages.seq acc (fun s => PTYManager.closeSession s i))
                   acc l).
Proof.
  induction l as [|a l IH]; intros acc o Ho; cbn [foldl]; [exact Ho|].
  apply IH. unfold PTYMessages.seq. cbn [fst snd].
  apply elem_of_app. now left.
Qed.

Lemma closeAll_visits_kill (l : list string) :
  forall (acc : PTYManager.State * list PTYManager.Output) (i : string),
    NoDup l -> i ∈ l -> is_Some (PTYManager.sessions (fst acc) !! i) ->
    PTYManager.PtyKill i
    ∈ snd (foldl (fun acc j =>
                    PTYMessages.seq acc (fun s => PTYManager.closeSession s j))
                 acc l).
Proof.
  induction l as [|a l IH]; intros acc i Hnd Hin Hlive; cbn [foldl].
  - inversion Hin.
  - apply NoDup_cons in Hnd as [Ha Hnd].
    apply elem_of_cons in Hin as [->|Hin].
    + apply closeAll_visits_keep_output. unfold PTYMessages.seq. cbn [fst snd].
      apply elem_of_app. right. unfold PTYManager.closeSession.
      destruct Hlive as [s ->]. simpl. now left.
    + apply IH; [exact Hnd | exact Hin |].
      unfold PTYMessages.seq. cbn [fst snd].
      rewrite closeSession_lookup.
      rewrite bool_decide_eq_false_2; [exact Hlive|].
      intros ->. contradiction.
Qed.

(** X4.  [closeAll] leaves no session in the pool and kills the PTY of
    every session that was live. *)
Theorem closeAll_empties_the_pool :
  forall (st : PTYManager.State),
    PTYManager.sessions (fst (PTYMessages.closeAll st)) = ∅
    /\ PTYManager.getAllSessions (fst (PTYMessages.closeAll st)) = []
    /\ (forall i, is_Some (PTYManager.getSession st i) ->
                  PTYManager.PtyKill i ∈ snd (PTYMessages.closeAll st)).
Proof.
  intros st.
  assert (Hempty : PTYManager.sessions (fst (PTYMessages.closeAll st)) = ∅).
  { apply map_eq. intros k. unfold PTYMessages.closeAll.
    rewrite closeAll_visits_lookup, lookup_empty. cbn [fst].
    case_bool_decide as Hk; [reflexivity|].
    destruct (PTYManager.sessions st !! k) as [s|] eqn:Hs; [|reflexivity].
    exfalso. apply Hk. apply list_elem_of_fmap. exists (k, s).
    split; [reflexivity|]. now apply elem_of_map_to_list. }
  split; [exact Hempty|]. split.
  - unfold PTYManager.getAllSessions. rewrite Hempty, map_to_list_empty.
    reflexivity.
  - intros i [s Hs]. unfold PTYMessages.closeAll.
    apply closeAll_visits_kill.
    + apply NoDup_fst_map_to_list.
    + apply list_elem_of_fmap. exists (i, s). split; [reflexivity|].
      now apply elem_of_map_to_list.
    + now exists s.
Qed.

(** X5.  [handleMessage] of the pool never adds a session and never
    leaves a session with zero columns or rows: a resize message lacking a
    dimension, or carrying a zero, is dropped, and so is a data message
    without data. *)
Theorem pool_handleMessage_keeps_dimensions :
  forall (st : PTYManager.State) (m : PTYMessages.PTYMessage),
    (PoolInvariants.dims_nonzero st ->
     PoolInvariants.dims_nonzero (fst (PTYMessages.handleMessage st m)))
    /\ dom (PTYManager.sessions (fst (PTYMessages.handleMessage st m)))
       ⊆ dom (PTYManager.sessions st)
    /\ (PTYMessages.type m = PTYMessages.resize ->
        Js.truthy_num (PTYMessages.msg_cols m) = false
        \/ Js.truthy_num (PTYMessages.msg_rows m) = false ->
        PTYMessages.handleMessage st m = (st, []))
    /\ (PTYMessages.type m = PTYMessages.data ->
        Js.truthy_opt (PTYMessages.msg_data m) = false ->
        PTYMessages.handleMessage st m = (st, [])).
Proof.
  intros st m. unfold PTYMessages.handleMessage, PoolInvariants.dims_nonzero.
  destruct (PTYMessages.type m).
  - destruct (Js.truthy_opt _); simpl; (split; [auto|]);
      (split; [reflexivity|]); (split; [discriminate|]); intros _ [=];
      reflexivity.
  - destruct (PTYMessages.msg_cols m) as [c|], (PTYMessages.msg_rows m) as [r|];
      simpl; try (split; [auto|]; split; [reflexivity|];
                  split; [reflexivity | discriminate]).
    + destruct (Z.eqb_spec c 0), (Z.eqb_spec r 0); simpl;
        try (split; [auto|]; split; [reflexivity|];
             split; [reflexivity | discriminate]).
      unfold PTYManager.resize.
      destruct (PTYManager.sessions st !! PTYMessages.sessionId m) eqn:Hs; simpl.
      * split; [intros H; apply map_Forall_insert_2; auto|].
        split; [|split; [intros _ [[=]|[=]] | discriminate]].
        rewrite dom_insert_L. apply elem_of_dom_2 in Hs.
        apply union_subseteq. split; [now apply singleton_subseteq_l | reflexivity].
      * split; [auto|]. split; [reflexivity|].
        split; [reflexivity | discriminate].
    + destruct (c =? 0); simpl; split; auto; split; try reflexivity;
        split; try reflexivity; discriminate.
  - unfold PTYManager.closeSession.
    destruct (PTYManager.sessions st !! PTYMessages.sessionId m); simpl.
    + split; [intros H; now apply map_Forall_delete|].
      split; [rewrite dom_delete_L; apply subseteq_difference_l; reflexivity|].
      split; discriminate.
    + split; [auto|]. split; [reflexivity|]. split; discriminate.
Qed.

End PoolFacts.

(** ** The message router *)

Module RouterFacts.

Lemma set_serviceManager_same (st : RemoteServer.State) :
  RemoteServer.set_serviceManager st (RemoteServer.serviceManager st) = st.
Proof. destruct st; reflexivity. Qed.

(** X6.  Before a connection has authenticated, every frame that is not
    an auth frame is answered with system/error "Not authenticated" and
    changes nothing: no PTY is created, written to or closed, no
    subscription is recorded and the supervisor is not consulted. *)
Theorem unauthenticated_frames_are_refused :
  forall (st : RemoteServer.State) (e : PTYManager.Env) (conn : string)
         (f : RemoteServer.Frame) (sock : RemoteServer.Socket),
    RemoteServer.sockets st !! conn = Some sock ->
    RemoteServer.clients st !! conn = None ->
    (forall p, RemoteServer.body f <> RemoteServer.Auth p) ->
    RemoteServer.on_message st e conn (Some f)
    = (st, RemoteServer.sendError st conn "Not authenticated").
Proof.
  intros st e conn f sock Hs Hc Hb.
  unfold RemoteServer.on_message, RemoteServer.handleMessage. rewrite Hs.
  destruct (RemoteServer.body f) as [p|a|a|a|t]; rewrite ?Hc;
    [exfalso; now apply (Hb p) | reflexivity..].
Qed.

(** The remote peer "c1" of the sample server asks for a PTY before it has
    authenticated. *)
Lemma unauthenticated_frames_are_refused_witness :
  RemoteServer.on_message Scenario.server2 Scenario.env0 "c1"
    (Scenario.frame (RemoteServer.Pty (RemoteServer.PtyCreate Scenario.no_options)))
  = (Scenario.server2,
     RemoteServer.sendError Scenario.server2 "c1" "Not authenticated").
Proof.
  apply (unauthenticated_frames_are_refused Scenario.server2 Scenario.env0 "c1"
           (RemoteServer.mkFrame
              (RemoteServer.Pty (RemoteServer.PtyCreate Scenario.no_options)) None)
           (RemoteServer.mkSocket true false (Some 10000))).
  - vm_compute. reflexivity.
  - vm_compute. reflexivity.
  - intros p. discriminate.
Defined.

(** X7.  A remote client that neither owns a session nor is subscribed
    to it cannot act on it: its write, resize and close frames naming the
    session leave the whole state as it is, reach no PTY, and the only thing
    ever written is a system/error frame to the client itself. *)
Theorem remote_stranger_cannot_touch_session :
  forall (st : RemoteServer.State) (e : PTYManager.Env)
         (client : RemoteServer.AuthenticatedClient) (sid : string)
         (rid : option string),
    RemoteServer.isLocal client = false ->
    sid ∉ RemoteServer.ownedSessions client ->
    sid ∉ RemoteServer.sessionSubscriptions client ->
    forall a,
      (exists data, a = RemoteServer.PtyWrite sid data)
      \/ (exists c r, a = RemoteServer.PtyResize sid c r)
      \/ a = RemoteServer.PtyClose sid ->
      fst (fst (RemoteServer.handlePTYMessage st e client a rid)) = st
      /\ forall o,
          o ∈ snd (fst (RemoteServer.handlePTYMessage st e client a rid)) ->
          exists err,
            o = RemoteServer.WsSend (RemoteServer.ws client)
                  (RemoteServer.mkMessage "system" "error"
                     (RemoteServer.P_error err) None).
Proof.
  intros st e client sid rid Hremote Hown Hsub a Ha.
  assert (Hacc : RemoteServer.canAccessSession client sid = false).
  { unfold RemoteServer.canAccessSession. rewrite Hremote.
    now rewrite !bool_decide_eq_false_2. }
  assert (Herr : forall msg o,
             o ∈ RemoteServer.sendError st (RemoteServer.ws client) msg ->
             exists err,
               o = RemoteServer.WsSend (RemoteServer.ws client)
                     (RemoteServer.mkMessage "system" "error"
                        (RemoteServer.P_error err) None)).
  { intros msg o. unfold RemoteServer.sendError, RemoteServer.send.
    destruct (RemoteServer.is_open st _); [|intros H; inversion H].
    intros ->%list_elem_of_singleton. eauto. }
  destruct Ha as [[data ->] | [(c & r & ->) | ->]]; simpl; rewrite ?Hacc; simpl.
  - split; [reflexivity | apply Herr].
  - destruct (_ && _); simpl; split; try reflexivity; [apply Herr|].
    intros o H. inversion H.
  - split; [reflexivity | apply Herr].
Qed.

(** The tablet, a second remote device, tries to close the session "s1"
    of the phone. *)
Lemma remote_stranger_cannot_touch_session_witness :
  fst (fst (RemoteServer.handlePTYMessage Scenario.server5 Scenario.env0
              Scenario2.tablet (RemoteServer.PtyClose "s1") None))
  = Scenario.server5.
Proof.
  refine (proj1 (remote_stranger_cannot_touch_session Scenario.server5
                   Scenario.env0 Scenario2.tablet "s1" None _ _ _
                   (RemoteServer.PtyClose "s1") _)).
  - reflexivity.
  - apply not_elem_of_empty.
  - apply not_elem_of_empty.
  - right. right. reflexivity.
Defined.

(** X8.  The reply to a pty list frame, written to the open socket of the
    client, holds exactly the sessions of the pool that the client may act
    on: a session is in the reply iff it is stored in the pool and
    [canAccessSession] grants the client access to its id.  Nothing else is
    written and nothing changes. *)
Theorem list_shows_what_the_client_can_access :
  forall (st : RemoteServer.State) (e : PTYManager.Env)
         (client : RemoteServer.AuthenticatedClient) (rid : option string),
    RemoteServer.is_open st (RemoteServer.ws client) = true ->
    exists listed,
      RemoteServer.handlePTYMessage st e client RemoteServer.PtyList rid
      = (st,
         [RemoteServer.WsSend (RemoteServer.ws client)
            (RemoteServer.mkMessage "pty" "list"
               (RemoteServer.P_sessions listed) rid)],
         RemoteServer.Done)
      /\ forall s,
          s ∈ listed
          <-> (exists k,
                  PTYManager.sessions (RemoteServer.ptyManager st) !! k = Some s)
              /\ RemoteServer.canAccessSession client (PTYManager.id s) = true.
Proof.
  intros st e client rid Hopen. eexists. split.
  - simpl. unfold RemoteServer.send. rewrite Hopen. reflexivity.
  - intros s. unfold RemoteServer.canAccessSession.
    destruct (RemoteServer.isLocal client).
    + rewrite GatewayFacts.elem_of_getAllSessions. tauto.
    + rewrite list_elem_of_filter, GatewayFacts.elem_of_getAllSessions.
      rewrite Is_true_true. tauto.
Qed.

(** The phone of the sample server, which owns "s1", asks for the list. *)
Lemma list_shows_what_the_client_can_access_witness :
  exists listed,
    RemoteServer.handlePTYMessage Scenario.server5 Scenario.env0
      Scenario2.phone_owner RemoteServer.PtyList None
    = (Scenario.server5,
       [RemoteServer.WsSend "c1"
          (RemoteServer.mkMessage "pty" "list"
             (RemoteServer.P_sessions listed) None)],
       RemoteServer.Done)
    /\ Scenario2.desktop_session ∈ listed.
Proof.
  destruct (list_shows_what_the_client_can_access Scenario.server5
              Scenario.env0 Scenario2.phone_owner None
              ltac:(vm_compute; reflexivity)) as (listed & Heq & Hl).
  exists listed. split; [exact Heq|].
  apply Hl. split; [exists "s1"|]; vm_compute; reflexivity.
Defined.

(** What a successful create frame leaves behind. *)
Lemma create_done (st : RemoteServer.State) (e : PTYManager.Env)
    (client : RemoteServer.AuthenticatedClient)
    (options : PTYManager.CreateOptions) (rid : option string)
    (st1 : RemoteServer.State) (out1 : list RemoteServer.Output) :
  RemoteServer.handlePTYMessage st e client (RemoteServer.PtyCreate options) rid
  = (st1, out1, RemoteServer.Done) ->
  exists s client',
    PTYManager.id s = PTYManager.uuid e
    /\ PTYManager.sessions (RemoteServer.ptyManager st1)
       = <[PTYManager.uuid e := s]> (PTYManager.sessions (RemoteServer.ptyManager st))
    /\ RemoteServer.sessionOwnership st1
       = <[PTYManager.uuid e := RemoteServer.deviceId client]>
           (RemoteServer.sessionOwnership st)
    /\ RemoteServer.clients st1
       = <[RemoteServer.id client := client']> (RemoteServer.clients st)
    /\ RemoteServer.ws client' = RemoteServer.ws client
    /\ PTYManager.uuid e ∈ RemoteServer.sessionSubscriptions client'
    /\ PTYManager.uuid e ∈ RemoteServer.ownedSessions client'
    /\ RemoteServer.sockets st1 = RemoteServer.sockets st
    /\ RemoteServer.authToken st1 = RemoteServer.authToken st
    /\ out1
       = [RemoteServer.PtyOut (PTYManager.PtySpawn s);
          RemoteServer.PtyOut (PTYManager.EmitCreated s)]
         ++ RemoteServer.send st1 (RemoteServer.ws client)
              (RemoteServer.mkMessage "pty" "created" (RemoteServer.P_session s) rid).
Proof.
  simpl.
  destruct (PTYManager.createSession (RemoteServer.ptyManager st) e options)
    as [[[s|] pm] out] eqn:Hc; [|discriminate].
  apply PoolFacts.createSession_some in Hc as (_ & -> & -> & Hid & _).
  intros [= <- <-]. exists s. eexists. simpl. rewrite Hid.
  split; [reflexivity|]. split; [reflexivity|]. split; [reflexivity|].
  split; [reflexivity|]. split; [reflexivity|].
  split; [apply elem_of_union_l, elem_of_singleton; reflexivity|].
  split; [apply elem_of_union_l, elem_of_singleton; reflexivity|].
  split; [reflexivity|]. split; reflexivity.
Qed.

Lemma on_close_frame (st : RemoteServer.State) (conn : string) :
  RemoteServer.sessionOwnership (fst (RemoteServer.on_close st conn))
  = RemoteServer.sessionOwnership st
  /\ RemoteServer.ptyManager (fst (RemoteServer.on_close st conn))
     = RemoteServer.ptyManager st
  /\ RemoteServer.authToken (fst (RemoteServer.on_close st conn))
     = RemoteServer.authToken st
  /\ RemoteServer.serviceManager (fst (RemoteServer.on_close st conn))
     = RemoteServer.serviceManager st.
Proof.
  unfold RemoteServer.on_close.
  destruct (RemoteServer.sockets st !! conn); [|auto]. simpl.
  destruct (RemoteServer.clients st !! conn); auto.
Qed.

(** X9.  Ownership outlives the connection.  After a client has created
    a session and its socket has closed, a new connection that the origin
    filter admits and that authenticates with the same (non-empty) device
    id gets the session back: the id is in the new client's owned and
    subscribed sets, and the auth/success reply written to the new socket
    lists the session. *)
Theorem ownership_survives_reconnect :
  forall (Number : string -> option Q)
         (st : RemoteServer.State) (e : PTYManager.Env)
         (client : RemoteServer.AuthenticatedClient)
         (options : PTYManager.CreateOptions) (rid : option string)
         (st1 : RemoteServer.State) (out1 : list RemoteServer.Output)
         (t now : Z) (conn' : string) (ip : option string)
         (p : RemoteServer.AuthPayload) (rid' : option string) (local : bool),
    RemoteServer.handlePTYMessage st e client (RemoteServer.PtyCreate options) rid
    = (st1, out1, RemoteServer.Done) ->
    Origin.check_origin Number
      (RemoteServer.restrictToTailscale
         (fst (RemoteServer.on_close st1 (RemoteServer.id client)))) ip
    = Origin.Accept local ->
    Token.Buffer_from_value (RemoteServer.token p)
    = Some (Token.Buffer_from (RemoteServer.authToken st)) ->
    RemoteServer.clientId p = RemoteServer.deviceId client ->
    RemoteServer.deviceId client <> "" ->
    exists c listed statuses st3,
      RemoteServer.handleAuth
        (fst (RemoteServer.on_connection Number
                (fst (RemoteServer.on_close st1 (RemoteServer.id client)))
                t conn' ip))
        now conn' p rid' local
      = (st3,
         [RemoteServer.CryptoCompare
            (Token.Buffer_from (RemoteServer.authToken st))
            (Token.Buffer_from (RemoteServer.authToken st));
          RemoteServer.WsSend conn'
            (RemoteServer.mkMessage "auth" "success"
               (RemoteServer.P_auth_success conn' listed statuses) rid');
          RemoteServer.EmitServer (RemoteServer.client_authenticated c)],
         RemoteServer.Done)
      /\ RemoteServer.clients st3 !! conn' = Some c
      /\ PTYManager.uuid e ∈ RemoteServer.ownedSessions c
      /\ PTYManager.uuid e ∈ RemoteServer.sessionSubscriptions c
      /\ exists s, s ∈ listed /\ PTYManager.id s = PTYManager.uuid e.
Proof.
  intros Number st e client options rid st1 out1 t now conn' ip p rid' local
         Hcreate Hadmit Htok Hdev Hne.
  apply create_done in Hcreate
    as (s & client' & Hid & Hpool & Hown & _ & _ & _ & _ & _ & Hauth & _).
  destruct (on_close_frame st1 (RemoteServer.id client))
    as (Hown2 & Hpool2 & Hauth2 & _).
  set (st2 := fst (RemoteServer.on_close st1 (RemoteServer.id client))) in *.
  unfold RemoteServer.on_connection. rewrite Hadmit. cbn [fst].
  set (st2' := RemoteServer.set_sockets st2 _).
  assert (Howner : RemoteServer.sessionOwnership st2' !! PTYManager.uuid e
                   = Some (RemoteServer.deviceId client))
    by (simpl; rewrite Hown2, Hown; apply lookup_insert_eq).
  assert (Hlive : PTYManager.sessions (RemoteServer.ptyManager st2')
                    !! PTYManager.uuid e = Some s)
    by (simpl; rewrite Hpool2, Hpool; apply lookup_insert_eq).
  assert (Htok' : Token.Buffer_from_value (RemoteServer.token p)
                  = Some (Token.Buffer_from (RemoteServer.authToken st2')))
    by (simpl; rewrite Hauth2, Hauth; exact Htok).
  assert (Hat : RemoteServer.authToken st2' = RemoteServer.authToken st)
    by (simpl; now rewrite Hauth2, Hauth).
  destruct (GatewayFacts.handleAuth_accepts st2' now conn' p rid' local Htok')
    as (c & listed & statuses & st3 & Heq & Hc & Hl & _ & Hcl & Hsock & _).
  assert (Hopen : RemoteServer.is_open st3 conn' = true).
  { unfold RemoteServer.is_open. rewrite Hsock.
    fold (RemoteServer.is_open (RemoteServer.clear_authTimeout st2' conn') conn').
    rewrite GatewayFacts.is_open_clear_authTimeout.
    unfold RemoteServer.is_open, st2'. simpl. now rewrite lookup_insert_eq. }
  exists c, listed, statuses, st3. split.
  { rewrite Heq, Hat. unfold RemoteServer.send. now rewrite Hopen. }
  split; [rewrite Hcl; apply lookup_insert_eq|].
  subst c. cbn [RemoteServer.ownedSessions RemoteServer.sessionSubscriptions].
  rewrite Hdev, (GatewayFacts.or_else_nonempty _ conn' Hne) in *.
  split; [now apply GatewayFacts.restore_owned_spec|].
  split; [now apply GatewayFacts.restore_owned_spec|].
  exists s. split; [|exact Hid].
  assert (Hin : s ∈ PTYManager.getAllSessions (RemoteServer.ptyManager st2'))
    by (apply GatewayFacts.elem_of_getAllSessions; eauto).
  subst listed. destruct local; [exact Hin|].
  apply list_elem_of_filter. split; [|exact Hin].
  now rewrite Hid.
Qed.

(** On the sample server: the phone created "s1" as "c1"; that socket
    closes, the phone connects again from its Tailscale address as "c8"
    and authenticates: the reply on "c8" lists "s1". *)
Lemma ownership_survives_reconnect_witness :
  exists c listed statuses,
    snd (fst (RemoteServer.handleAuth
                (fst (RemoteServer.on_connection Origin.Number_decimal
                        (fst (RemoteServer.on_close Scenario.server5 "c1"))
                        2500 "c8" (Some "100.64.0.7")))
                3000 "c8" Scenario.auth_phone None false))
    = [RemoteServer.CryptoCompare (Token.Buffer_from "c0ffee")
         (Token.Buffer_from "c0ffee");
       RemoteServer.WsSend "c8"
         (RemoteServer.mkMessage "auth" "success"
            (RemoteServer.P_auth_success "c8" listed statuses) None);
       RemoteServer.EmitServer (RemoteServer.client_authenticated c)]
    /\ "s1" ∈ RemoteServer.ownedSessions c
    /\ "s1" ∈ RemoteServer.sessionSubscriptions c
    /\ exists s, s ∈ listed /\ PTYManager.id s = "s1".
Proof.
  destruct (ownership_survives_reconnect Origin.Number_decimal
              Scenario.server4 Scenario.env0
              Scenario.phone Scenario.no_options None Scenario.server5
              (snd (fst (RemoteServer.handlePTYMessage Scenario.server4
                           Scenario.env0 Scenario.phone
                           (RemoteServer.PtyCreate Scenario.no_options) None)))
              2500 3000 "c8" (Some "100.64.0.7") Scenario.auth_phone None false)
    as (c & listed & statuses & st3 & Heq & _ & Ho & Hs & Hl).
  - vm_compute. reflexivity.
  - vm_compute. reflexivity.
  - reflexivity.
  - reflexivity.
  - discriminate.
  - exists c, listed, statuses.
    split; [exact (f_equal (fun x => snd (fst x)) Heq)|]. auto.
Defined.

(** X10.  The authentication window.  For a connection that the origin
    filter has accepted at time [now] and that has not authenticated, the
    timer does nothing before [now + 10000] and from then on closes the
    socket with code 4001 "Authentication timeout".  Once the connection
    has authenticated with the right token, the timer never closes it,
    whenever it fires. *)
Theorem authentication_window :
  forall (Number : string -> option Q) (st : RemoteServer.State) (now : Z)
         (conn : string) (ip : option string) (local : bool),
    Origin.check_origin Number (RemoteServer.restrictToTailscale st) ip
    = Origin.Accept local ->
    RemoteServer.clients st !! conn = None ->
    (forall now',
        now' < now + 10000 ->
        RemoteServer.on_auth_timeout
          (fst (RemoteServer.on_connection Number st now conn ip)) now' conn
        = (fst (RemoteServer.on_connection Number st now conn ip), []))
    /\ (forall now',
           now + 10000 <= now' ->
           snd (RemoteServer.on_auth_timeout
                  (fst (RemoteServer.on_connection Number st now conn ip))
                  now' conn)
           = [RemoteServer.WsClose conn 4001 "Authentication timeout"]
           /\ RemoteServer.is_open
                (fst (RemoteServer.on_auth_timeout
                        (fst (RemoteServer.on_connection Number st now conn ip))
                        now' conn)) conn
              = false)
    /\ (forall t p rid now',
           Token.Buffer_from_value (RemoteServer.token p)
           = Some (Token.Buffer_from (RemoteServer.authToken st)) ->
           RemoteServer.on_auth_timeout
             (fst (fst (RemoteServer.handleAuth
                          (fst (RemoteServer.on_connection Number st now conn ip))
                          t conn p rid local))) now' conn
           = (fst (fst (RemoteServer.handleAuth
                          (fst (RemoteServer.on_connection Number st now conn ip))
                          t conn p rid local)), [])).
Proof.
  intros Number st now conn ip local Hacc Hnone.
  unfold RemoteServer.on_connection. rewrite Hacc. simpl.
  split; [|split].
  - intros now' Hlt. unfold RemoteServer.on_auth_timeout. simpl.
    rewrite lookup_insert_eq. simpl.
    now rewrite (proj2 (Z.leb_gt _ _) Hlt).
  - intros now' Hge. unfold RemoteServer.on_auth_timeout. simpl.
    rewrite lookup_insert_eq. simpl.
    rewrite (proj2 (Z.leb_le _ _) Hge).
    unfold RemoteServer.clear_authTimeout. simpl.
    rewrite lookup_insert_eq. simpl. rewrite Hnone. simpl.
    split; [reflexivity|].
    unfold RemoteServer.is_open, RemoteServer.leave_open. simpl.
    rewrite lookup_insert_eq. simpl. now rewrite lookup_insert_eq.
  - intros t p rid now' Htok.
    match goal with
    | |- context [RemoteServer.handleAuth ?s t conn p rid local] =>
        destruct (GatewayFacts.handleAuth_accepts s t conn p rid local Htok)
          as (c & listed & statuses & st' & -> & _ & _ & _ & _ & Hsock & _)
    end.
    cbn [fst]. unfold RemoteServer.on_auth_timeout. rewrite Hsock.
    unfold RemoteServer.clear_authTimeout. simpl.
    rewrite lookup_insert_eq. simpl. rewrite lookup_insert_eq. reflexivity.
Qed.

(** The remote peer of the sample server connected at time 0: at 9999 the
    timer leaves it alone, at 10000 it is closed with 4001. *)
Lemma authentication_window_witness :
  RemoteServer.on_auth_timeout Scenario.server1 9999 "c1" = (Scenario.server1, [])
  /\ snd (RemoteServer.on_auth_timeout Scenario.server1 10000 "c1")
     = [RemoteServer.WsClose "c1" 4001 "Authentication timeout"].
Proof.
  destruct (authentication_window Origin.Number_decimal Scenario.server0 0 "c1"
              (Some "100.64.0.7") false eq_refl eq_refl) as (H1 & H2 & _).
  split.
  - apply (H1 9999). reflexivity.
  - apply (H2 10000). discriminate.
Defined.

Lemma handlePTYMessage_sockets (st : RemoteServer.State) e client a rid :
  RemoteServer.sockets (fst (fst (RemoteServer.handlePTYMessage st e client a rid)))
  = RemoteServer.sockets st.
Proof.
  destruct a as [options|sid data|sid c r|sid|sid|sid| |other]; simpl.
  - destruct (PTYManager.createSession _ e options) as [[[s|] pm] out];
      reflexivity.
  - destruct (negb _); reflexivity.
  - destruct (_ && _); [|reflexivity].
    destruct (negb _); [reflexivity|].
    destruct (PTYManager.resize _ sid _ _); reflexivity.
  - destruct (negb _); [reflexivity|].
    destruct (PTYManager.closeSession _ sid); reflexivity.
  - destruct (_ && _); reflexivity.
  - reflexivity.
  - reflexivity.
  - reflexivity.
Qed.

Lemma handleServiceMessage_sockets (st : RemoteServer.State) now client a rid :
  RemoteServer.sockets
    (fst (fst (RemoteServer.handleServiceMessage st now client a rid)))
  = RemoteServer.sockets st.
Proof.
  destruct a as [? ?| |i|i|?]; simpl; try reflexivity.
  unfold ServiceManager.getStatus.
  destruct (ServiceManager.services _ !! i); reflexivity.
Qed.

Lemma leave_open_absent (st : RemoteServer.State) (conn w : string) :
  RemoteServer.sockets st !! w = None ->
  RemoteServer.sockets (RemoteServer.leave_open st conn) !! w = None.
Proof.
  intros Hw. unfold RemoteServer.leave_open.
  destruct (RemoteServer.sockets st !! conn) as [s|] eqn:Hs; [|exact Hw].
  simpl. rewrite lookup_insert_ne; [exact Hw | congruence].
Qed.

Lemma clear_authTimeout_absent (st : RemoteServer.State) (conn w : string) :
  RemoteServer.sockets st !! w = None ->
  RemoteServer.sockets (RemoteServer.clear_authTimeout st conn) !! w = None.
Proof.
  intros Hw. unfold RemoteServer.clear_authTimeout.
  destruct (RemoteServer.sockets st !! conn) as [s|] eqn:Hs; [|exact Hw].
  simpl. rewrite lookup_insert_ne; [exact Hw | congruence].
Qed.

Lemma handleAuth_absent (st : RemoteServer.State) now conn p rid local
    (w : string) :
  RemoteServer.sockets st !! w = None ->
  RemoteServer.sockets
    (fst (fst (RemoteServer.handleAuth st now conn p rid local))) !! w = None.
Proof.
  intros Hw. unfold RemoteServer.handleAuth, RemoteServer.close_ws.
  destruct (Token.Buffer_from_value (RemoteServer.token p)) as [b|];
    [|exact Hw].
  destruct (negb _); [now apply leave_open_absent|].
  destruct (Token.timingSafeEqual _ b) as [[|]|]; simpl;
    [now apply clear_authTimeout_absent | now apply leave_open_absent
    | exact Hw].
Qed.

Lemma on_message_absent (st : RemoteServer.State) e conn data (w : string) :
  RemoteServer.sockets st !! w = None ->
  RemoteServer.sockets (fst (RemoteServer.on_message st e conn data)) !! w = None.
Proof.
  intros Hw. unfold RemoteServer.on_message.
  destruct (RemoteServer.sockets st !! conn) as [sock|]; [|exact Hw].
  destruct data as [f|]; [|exact Hw].
  assert (Hh : RemoteServer.sockets
                 (fst (fst (RemoteServer.handleMessage st e conn f
                              (RemoteServer.sock_isLocal sock)))) !! w = None).
  { unfold RemoteServer.handleMessage.
    destruct (RemoteServer.body f) as [p|a|a|a|t].
    - now apply handleAuth_absent.
    - destruct (RemoteServer.clients st !! conn); [|exact Hw].
      now rewrite handlePTYMessage_sockets.
    - destruct (RemoteServer.clients st !! conn); [|exact Hw].
      now rewrite handleServiceMessage_sockets.
    - destruct (RemoteServer.clients st !! conn); [|exact Hw].
      now rewrite GatewayFacts.handleSystemMessage_frame.
    - destruct (RemoteServer.clients st !! conn); exact Hw. }
  destruct (RemoteServer.handleMessage st e conn f _) as [[st' out] [|]];
    exact Hh.
Qed.

(** Once a connection id has no socket, it has none until a new
    connection draws the same id. *)
Lemma later_keeps_closed (Number : string -> option Q) (conn : string)
    (st st' : RemoteServer.State) :
  GatewayRuns.later Number conn st st' ->
  RemoteServer.sockets st !! conn = None ->
  RemoteServer.sockets st' !! conn = None.
Proof.
  induction 1 as [st | st st' now conn' ip _ IH Hne | st st' e conn' data _ IH
                 | st st' conn' _ IH | st st' conn' _ IH
                 | st st' now conn' _ IH
                 | st st' sessionId exitCode signal _ IH | st st' svc _ IH
                 | st st' e options _ IH | st st' sessionId _ IH];
    intros Hclosed; try specialize (IH Hclosed).
  - exact Hclosed.
  - unfold RemoteServer.on_connection.
    destruct (Origin.check_origin _ _ _); [|exact IH].
    simpl. rewrite lookup_insert_ne; [exact IH | exact Hne].
  - now apply on_message_absent.
  - now apply leave_open_absent.
  - unfold RemoteServer.on_close.
    destruct (RemoteServer.sockets st' !! conn') as [sock|] eqn:Hs;
      [|exact IH].
    simpl. destruct (RemoteServer.clients st' !! conn'); simpl;
      (destruct (decide (conn = conn')) as [->|Hne];
       [apply lookup_delete_eq | rewrite lookup_delete_ne by congruence; exact IH]).
  - unfold RemoteServer.on_auth_timeout.
    destruct (RemoteServer.sockets st' !! conn') as [sock|] eqn:Hs;
      [|exact IH].
    destruct (RemoteServer.authTimeout sock); [|exact IH].
    destruct (_ <=? _); [|exact IH].
    pose proof (clear_authTimeout_absent st' conn' conn IH) as H1.
    destruct (RemoteServer.clients
                (RemoteServer.clear_authTimeout st' conn') !! conn');
      [exact H1|].
    now apply leave_open_absent.
  - exact IH.
  - exact IH.
  - unfold RemoteServer.ipc_create_session.
    destruct (PTYManager.createSession _ e options) as [[r pm] out].
    exact IH.
  - unfold RemoteServer.ipc_close_session.
    destruct (PTYManager.closeSession _ sessionId) as [pm out].
    exact IH.
Qed.

(** X11.  When the ['close'] listener of a socket has run, the
    connection is gone from the socket table, its client record (if it had
    authenticated) is removed, and the ownership map, the pool and the
    supervisor are as before.  From then on, whatever events follow, and
    as long as no new connection draws the same id, the id has no socket
    and no fan-out, whether of pty data, of a pty exit or of a service
    event, writes a frame to it. *)
Theorem closed_socket_is_forgotten :
  forall (Number : string -> option Q) (st : RemoteServer.State) (conn : string),
    RemoteServer.sockets (fst (RemoteServer.on_close st conn)) !! conn = None
    /\ (is_Some (RemoteServer.sockets st !! conn) ->
        RemoteServer.clients (fst (RemoteServer.on_close st conn)) !! conn = None)
    /\ RemoteServer.sessionOwnership (fst (RemoteServer.on_close st conn))
       = RemoteServer.sessionOwnership st
    /\ RemoteServer.ptyManager (fst (RemoteServer.on_close st conn))
       = RemoteServer.ptyManager st
    /\ RemoteServer.serviceManager (fst (RemoteServer.on_close st conn))
       = RemoteServer.serviceManager st
    /\ (forall st',
           GatewayRuns.later Number conn (fst (RemoteServer.on_close st conn)) st' ->
           RemoteServer.sockets st' !! conn = None
           /\ forall m sessionId data ev exitCode signal,
               (RemoteServer.WsSend conn m
                ∉ RemoteServer.on_pty_data st' sessionId data)
               /\ (RemoteServer.WsSend conn m
                   ∉ snd (RemoteServer.on_pty_exit st' sessionId exitCode signal))
               /\ (RemoteServer.WsSend conn m
                   ∉ RemoteServer.on_service_event st' ev)).
Proof.
  intros Number st conn.
  destruct (on_close_frame st conn) as (Hown & Hpool & _ & Hsvc).
  assert (Hsock : RemoteServer.sockets (fst (RemoteServer.on_close st conn))
                    !! conn = None).
  { unfold RemoteServer.on_close.
    destruct (RemoteServer.sockets st !! conn) eqn:Hs; [|exact Hs]. simpl.
    destruct (RemoteServer.clients st !! conn); simpl; apply lookup_delete_eq. }
  split; [exact Hsock|]. split.
  { intros [sock Hs]. unfold RemoteServer.on_close. rewrite Hs. simpl.
    destruct (RemoteServer.clients st !! conn) eqn:Hc; simpl;
      [apply lookup_delete_eq | exact Hc]. }
  split; [exact Hown|]. split; [exact Hpool|]. split; [exact Hsvc|].
  intros st' Hlater.
  pose proof (later_keeps_closed Number conn _ st' Hlater Hsock) as Hsock'.
  split; [exact Hsock'|].
  assert (Hclosed : forall st'' : RemoteServer.State,
             RemoteServer.sockets st'' = RemoteServer.sockets st' ->
             RemoteServer.is_open st'' conn = false).
  { intros st'' Heq. unfold RemoteServer.is_open. now rewrite Heq, Hsock'. }
  assert (Hno : forall (st'' : RemoteServer.State)
                       (guard : RemoteServer.AuthenticatedClient -> bool)
                       (m m' : RemoteServer.RemoteMessage),
             RemoteServer.sockets st'' = RemoteServer.sockets st' ->
             RemoteServer.WsSend conn m
             ∉ mjoin ((fun c => if guard c
                                then RemoteServer.send st'' (RemoteServer.ws c) m'
                                else [])
                      <$> (map_to_list (RemoteServer.clients st'')).*2)).
  { intros st'' guard m m' Heq Hin.
    apply GatewayFacts.elem_of_guarded_broadcast in Hin
      as (k & c & _ & _ & Hopen & [= Hws _]).
    rewrite <- Hws, (Hclosed st'' Heq) in Hopen. discriminate. }
  intros m sessionId data ev exitCode signal. split; [|split].
  - unfold RemoteServer.on_pty_data, RemoteServer.broadcastToSubscribers.
    now apply (Hno st' (fun c => bool_decide (sessionId ∈ RemoteServer.sessionSubscriptions c))).
  - unfold RemoteServer.on_pty_exit, RemoteServer.broadcastToSubscribers.
    cbn [snd].
    now apply (Hno _ (fun c => bool_decide (sessionId ∈ RemoteServer.sessionSubscriptions c))).
  - destruct ev as [c|s|i stream d|i msg|i code sg]; simpl;
      try apply not_elem_of_nil.
    + unfold RemoteServer.broadcast. now apply (Hno st' (fun _ => true)).
    + unfold RemoteServer.broadcastToServiceSubscribers.
      now apply (Hno st' (fun c => bool_decide (i ∈ RemoteServer.serviceSubscriptions c))).
Qed.

(** X12.  A client that creates a session is made its owner and its
    subscriber at once: in the state that the create frame leaves, the
    ownership map attributes the new id to the client's device, the session
    is in the pool, the pty/created reply written to the client carries it,
    and, the client's socket being open, a chunk of output that the session
    produces in that state is written to the client. *)
Theorem creator_owns_and_receives_output :
  forall (st : RemoteServer.State) (e : PTYManager.Env)
         (client : RemoteServer.AuthenticatedClient)
         (options : PTYManager.CreateOptions) (rid : option string)
         (st1 : RemoteServer.State) (out1 : list RemoteServer.Output),
    RemoteServer.handlePTYMessage st e client (RemoteServer.PtyCreate options) rid
    = (st1, out1, RemoteServer.Done) ->
    RemoteServer.is_open st (RemoteServer.ws client) = true ->
    RemoteServer.sessionOwnership st1 !! PTYManager.uuid e
    = Some (RemoteServer.deviceId client)
    /\ (exists s,
           PTYManager.getSession (RemoteServer.ptyManager st1) (PTYManager.uuid e)
           = Some s
           /\ RemoteServer.WsSend (RemoteServer.ws client)
                (RemoteServer.mkMessage "pty" "created"
                   (RemoteServer.P_session s) rid) ∈ out1)
    /\ (forall data,
           RemoteServer.WsSend (RemoteServer.ws client)
             (RemoteServer.mkMessage "pty" "data"
                (RemoteServer.P_data (PTYManager.uuid e) data) None)
           ∈ RemoteServer.on_pty_data st1 (PTYManager.uuid e) data).
Proof.
  intros st e client options rid st1 out1 Hcreate Hopen.
  apply create_done in Hcreate
    as (s & client' & Hid & Hpool & Hown & Hcl & Hws & Hsub & _ & Hsock & _ & ->).
  assert (Hopen1 : RemoteServer.is_open st1 (RemoteServer.ws client) = true)
    by (unfold RemoteServer.is_open in *; now rewrite Hsock).
  split; [rewrite Hown; apply lookup_insert_eq|]. split.
  - exists s. split.
    + unfold PTYManager.getSession. rewrite Hpool. apply lookup_insert_eq.
    + unfold RemoteServer.send. rewrite Hopen1.
      apply elem_of_app. right. now left.
  - intros data.
    unfold RemoteServer.on_pty_data, RemoteServer.broadcastToSubscribers.
    apply (GatewayFacts.elem_of_guarded_broadcast st1
             (fun c => bool_decide (PTYManager.uuid e
                                    ∈ RemoteServer.sessionSubscriptions c))).
    exists (RemoteServer.id client), client'.
    split; [rewrite Hcl; apply lookup_insert_eq|].
    split; [now apply bool_decide_eq_true|].
    rewrite Hws. split; [exact Hopen1 | reflexivity].
Qed.

(** The phone of the sample server creates "s1": output of "s1" goes to
    its socket "c1". *)
Lemma creator_owns_and_receives_output_witness :
  RemoteServer.WsSend "c1"
    (RemoteServer.mkMessage "pty" "data" (RemoteServer.P_data "s1" "hi") None)
  ∈ RemoteServer.on_pty_data Scenario.server5 "s1" "hi".
Proof.
  refine (proj2 (proj2 (creator_owns_and_receives_output Scenario.server4
                          Scenario.env0 Scenario.phone Scenario.no_options None
                          Scenario.server5
                          (snd (fst (RemoteServer.handlePTYMessage Scenario.server4
                                       Scenario.env0 Scenario.phone
                                       (RemoteServer.PtyCreate Scenario.no_options)
                                       None))) _ _)) "hi").
  - vm_compute. reflexivity.
  - vm_compute. reflexivity.
Defined.

(** X13.  Unsubscribing stops delivery to the client: after a pty
    unsubscribe frame, whatever is written for output of that session is
    written on account of another client record that is subscribed to it.
    The client's ownership, the ownership map and the pool are not
    touched, so the session goes on running. *)
Theorem unsubscribe_stops_delivery :
  forall (st : RemoteServer.State) (e : PTYManager.Env)
         (client : RemoteServer.AuthenticatedClient) (sid : string)
         (rid : option string),
    exists client',
      RemoteServer.handlePTYMessage st e client (RemoteServer.PtyUnsubscribe sid) rid
      = (RemoteServer.update_client st client', [], RemoteServer.Done)
      /\ RemoteServer.ownedSessions client' = RemoteServer.ownedSessions client
      /\ RemoteServer.sessionOwnership (RemoteServer.update_client st client')
         = RemoteServer.sessionOwnership st
      /\ RemoteServer.ptyManager (RemoteServer.update_client st client')
         = RemoteServer.ptyManager st
      /\ forall data o,
          o ∈ RemoteServer.on_pty_data (RemoteServer.update_client st client')
                sid data ->
          exists k c,
            k <> RemoteServer.id client
            /\ RemoteServer.clients st !! k = Some c
            /\ sid ∈ RemoteServer.sessionSubscriptions c
            /\ o = RemoteServer.WsSend (RemoteServer.ws c)
                     (RemoteServer.mkMessage "pty" "data"
                        (RemoteServer.P_data sid data) None).
Proof.
  intros st e client sid rid. eexists. split; [reflexivity|].
  split; [reflexivity|]. split; [reflexivity|]. split; [reflexivity|].
  intros data o Ho.
  unfold RemoteServer.on_pty_data, RemoteServer.broadcastToSubscribers in Ho.
  apply (GatewayFacts.elem_of_guarded_broadcast _
           (fun c => bool_decide (sid ∈ RemoteServer.sessionSubscriptions c)))
    in Ho as (k & c & Hk & Hg & _ & ->).
  apply bool_decide_eq_true in Hg. simpl in Hk.
  destruct (decide (k = RemoteServer.id client)) as [->|Hne].
  - rewrite lookup_insert_eq in Hk. injection Hk as <-. simpl in Hg.
    apply elem_of_difference in Hg as [_ Hg].
    exfalso. apply Hg. now apply elem_of_singleton.
  - rewrite lookup_insert_ne in Hk by congruence. exists k, c. auto.
Qed.

(** X14.  When a PTY exits, its owner entry and its pool entry are
    removed, no other owner or session is touched, the exit frame goes to
    subscribers of the session only, and no client record is changed.  A
    client that still holds the id in its owned set is therefore still let
    through by [canAccessSession], and its write to the dead session is a
    silent no-op. *)
Theorem pty_exit_releases_the_session :
  forall (st : RemoteServer.State) (sid : string) (exitCode : Z)
         (signal : option Z),
    RemoteServer.sessionOwnership
      (fst (RemoteServer.on_pty_exit st sid exitCode signal)) !! sid = None
    /\ PTYManager.getSession
         (RemoteServer.ptyManager
            (fst (RemoteServer.on_pty_exit st sid exitCode signal))) sid = None
    /\ (forall k, k <> sid ->
           RemoteServer.sessionOwnership
             (fst (RemoteServer.on_pty_exit st sid exitCode signal)) !! k
           = RemoteServer.sessionOwnership st !! k
           /\ PTYManager.getSession
                (RemoteServer.ptyManager
                   (fst (RemoteServer.on_pty_exit st sid exitCode signal))) k
              = PTYManager.getSession (RemoteServer.ptyManager st) k)
    /\ RemoteServer.clients (fst (RemoteServer.on_pty_exit st sid exitCode signal))
       = RemoteServer.clients st
    /\ (forall o,
           o ∈ snd (RemoteServer.on_pty_exit st sid exitCode signal) ->
           exists k c,
             RemoteServer.clients st !! k = Some c
             /\ sid ∈ RemoteServer.sessionSubscriptions c
             /\ o = RemoteServer.WsSend (RemoteServer.ws c)
                      (RemoteServer.mkMessage "pty" "exit"
                         (RemoteServer.P_exit sid exitCode signal) None))
    /\ (forall e client data rid,
           sid ∈ RemoteServer.ownedSessions client ->
           RemoteServer.handlePTYMessage
             (fst (RemoteServer.on_pty_exit st sid exitCode signal)) e client
             (RemoteServer.PtyWrite sid data) rid
           = (fst (RemoteServer.on_pty_exit st sid exitCode signal), [],
              RemoteServer.Done)).
Proof.
  intros st sid exitCode signal. unfold PTYManager.getSession. simpl.
  split; [apply lookup_delete_eq|]. split; [apply lookup_delete_eq|].
  split; [intros k Hk; split; now apply lookup_delete_ne|].
  split; [reflexivity|]. split.
  - intros o Ho. unfold RemoteServer.broadcastToSubscribers in Ho.
    apply (GatewayFacts.elem_of_guarded_broadcast _
             (fun c => bool_decide (sid ∈ RemoteServer.sessionSubscriptions c)))
      in Ho as (k & c & Hk & Hg & _ & ->).
    apply bool_decide_eq_true in Hg. exists k, c. auto.
  - intros e client data rid Hown.
    unfold RemoteServer.canAccessSession.
    rewrite (bool_decide_eq_true_2 _ Hown).
    destruct (RemoteServer.isLocal client); simpl;
      unfold PTYManager.write; simpl; now rewrite lookup_delete_eq.
Qed.

(** X15.  Service output is gated by subscription, and subscription by
    registration.  A subscribe frame naming a service that is not
    registered is answered with system/error and changes nothing.  After a
    subscribe frame naming a registered service, every chunk of output of
    that service is written to the client (its socket being open); after an
    unsubscribe frame, whatever is written for such output is written on
    account of another client record. *)
Theorem service_subscription_gates_output :
  forall (st : RemoteServer.State) (now : Z)
         (client : RemoteServer.AuthenticatedClient) (i : string)
         (rid : option string),
    (ServiceManager.services (RemoteServer.serviceManager st) !! i = None ->
     RemoteServer.handleServiceMessage st now client (RemoteServer.SvcSubscribe i) rid
     = (st,
        RemoteServer.sendError st (RemoteServer.ws client)
          ("Service " +:+ i +:+ " not found"),
        RemoteServer.Done))
    /\ (is_Some (ServiceManager.services (RemoteServer.serviceManager st) !! i) ->
        RemoteServer.is_open st (RemoteServer.ws client) = true ->
        forall stream data,
          RemoteServer.WsSend (RemoteServer.ws client)
            (RemoteServer.mkMessage "service" "output"
               (RemoteServer.P_service_output i stream data) None)
          ∈ RemoteServer.on_service_event
              (fst (fst (RemoteServer.handleServiceMessage st now client
                           (RemoteServer.SvcSubscribe i) rid)))
              (ServiceManager.service_output i stream data))
    /\ (forall stream data o,
           o ∈ RemoteServer.on_service_event
                 (fst (fst (RemoteServer.handleServiceMessage st now client
                              (RemoteServer.SvcUnsubscribe i) rid)))
                 (ServiceManager.service_output i stream data) ->
           exists k c,
             k <> RemoteServer.id client
             /\ RemoteServer.clients st !! k = Some c
             /\ i ∈ RemoteServer.serviceSubscriptions c
             /\ o = RemoteServer.WsSend (RemoteServer.ws c)
                      (RemoteServer.mkMessage "service" "output"
                         (RemoteServer.P_service_output i stream data) None)).
Proof.
  intros st now client i rid. split; [|split].
  - intros Hnone. simpl. unfold ServiceManager.getStatus. rewrite Hnone.
    now rewrite set_serviceManager_same.
  - intros [service Hs] Hopen stream data. simpl.
    unfold ServiceManager.getStatus. rewrite Hs. simpl.
    unfold RemoteServer.broadcastToServiceSubscribers.
    match goal with
    | |- _ ∈ mjoin (_ <$> (map_to_list (RemoteServer.clients ?s)).*2) =>
        apply (GatewayFacts.elem_of_guarded_broadcast s
                 (fun c => bool_decide (i ∈ RemoteServer.serviceSubscriptions c)))
    end.
    eexists (RemoteServer.id client), _.
    split; [apply lookup_insert_eq|].
    split; [apply bool_decide_eq_true; simpl;
            apply elem_of_union_l, elem_of_singleton; reflexivity|].
    split; [exact Hopen | reflexivity].
  - intros stream data o Ho. simpl in Ho.
    unfold RemoteServer.broadcastToServiceSubscribers in Ho.
    apply (GatewayFacts.elem_of_guarded_broadcast _
             (fun c => bool_decide (i ∈ RemoteServer.serviceSubscriptions c)))
      in Ho as (k & c & Hk & Hg & _ & ->).
    apply bool_decide_eq_true in Hg. simpl in Hk.
    destruct (decide (k = RemoteServer.id client)) as [->|Hne].
    + rewrite lookup_insert_eq in Hk. injection Hk as <-. simpl in Hg.
      apply elem_of_difference in Hg as [_ Hg].
      exfalso. apply Hg. now apply elem_of_singleton.
    + rewrite lookup_insert_ne in Hk by congruence. exists k, c. auto.
Qed.

(** *** Dimensions of live sessions *)

Lemma createSession_dims (pm : PTYManager.State) (e : PTYManager.Env)
    (options : PTYManager.CreateOptions) :
  PoolInvariants.dims_nonzero pm ->
  PoolInvariants.dims_nonzero (snd (fst (PTYManager.createSession pm e options))).
Proof.
  intros H.
  destruct (PTYManager.createSession pm e options) as [[[s|] pm'] out] eqn:Hc.
  - destruct (PoolFacts.createSession_then_lookup _ _ _ _ _ _ Hc)
      as (_ & _ & _ & _ & _ & Hcols & Hrows & _).
    apply PoolFacts.createSession_some in Hc as (_ & -> & _).
    simpl. apply map_Forall_insert_2; auto.
  - unfold PTYManager.createSession in Hc.
    destruct (PTYManager.spawn_ok e); [discriminate|].
    injection Hc as <- _. exact H.
Qed.

Lemma closeSession_dims (pm : PTYManager.State) (i : string) :
  PoolInvariants.dims_nonzero pm ->
  PoolInvariants.dims_nonzero (fst (PTYManager.closeSession pm i)).
Proof.
  intros H. unfold PTYManager.closeSession.
  destruct (PTYManager.sessions pm !! i); [|exact H].
  simpl. now apply map_Forall_delete.
Qed.

Lemma truthy_num_default (x : option Z) :
  Js.truthy_num x = true -> default 0 x <> 0.
Proof.
  destruct x as [v|]; simpl; [|discriminate].
  destruct (Z.eqb_spec v 0); [discriminate | auto].
Qed.

Lemma handlePTYMessage_dims (st : RemoteServer.State) e client a rid :
  PoolInvariants.dims_nonzero (RemoteServer.ptyManager st) ->
  PoolInvariants.dims_nonzero
    (RemoteServer.ptyManager
       (fst (fst (RemoteServer.handlePTYMessage st e client a rid)))).
Proof.
  intros H.
  destruct a as [options|sid data|sid c r|sid|sid|sid| |other]; simpl;
    try exact H.
  - pose proof (createSession_dims (RemoteServer.ptyManager st) e options H) as Hc.
    destruct (PTYManager.createSession (RemoteServer.ptyManager st) e options)
      as [[[s|] pm] out]; exact Hc.
  - destruct (negb _); exact H.
  - destruct (Js.truthy sid); simpl; [|exact H].
    destruct (Js.truthy_num c) eqn:Hc; simpl; [|exact H].
    destruct (Js.truthy_num r) eqn:Hr; simpl; [|exact H].
    destruct (negb _); [exact H|].
    unfold PTYManager.resize.
    destruct (PTYManager.sessions (RemoteServer.ptyManager st) !! sid);
      simpl; [|exact H].
    apply map_Forall_insert_2; [|exact H]. simpl.
    split; now apply truthy_num_default.
  - destruct (negb _); [exact H|].
    pose proof (closeSession_dims (RemoteServer.ptyManager st) sid H) as Hc.
    destruct (PTYManager.closeSession (RemoteServer.ptyManager st) sid).
    exact Hc.
  - destruct (_ && _); exact H.
Qed.

Lemma step_dims (Number : string -> option Q) (st st' : RemoteServer.State) :
  RemoteServer.step Number st st' ->
  PoolInvariants.dims_nonzero (RemoteServer.ptyManager st) ->
  PoolInvariants.dims_nonzero (RemoteServer.ptyManager st').
Proof.
  intros Hstep H. destruct Hstep.
  - unfold RemoteServer.on_connection.
    destruct (Origin.check_origin _ _ _); exact H.
  - unfold RemoteServer.on_message.
    destruct (RemoteServer.sockets st !! conn) as [sock|]; [|exact H].
    destruct data as [f|]; [|exact H].
    assert (Hh : PoolInvariants.dims_nonzero
                   (RemoteServer.ptyManager
                      (fst (fst (RemoteServer.handleMessage st e conn f
                                   (RemoteServer.sock_isLocal sock)))))).
    { unfold RemoteServer.handleMessage.
      destruct (RemoteServer.body f) as [p|a|a|a|t].
      - destruct (GatewayFacts.handleAuth_frame st (PTYManager.now e) conn p
                    (RemoteServer.frame_requestId f)
                    (RemoteServer.sock_isLocal sock)) as [Hp _].
        destruct (RemoteServer.handleAuth st _ conn p _ _) as [st' out].
        simpl in *. now rewrite Hp.
      - destruct (RemoteServer.clients st !! conn); [|exact H].
        now apply handlePTYMessage_dims.
      - destruct (RemoteServer.clients st !! conn) as [client|]; [|exact H].
        destruct (GatewayFacts.handleServiceMessage_frame st (PTYManager.now e)
                    client a (RemoteServer.frame_requestId f)) as [Hp _].
        now rewrite Hp.
      - destruct (RemoteServer.clients st !! conn) as [client|]; [|exact H].
        now rewrite GatewayFacts.handleSystemMessage_frame.
      - destruct (RemoteServer.clients st !! conn); exact H. }
    destruct (RemoteServer.handleMessage st e conn f _) as [[st' out] [|]];
      exact Hh.
  - unfold RemoteServer.on_peer_closing, RemoteServer.leave_open.
    destruct (RemoteServer.sockets st !! conn); exact H.
  - now rewrite (proj1 (proj2 (on_close_frame st conn))).
  - unfold RemoteServer.on_auth_timeout, RemoteServer.clear_authTimeout,
      RemoteServer.close_ws, RemoteServer.leave_open.
    destruct (RemoteServer.sockets st !! conn) as [s|] eqn:Hs; [|exact H].
    destruct (RemoteServer.authTimeout s); [|exact H].
    destruct (_ <=? _); [|exact H]. simpl.
    destruct (RemoteServer.clients st !! conn); [exact H|]. simpl.
    rewrite lookup_insert_eq. exact H.
  - simpl. now apply map_Forall_delete.
  - exact H.
Qed.

(** X16.  However a session came to be (by a pty/create frame or by the
    desktop window) and whatever resize frames have arrived since, no live
    session has zero columns or zero rows: creation replaces a missing or
    zero dimension by 80 or 24, and a resize frame with a missing or zero
    dimension is ignored. *)
Theorem live_sessions_have_dimensions :
  forall (Number : string -> option Q) (st : RemoteServer.State),
    RemoteServer.reachable_with_desktop Number st ->
    forall s,
      s ∈ PTYManager.getAllSessions (RemoteServer.ptyManager st) ->
      PTYManager.cols s <> 0 /\ PTYManager.rows s <> 0.
Proof.
  intros Number st Hreach.
  assert (H : PoolInvariants.dims_nonzero (RemoteServer.ptyManager st)).
  { induction Hreach as [token restrict shell svc | st st' _ IH Hstep
                        | st e options _ IH | st sid _ IH].
    - apply map_Forall_empty.
    - exact (step_dims Number st st' Hstep IH).
    - unfold RemoteServer.ipc_create_session.
      pose proof (createSession_dims (RemoteServer.ptyManager st) e options IH)
        as Hc.
      destruct (PTYManager.createSession (RemoteServer.ptyManager st) e options)
        as [[r pm] out]. exact Hc.
    - unfold RemoteServer.ipc_close_session.
      pose proof (closeSession_dims (RemoteServer.ptyManager st) sid IH) as Hc.
      destruct (PTYManager.closeSession (RemoteServer.ptyManager st) sid).
      exact Hc. }
  intros s Hs. apply GatewayFacts.elem_of_getAllSessions in Hs as (k & Hk).
  exact (H k s Hk).
Qed.

(** The session that the desktop window created on the fresh server. *)
Lemma live_sessions_have_dimensions_witness :
  PTYManager.cols Scenario2.desktop_session <> 0
  /\ PTYManager.rows Scenario2.desktop_session <> 0.
Proof.
  apply (live_sessions_have_dimensions Origin.Number_decimal Scenario.desktop1).
  - apply RemoteServer.desktop_create, RemoteServer.desktop_initial.
  - apply GatewayFacts.elem_of_getAllSessions. exists "s1".
    vm_compute. reflexivity.
Defined.

End RouterFacts.

(** ** More on the service supervisor *)

Module SupervisorFacts.

(** X17.  The registry of services.  Registering an id twice throws
    "already registered" and changes nothing; a first registration makes
    the service known as stopped, with no pid, uptime or error, and leaves
    every other service alone.  On an id that is not registered,
    [startService] throws "not found", [stopService] returns without doing
    anything and [getStatus] returns nothing, all three leaving the state
    as it is. *)
Theorem registry_of_services :
  forall (st : ServiceManager.State) (c : ServiceManager.ServiceConfig),
    (is_Some (ServiceManager.services st !! ServiceManager.cfg_id c) ->
     ServiceManager.registerService st c
     = (st, [],
        ServiceManager.Threw
          ("Service " +:+ ServiceManager.cfg_id c +:+ " already registered")))
    /\ (ServiceManager.services st !! ServiceManager.cfg_id c = None ->
        snd (ServiceManager.registerService st c) = ServiceManager.Ok
        /\ (forall now,
               fst (ServiceManager.getStatus
                      (fst (fst (ServiceManager.registerService st c))) now
                      (ServiceManager.cfg_id c))
               = Some (ServiceManager.mkStatus (ServiceManager.cfg_id c)
                         (ServiceManager.cfg_name c) ServiceManager.stopped
                         None None None))
        /\ (forall k, k <> ServiceManager.cfg_id c ->
               ServiceManager.services
                 (fst (fst (ServiceManager.registerService st c))) !! k
               = ServiceManager.services st !! k))
    /\ (forall i now sp,
           ServiceManager.services st !! i = None ->
           ServiceManager.startService st now sp i
           = (st, [], ServiceManager.Threw ("Service " +:+ i +:+ " not found"))
           /\ ServiceManager.stopService st now i = (st, [])
           /\ ServiceManager.getStatus st now i = (None, st)).
Proof.
  intros st c. split; [|split].
  - intros [service Hs]. unfold ServiceManager.registerService. now rewrite Hs.
  - intros Hnone. unfold ServiceManager.registerService. rewrite Hnone. simpl.
    split; [reflexivity|]. split.
    + intros now. unfold ServiceManager.getStatus. simpl.
      now rewrite lookup_insert_eq.
    + intros k Hk. now apply lookup_insert_ne.
  - intros i now sp Hnone.
    unfold ServiceManager.startService, ServiceManager.stopService,
      ServiceManager.getStatus.
    now rewrite Hnone.
Qed.

(** X18.  A spawn that throws is recoverable.  When [spawn] throws in
    [startService], the call is rejected with the message of the error, the
    service is left in the error state with that message as [lastError] and
    with the process it had, the events emitted are a starting status and
    an error status, and no child or timer is added.  A later
    [startService] whose spawn succeeds brings the service to running; the
    [lastError] of the failure stays in its status. *)
Theorem spawn_failure_is_recoverable :
  forall (st : ServiceManager.State) (now : Z) (message i : string)
         (service : ServiceManager.ManagedService),
    ServiceManager.services st !! i = Some service ->
    ServiceManager.status (ServiceManager.svc_status service)
    <> ServiceManager.running ->
    exists failed,
      ServiceManager.startService st now (ServiceManager.SpawnThrew message) i
      = (ServiceManager.set_services st
           (<[i := failed]> (ServiceManager.services st)),
         [ServiceManager.Emit
            (ServiceManager.service_status
               (ServiceManager.with_status (ServiceManager.svc_status service)
                  ServiceManager.starting));
          ServiceManager.Emit
            (ServiceManager.service_status (ServiceManager.svc_status failed))],
         ServiceManager.Threw message)
      /\ ServiceManager.status (ServiceManager.svc_status failed)
         = ServiceManager.error
      /\ ServiceManager.lastError (ServiceManager.svc_status failed) = Some message
      /\ ServiceManager.process failed = ServiceManager.process service
      /\ ServiceManager.config failed = ServiceManager.config service
      /\ forall now' p,
          exists started,
            ServiceManager.startService
              (ServiceManager.set_services st
                 (<[i := failed]> (ServiceManager.services st)))
              now' (ServiceManager.Spawned p) i
            = (ServiceManager.mkState
                 (<[i := started]> (ServiceManager.services st))
                 (<[ServiceManager.next_child st
                    := ServiceManager.mkChild i 0 false]>
                    (ServiceManager.children st))
                 (S (ServiceManager.next_child st)) (ServiceManager.timers st),
               [ServiceManager.Emit
                  (ServiceManager.service_status
                     (ServiceManager.with_status
                        (ServiceManager.svc_status failed)
                        ServiceManager.starting));
                ServiceManager.Spawn (ServiceManager.next_child st)
                  (ServiceManager.config service);
                ServiceManager.Emit
                  (ServiceManager.service_status
                     (ServiceManager.svc_status started))],
               ServiceManager.Ok)
            /\ ServiceManager.status (ServiceManager.svc_status started)
               = ServiceManager.running
            /\ ServiceManager.pid (ServiceManager.svc_status started) = p
            /\ ServiceManager.process started
               = Some (ServiceManager.next_child st)
            /\ ServiceManager.startTime started = Some now'
            /\ ServiceManager.lastError (ServiceManager.svc_status started)
               = Some message.
Proof.
  intros st now message i service Hs Hrun.
  unfold ServiceManager.startService at 1. rewrite Hs.
  exists (ServiceManager.mkService (ServiceManager.config service)
            (ServiceManager.process service)
            (ServiceManager.with_lastError
               (ServiceManager.with_status
                  (ServiceManager.with_status (ServiceManager.svc_status service)
                     ServiceManager.starting)
                  ServiceManager.error)
               (Some message))
            (ServiceManager.startTime service)).
  destruct (ServiceManager.status (ServiceManager.svc_status service)) eqn:Hst;
    try contradiction;
    (split; [reflexivity|]; simpl;
     split; [reflexivity|]; split; [reflexivity|]; split; [reflexivity|];
     split; [reflexivity|];
     intros now' p; unfold ServiceManager.startService; simpl;
     rewrite lookup_insert_eq; simpl; rewrite insert_insert_eq;
     exists (ServiceManager.mkService (ServiceManager.config service)
               (Some (ServiceManager.next_child st))
               (ServiceManager.with_pid
                  (ServiceManager.with_status
                     (ServiceManager.with_status
                        (ServiceManager.with_lastError
                           (ServiceManager.with_status
                              (ServiceManager.with_status
                                 (ServiceManager.svc_status service)
                                 ServiceManager.starting)
                              ServiceManager.error)
                           (Some message))
                        ServiceManager.starting)
                     ServiceManager.running) p)
               (Some now'));
     split; [reflexivity|]; simpl; repeat split).
Qed.

(** The worker of the sample supervisor cannot be spawned at first. *)
Lemma spawn_failure_is_recoverable_witness :
  snd (ServiceManager.startService Scenario.sup1 1000
         (ServiceManager.SpawnThrew "spawn EACCES") "worker")
  = ServiceManager.Threw "spawn EACCES"
  /\ (ServiceManager.status ∘ ServiceManager.svc_status
      <$> ServiceManager.services Scenario2.failed !! "worker")
     = Some ServiceManager.error.
Proof.
  destruct (spawn_failure_is_recoverable Scenario.sup1 1000 "spawn EACCES"
              "worker"
              (ServiceManager.mkService Scenario.worker None
                 (ServiceManager.mkStatus "worker" "Worker"
                    ServiceManager.stopped None None None) None))
    as (failed & Heq & _).
  - vm_compute. reflexivity.
  - discriminate.
  - split; [now rewrite Heq | vm_compute; reflexivity].
Defined.

(** X19.  Starting and asking.  In the state that [startService] leaves
    when it has spawned a child for a service that was not running, at a
    time other than the epoch itself, a status query, made at whatever
    time before any other event of the supervisor, reports the service as
    running, with the pid of the child, the id and name it was registered
    with, and an uptime equal to the time of the query minus the time of
    the start. *)
Theorem started_service_reports_uptime :
  forall (st : ServiceManager.State) (now : Z) (p : option Z) (i : string)
         (service : ServiceManager.ManagedService),
    ServiceManager.services st !! i = Some service ->
    ServiceManager.status (ServiceManager.svc_status service)
    <> ServiceManager.running ->
    now <> 0 ->
    snd (ServiceManager.startService st now (ServiceManager.Spawned p) i)
    = ServiceManager.Ok
    /\ forall now',
        exists s,
          fst (ServiceManager.getStatus
                 (fst (fst (ServiceManager.startService st now
                              (ServiceManager.Spawned p) i))) now' i)
          = Some s
          /\ ServiceManager.status s = ServiceManager.running
          /\ ServiceManager.pid s = p
          /\ ServiceManager.uptime s = Some (now' - now)
          /\ ServiceManager.id s
             = ServiceManager.id (ServiceManager.svc_status service)
          /\ ServiceManager.name s
             = ServiceManager.name (ServiceManager.svc_status service).
Proof.
  intros st now p i service Hs Hrun Hnow.
  unfold ServiceManager.startService. rewrite Hs.
  destruct (ServiceManager.status (ServiceManager.svc_status service)) eqn:Hst;
    try contradiction;
    (split; [reflexivity|]; intros now';
     unfold ServiceManager.getStatus, ServiceManager.refresh; simpl;
     rewrite lookup_insert_eq; simpl;
     destruct (Z.eqb_spec now 0); [contradiction|];
     eexists; split; [reflexivity|]; simpl; repeat split).
Qed.

(** The worker, started at 1000 with pid 42 and asked at 4000. *)
Lemma started_service_reports_uptime_witness :
  (ServiceManager.uptime <$> fst (ServiceManager.getStatus Scenario.sup2 4000 "worker"))
  = Some (Some 3000).
Proof.
  destruct (started_service_reports_uptime Scenario.sup1 1000 (Some 42) "worker"
              (ServiceManager.mkService Scenario.worker None
                 (ServiceManager.mkStatus "worker" "Worker"
                    ServiceManager.stopped None None None) None))
    as (_ & H).
  - vm_compute. reflexivity.
  - discriminate.
  - discriminate.
  - destruct (H 4000) as (s & Hs & _ & _ & Hu & _).
    unfold Scenario.sup2. rewrite Hs. simpl. now rewrite Hu.
Defined.

(** X20.  Stopping a service that has a process sends SIGTERM to that
    process, once, and arms one timer, due 10 seconds later, without
    touching the service records.  When that timer fires, SIGKILL is sent
    to the same child if the service has a process at that moment, and
    nothing is sent if it has none. *)
Theorem stop_sends_term_then_kill :
  forall (st : ServiceManager.State) (now : Z) (i : string)
         (service : ServiceManager.ManagedService) (h : nat),
    ServiceManager.services st !! i = Some service ->
    ServiceManager.process service = Some h ->
    snd (ServiceManager.stopService st now i) = [ServiceManager.Kill h "SIGTERM"]
    /\ ServiceManager.timers (fst (ServiceManager.stopService st now i))
       = ServiceManager.timers st ++ [(now + 10000, ServiceManager.KillTimer i h)]
    /\ ServiceManager.services (fst (ServiceManager.stopService st now i))
       = ServiceManager.services st
    /\ (forall st' now' sp service' h',
           ServiceManager.services st' !! i = Some service' ->
           ServiceManager.process service' = Some h' ->
           ServiceManager.run_timer st' now' sp (ServiceManager.KillTimer i h)
           = (st', [ServiceManager.Kill h "SIGKILL"]))
    /\ (forall st' now' sp service',
           ServiceManager.services st' !! i = Some service' ->
           ServiceManager.process service' = None ->
           ServiceManager.run_timer st' now' sp (ServiceManager.KillTimer i h)
           = (st', [])).
Proof.
  intros st now i service h Hs Hp.
  unfold ServiceManager.stopService. rewrite Hs, Hp. simpl.
  split; [reflexivity|]. split; [reflexivity|]. split; [reflexivity|].
  split.
  - intros st' now' sp service' h' Hs' Hp'. now rewrite Hs', Hp'.
  - intros st' now' sp service' Hs' Hp'. now rewrite Hs', Hp'.
Qed.

(** The running worker is stopped at 3000. *)
Lemma stop_sends_term_then_kill_witness :
  snd (ServiceManager.stopService Scenario.sup2 3000 "worker")
  = [ServiceManager.Kill 0 "SIGTERM"]
  /\ ServiceManager.timers Scenario.stopping
     = ServiceManager.timers Scenario.sup2
       ++ [(3000 + 10000, ServiceManager.KillTimer "worker" 0)].
Proof.
  destruct (stop_sends_term_then_kill Scenario.sup2 3000 "worker"
              (ServiceManager.mkService Scenario.worker (Some 0%nat)
                 (ServiceManager.mkStatus "worker" "Worker"
                    ServiceManager.running (Some 42) None None)
                 (Some 1000)) 0%nat) as (H1 & H2 & _).
  - vm_compute. reflexivity.
  - reflexivity.
  - split; [exact H1 | exact H2].
Defined.

Lemma stop_listeners_resolutions (n : nat) (i : string) :
  forall acc : ServiceManager.State * list ServiceManager.Output,
    is_Some (ServiceManager.services (fst acc) !! i) ->
    is_Some (ServiceManager.services
               (fst (Nat.iter n (ServiceManager.stop_listener i) acc)) !! i)
    /\ SupervisorTrace.resolutions i
         (snd (Nat.iter n (ServiceManager.stop_listener i) acc))
       = (SupervisorTrace.resolutions i (snd acc) + n)%nat.
Proof.
  induction n as [|n IH]; intros acc Hacc; simpl.
  - split; [exact Hacc | lia].
  - destruct (IH acc Hacc) as [[service Hs] Hr].
    destruct (Nat.iter n (ServiceManager.stop_listener i) acc) as [st out].
    simpl in *. rewrite Hs. simpl. split.
    + rewrite lookup_insert_eq. eauto.
    + unfold SupervisorTrace.resolutions in *.
      rewrite List.filter_app, List.length_app. simpl.
      rewrite String.eqb_refl. simpl. lia.
Qed.

(** X21.  Every call of [stopService] is answered once.  Each call on a
    service whose process is a known child adds one listener to that
    child; an exit event of the child resolves exactly as many stop
    promises for the service as listeners were added, and these listeners
    are then gone: the child has none left, and a further exit event of
    the same child resolves no stop promise. *)
Theorem stop_resolves_once_per_call :
  forall (st : ServiceManager.State) (now : Z) (h : nat)
         (c : ServiceManager.Child) (service : ServiceManager.ManagedService)
         (code : option Z) (signal : option string),
    ServiceManager.children st !! h = Some c ->
    ServiceManager.services st !! ServiceManager.child_service c = Some service ->
    SupervisorTrace.resolutions (ServiceManager.child_service c)
      (snd (ServiceManager.on_child_exit st now h code signal))
    = ServiceManager.stop_waiters c
    /\ (ServiceManager.process service = Some h ->
        forall now',
          (ServiceManager.stop_waiters
           <$> ServiceManager.children
                 (fst (ServiceManager.stopService st now'
                         (ServiceManager.child_service c))) !! h)
          = Some (S (ServiceManager.stop_waiters c)))
    /\ (ServiceManager.stop_waiters
        <$> ServiceManager.children
              (fst (ServiceManager.on_child_exit st now h code signal)) !! h)
       = Some 0%nat
    /\ (forall now' code' signal',
           SupervisorTrace.resolutions (ServiceManager.child_service c)
             (snd (ServiceManager.on_child_exit
                     (fst (ServiceManager.on_child_exit st now h code signal))
                     now' h code' signal'))
           = 0%nat).
Proof.
  intros st now h c service code signal Hc Hs.
  assert (Hk : forall i k a,
             ServiceManager.children
               (fst (Nat.iter k (ServiceManager.stop_listener i) a))
             = ServiceManager.children (fst a)).
  { intros i. induction k as [|k IHk]; intros a; simpl; [reflexivity|].
    specialize (IHk a).
    destruct (Nat.iter k _ a) as [st' out']. simpl in *.
    rewrite <- IHk.
    destruct (ServiceManager.services st' !! i); reflexivity. }
  assert (Hch : ServiceManager.children
                  (fst (ServiceManager.on_child_exit st now h code signal)) !! h
                = Some (ServiceManager.mkChild (ServiceManager.child_service c)
                          0 true)).
  { unfold ServiceManager.on_child_exit. rewrite Hc. simpl. rewrite Hs.
    rewrite Hk. destruct (_ && _); simpl; apply lookup_insert_eq. }
  split; [|split; [|split]].
  - unfold ServiceManager.on_child_exit. rewrite Hc. simpl. rewrite Hs.
    match goal with
    | |- context [Nat.iter ?n ?f ?acc] =>
        destruct (stop_listeners_resolutions n (ServiceManager.child_service c) acc)
          as [_ Hr]
    end.
    { destruct (_ && _); simpl; rewrite lookup_insert_eq; eauto. }
    rewrite Hr. simpl. reflexivity.
  - intros Hp now'. unfold ServiceManager.stopService. rewrite Hs, Hp. simpl.
    rewrite Hc, lookup_insert_eq. reflexivity.
  - now rewrite Hch.
  - intros now' code' signal'.
    unfold ServiceManager.on_child_exit at 1. rewrite Hch. simpl.
    match goal with
    | |- context [match ?x with Some _ => _ | None => _ end] =>
        destruct x; reflexivity
    end.
Qed.

(** The worker is asked to stop while it runs and then dies of the
    SIGTERM: the one stop promise is resolved. *)
Lemma stop_resolves_once_per_call_witness :
  SupervisorTrace.resolutions "worker"
    (snd (ServiceManager.on_child_exit Scenario.stopping 3100 0 None
            (Some "SIGTERM")))
  = 1%nat.
Proof.
  refine (proj1 (stop_resolves_once_per_call Scenario.stopping 3100 0
                   (ServiceManager.mkChild "worker" 1 false)
                   (ServiceManager.mkService Scenario.worker (Some 0%nat)
                      (ServiceManager.mkStatus "worker" "Worker"
                         ServiceManager.running (Some 42) None None)
                      (Some 1000))
                   None (Some "SIGTERM") _ _)).
  - vm_compute. reflexivity.
  - vm_compute. reflexivity.
Defined.

(** *** What every run of the supervisor keeps *)

Lemma update_keeps_well_formed (st : ServiceManager.State) (i : string)
    (service' : ServiceManager.ManagedService)
    (ch : gmap nat ServiceManager.Child) (nx : nat)
    (tm : list (Z * ServiceManager.Timer)) :
  SupervisorRuns.well_formed st ->
  SupervisorRuns.children_known st ->
  ServiceManager.cfg_id (ServiceManager.config service') = i ->
  ServiceManager.id (ServiceManager.svc_status service') = i ->
  (forall h, ServiceManager.process service' = Some h ->
             exists c, ch !! h = Some c /\ ServiceManager.child_service c = i) ->
  (ServiceManager.status (ServiceManager.svc_status service')
   = ServiceManager.running ->
   is_Some (ServiceManager.process service')
   /\ is_Some (ServiceManager.startTime service')) ->
  (forall h c, ServiceManager.children st !! h = Some c ->
               exists c', ch !! h = Some c'
                          /\ ServiceManager.child_service c'
                             = ServiceManager.child_service c) ->
  (forall h c', ch !! h = Some c' ->
                (h < nx)%nat
                /\ (ServiceManager.child_service c' = i
                    \/ is_Some (ServiceManager.services st
                                  !! ServiceManager.child_service c'))) ->
  SupervisorRuns.well_formed
    (ServiceManager.mkState (<[i := service']> (ServiceManager.services st)) ch nx tm)
  /\ SupervisorRuns.children_known
       (ServiceManager.mkState (<[i := service']> (ServiceManager.services st))
          ch nx tm).
Proof.
  intros Hwf Hck Hcfg Hid Hproc Hrun Hkeep Hknown. split.
  - intros k service Hk. simpl in *.
    destruct (decide (k = i)) as [->|Hne].
    + rewrite lookup_insert_eq in Hk. injection Hk as <-. auto.
    + rewrite lookup_insert_ne in Hk by congruence.
      destruct (Hwf k service Hk) as (H1 & H2 & H3 & H4).
      split; [exact H1|]. split; [exact H2|]. split; [|exact H4].
      intros h Hh. destruct (H3 h Hh) as (c & Hc & Hcs).
      destruct (Hkeep h c Hc) as (c' & Hc' & Hcs').
      exists c'. split; [exact Hc' | congruence].
  - intros h c' Hc'. simpl in *.
    destruct (Hknown h c' Hc') as [Hlt Hsvc]. split; [exact Hlt|].
    destruct (decide (ServiceManager.child_service c' = i)) as [->|Hne].
    + rewrite lookup_insert_eq. eauto.
    + rewrite lookup_insert_ne by congruence.
      destruct Hsvc as [?|?]; [contradiction | assumption].
Qed.

Lemma children_keep_well_formed (st : ServiceManager.State)
    (ch : gmap nat ServiceManager.Child) (nx : nat)
    (tm : list (Z * ServiceManager.Timer)) :
  SupervisorRuns.well_formed st ->
  SupervisorRuns.children_known st ->
  (forall h c, ServiceManager.children st !! h = Some c ->
               exists c', ch !! h = Some c'
                          /\ ServiceManager.child_service c'
                             = ServiceManager.child_service c) ->
  (forall h c', ch !! h = Some c' ->
                (h < nx)%nat
                /\ is_Some (ServiceManager.services st
                              !! ServiceManager.child_service c')) ->
  SupervisorRuns.well_formed
    (ServiceManager.mkState (ServiceManager.services st) ch nx tm)
  /\ SupervisorRuns.children_known
       (ServiceManager.mkState (ServiceManager.services st) ch nx tm).
Proof.
  intros Hwf Hck Hkeep Hknown. split.
  - intros k service Hk. simpl in *.
    destruct (Hwf k service Hk) as (H1 & H2 & H3 & H4).
    split; [exact H1|]. split; [exact H2|]. split; [|exact H4].
    intros h Hh. destruct (H3 h Hh) as (c & Hc & Hcs).
    destruct (Hkeep h c Hc) as (c' & Hc' & Hcs').
    exists c'. split; [exact Hc' | congruence].
  - intros h c' Hc'. simpl in *. exact (Hknown h c' Hc').
Qed.

Lemma same_children_known (st : ServiceManager.State) (i : string) :
  SupervisorRuns.children_known st ->
  forall h c', ServiceManager.children st !! h = Some c' ->
               (h < ServiceManager.next_child st)%nat
               /\ (ServiceManager.child_service c' = i
                   \/ is_Some (ServiceManager.services st
                                 !! ServiceManager.child_service c')).
Proof. intros Hck h c' Hc'. destruct (Hck h c' Hc'). auto. Qed.

Lemma spawned_well_formed (st : ServiceManager.State) (i : string)
    (service : ServiceManager.ManagedService) (s2 : ServiceManager.ServiceStatus)
    (now : Z) :
  SupervisorRuns.well_formed st ->
  SupervisorRuns.children_known st ->
  ServiceManager.services st !! i = Some service ->
  ServiceManager.id s2 = i ->
  SupervisorRuns.well_formed
    (ServiceManager.mkState
       (<[i := ServiceManager.mkService (ServiceManager.config service)
                 (Some (ServiceManager.next_child st)) s2 (Some now)]>
          (ServiceManager.services st))
       (<[ServiceManager.next_child st := ServiceManager.mkChild i 0 false]>
          (ServiceManager.children st))
       (S (ServiceManager.next_child st)) (ServiceManager.timers st))
  /\ SupervisorRuns.children_known
       (ServiceManager.mkState
          (<[i := ServiceManager.mkService (ServiceManager.config service)
                    (Some (ServiceManager.next_child st)) s2 (Some now)]>
             (ServiceManager.services st))
          (<[ServiceManager.next_child st := ServiceManager.mkChild i 0 false]>
             (ServiceManager.children st))
          (S (ServiceManager.next_child st)) (ServiceManager.timers st)).
Proof.
  intros Hwf Hck Hs Hid.
  destruct (Hwf i service Hs) as (Hcfg & _ & _ & _).
  apply update_keeps_well_formed.
  - exact Hwf.
  - exact Hck.
  - exact Hcfg.
  - exact Hid.
  - intros h [= <-]. eexists. split; [apply lookup_insert_eq | reflexivity].
  - intros _. split; eexists; reflexivity.
  - intros h c Hc. exists c. split; [|reflexivity].
    rewrite lookup_insert_ne; [exact Hc|].
    destruct (Hck h c Hc) as [Hlt _]. lia.
  - intros h c' Hc'.
    destruct (decide (h = ServiceManager.next_child st)) as [->|Hne].
    + rewrite lookup_insert_eq in Hc'. injection Hc' as <-. simpl.
      split; [lia | now left].
    + rewrite lookup_insert_ne in Hc' by congruence.
      destruct (Hck h c' Hc') as [Hlt Hsv]. split; [lia | now right].
Qed.

Lemma restatus_well_formed (st : ServiceManager.State) (i : string)
    (service : ServiceManager.ManagedService) (s2 : ServiceManager.ServiceStatus)
    (p : option nat) (t : option Z) :
  SupervisorRuns.well_formed st ->
  SupervisorRuns.children_known st ->
  ServiceManager.services st !! i = Some service ->
  ServiceManager.id s2 = i ->
  (p = None \/ p = ServiceManager.process service) ->
  (ServiceManager.status s2 = ServiceManager.running ->
   ServiceManager.status (ServiceManager.svc_status service)
   = ServiceManager.running
   /\ p = ServiceManager.process service
   /\ t = ServiceManager.startTime service) ->
  SupervisorRuns.well_formed
    (ServiceManager.set_services st
       (<[i := ServiceManager.mkService (ServiceManager.config service) p s2 t]>
          (ServiceManager.services st)))
  /\ SupervisorRuns.children_known
       (ServiceManager.set_services st
          (<[i := ServiceManager.mkService (ServiceManager.config service) p s2 t]>
             (ServiceManager.services st))).
Proof.
  intros Hwf Hck Hs Hid Hp Hrun.
  destruct (Hwf i service Hs) as (Hcfg & _ & Hproc & Hrun0).
  apply update_keeps_well_formed.
  - exact Hwf.
  - exact Hck.
  - exact Hcfg.
  - exact Hid.
  - simpl. intros h Hh. destruct Hp as [->| ->]; [discriminate | auto].
  - simpl. intros Hr. destruct (Hrun Hr) as (Hr0 & -> & ->). auto.
  - intros h c Hc. exists c. auto.
  - now apply same_children_known.
Qed.

Lemma set_timers_well_formed (st : ServiceManager.State)
    (tm : list (Z * ServiceManager.Timer)) :
  SupervisorRuns.well_formed st /\ SupervisorRuns.children_known st ->
  SupervisorRuns.well_formed (ServiceManager.set_timers st tm)
  /\ SupervisorRuns.children_known (ServiceManager.set_timers st tm).
Proof. intros [Hwf Hck]. split; [exact Hwf | exact Hck]. Qed.

Lemma startService_well_formed (st : ServiceManager.State) now sp i :
  SupervisorRuns.well_formed st /\ SupervisorRuns.children_known st ->
  SupervisorRuns.well_formed (fst (fst (ServiceManager.startService st now sp i)))
  /\ SupervisorRuns.children_known
       (fst (fst (ServiceManager.startService st now sp i))).
Proof.
  intros [Hwf Hck]. unfold ServiceManager.startService.
  destruct (ServiceManager.services st !! i) as [service|] eqn:Hs; [|auto].
  destruct (Hwf i service Hs) as (Hcfg & Hid & Hproc & Hrun).
  destruct (ServiceManager.status (ServiceManager.svc_status service)) eqn:Hst;
    try (split; assumption);
    (destruct sp as [p|message]; cbn [fst];
     [ apply spawned_well_formed; auto
     | apply restatus_well_formed; auto; discriminate ]).
Qed.

Lemma stopService_well_formed (st : ServiceManager.State) now i :
  SupervisorRuns.well_formed st /\ SupervisorRuns.children_known st ->
  SupervisorRuns.well_formed (fst (ServiceManager.stopService st now i))
  /\ SupervisorRuns.children_known (fst (ServiceManager.stopService st now i)).
Proof.
  intros [Hwf Hck]. unfold ServiceManager.stopService.
  destruct (ServiceManager.services st !! i) as [service|] eqn:Hs; [|auto].
  destruct (ServiceManager.process service) as [h|]; [|auto].
  cbn [fst]. apply set_timers_well_formed.
  destruct (ServiceManager.children st !! h) as [c|] eqn:Hc.
  - apply children_keep_well_formed; auto.
    + intros h' c0 Hc0. destruct (decide (h' = h)) as [->|Hne].
      * rewrite lookup_insert_eq. eexists. split; [reflexivity|].
        simpl. congruence.
      * rewrite lookup_insert_ne by congruence. eauto.
    + intros h' c' Hc'. destruct (decide (h' = h)) as [->|Hne].
      * rewrite lookup_insert_eq in Hc'. injection Hc' as <-. simpl.
        exact (Hck h c Hc).
      * rewrite lookup_insert_ne in Hc' by congruence. exact (Hck h' c' Hc').
  - split; [exact Hwf | exact Hck].
Qed.

Lemma on_child_error_well_formed (st : ServiceManager.State) h message :
  SupervisorRuns.well_formed st /\ SupervisorRuns.children_known st ->
  SupervisorRuns.well_formed (fst (ServiceManager.on_child_error st h message))
  /\ SupervisorRuns.children_known
       (fst (ServiceManager.on_child_error st h message)).
Proof.
  intros [Hwf Hck]. unfold ServiceManager.on_child_error.
  destruct (ServiceManager.children st !! h) as [c|]; [|auto].
  destruct (ServiceManager.services st !! ServiceManager.child_service c)
    as [service|] eqn:Hs; [|auto].
  destruct (Hwf _ service Hs) as (Hcfg & Hid & Hproc & Hrun).
  cbn [fst]. apply restatus_well_formed; auto. discriminate.
Qed.

Lemma stop_listener_well_formed (i : string)
    (acc : ServiceManager.State * list ServiceManager.Output) :
  SupervisorRuns.well_formed (fst acc)
  /\ SupervisorRuns.children_known (fst acc) ->
  SupervisorRuns.well_formed (fst (ServiceManager.stop_listener i acc))
  /\ SupervisorRuns.children_known (fst (ServiceManager.stop_listener i acc)).
Proof.
  destruct acc as [st out]. intros [Hwf Hck]. simpl in Hwf, Hck.
  unfold ServiceManager.stop_listener.
  destruct (ServiceManager.services st !! i) as [service|] eqn:Hs; [|auto].
  destruct (Hwf _ service Hs) as (Hcfg & Hid & Hproc & Hrun).
  cbn [fst]. apply restatus_well_formed; auto. discriminate.
Qed.

Lemma stop_listeners_well_formed (i : string) (n : nat)
    (acc : ServiceManager.State * list ServiceManager.Output) :
  SupervisorRuns.well_formed (fst acc)
  /\ SupervisorRuns.children_known (fst acc) ->
  SupervisorRuns.well_formed
    (fst (Nat.iter n (ServiceManager.stop_listener i) acc))
  /\ SupervisorRuns.children_known
       (fst (Nat.iter n (ServiceManager.stop_listener i) acc)).
Proof.
  intros H. induction n as [|n IH]; [exact H|].
  simpl. now apply stop_listener_well_formed.
Qed.

Lemma on_child_exit_well_formed (st : ServiceManager.State) now h code signal :
  SupervisorRuns.well_formed st /\ SupervisorRuns.children_known st ->
  SupervisorRuns.well_formed
    (fst (ServiceManager.on_child_exit st now h code signal))
  /\ SupervisorRuns.children_known
       (fst (ServiceManager.on_child_exit st now h code signal)).
Proof.
  intros [Hwf Hck]. unfold ServiceManager.on_child_exit.
  destruct (ServiceManager.children st !! h) as [c|] eqn:Hc; [|auto].
  assert (H0 : SupervisorRuns.well_formed
                 (ServiceManager.set_children st
                    (<[h := ServiceManager.mkChild
                              (ServiceManager.child_service c) 0 true]>
                       (ServiceManager.children st)))
               /\ SupervisorRuns.children_known
                    (ServiceManager.set_children st
                       (<[h := ServiceManager.mkChild
                                 (ServiceManager.child_service c) 0 true]>
                          (ServiceManager.children st)))).
  { apply children_keep_well_formed; auto.
    - intros h' c0 Hc0. destruct (decide (h' = h)) as [->|Hne].
      + rewrite lookup_insert_eq. eexists. split; [reflexivity|].
        simpl. congruence.
      + rewrite lookup_insert_ne by congruence. eauto.
    - intros h' c' Hc'. destruct (decide (h' = h)) as [->|Hne].
      + rewrite lookup_insert_eq in Hc'. injection Hc' as <-. simpl.
        exact (Hck h c Hc).
      + rewrite lookup_insert_ne in Hc' by congruence. exact (Hck h' c' Hc'). }
  set (st0 := ServiceManager.set_children st _) in *.
  destruct (ServiceManager.services st0 !! ServiceManager.child_service c)
    as [service|] eqn:Hs; [|exact H0].
  destruct H0 as [Hwf0 Hck0].
  apply stop_listeners_well_formed. cbn [fst].
  destruct (ServiceManager.restartOnFailure (ServiceManager.config service)
            && ServiceManager.code_not_zero code).
  - apply set_timers_well_formed.
    destruct (Hwf0 _ service Hs) as (Hcfg & Hid & Hproc & Hrun).
    apply restatus_well_formed; auto. discriminate.
  - destruct (Hwf0 _ service Hs) as (Hcfg & Hid & Hproc & Hrun).
    apply restatus_well_formed; auto. discriminate.
Qed.

Lemma fire_timer_well_formed (st : ServiceManager.State) now sp k :
  SupervisorRuns.well_formed st /\ SupervisorRuns.children_known st ->
  SupervisorRuns.well_formed (fst (ServiceManager.fire_timer st now sp k))
  /\ SupervisorRuns.children_known (fst (ServiceManager.fire_timer st now sp k)).
Proof.
  intros H. unfold ServiceManager.fire_timer.
  destruct (ServiceManager.timers st !! k) as [[due t]|]; [|exact H].
  destruct (due <=? now); [|exact H].
  pose proof (set_timers_well_formed st (delete k (ServiceManager.timers st)) H)
    as H1.
  set (st1 := ServiceManager.set_timers st _) in *.
  destruct t as [i|i h]; simpl.
  - pose proof (startService_well_formed st1 now sp i H1) as H2.
    destruct (ServiceManager.startService st1 now sp i) as [[st' out] r].
    exact H2.
  - destruct (ServiceManager.services st !! i) as [service|]; [|exact H1].
    destruct (ServiceManager.process service); exact H1.
Qed.

Lemma refresh_same_but_uptime (now : Z) (service : ServiceManager.ManagedService) :
  SupervisorTrace.same_but_uptime service (ServiceManager.refresh now service).
Proof.
  unfold SupervisorTrace.same_but_uptime, ServiceManager.refresh.
  destruct service as [c p s [t|]]; simpl; [|auto].
  destruct (t =? 0); simpl; auto.
Qed.

Lemma getStatus_well_formed (st : ServiceManager.State) now i :
  SupervisorRuns.well_formed st /\ SupervisorRuns.children_known st ->
  SupervisorRuns.well_formed (snd (ServiceManager.getStatus st now i))
  /\ SupervisorRuns.children_known (snd (ServiceManager.getStatus st now i)).
Proof.
  intros [Hwf Hck]. unfold ServiceManager.getStatus.
  destruct (ServiceManager.services st !! i) as [service|] eqn:Hs; [|auto].
  destruct (Hwf _ service Hs) as (Hcfg & Hid & Hproc & Hrun).
  destruct (refresh_same_but_uptime now service) as (E1 & E2 & E3 & E4).
  cbn [snd]. apply update_keeps_well_formed.
  - exact Hwf.
  - exact Hck.
  - now rewrite E1.
  - apply (f_equal ServiceManager.id) in E4. simpl in E4. congruence.
  - rewrite E2. exact Hproc.
  - rewrite E2, E3. apply (f_equal ServiceManager.status) in E4. simpl in E4.
    rewrite E4. exact Hrun.
  - intros h c Hc. exists c. auto.
  - now apply same_children_known.
Qed.

Lemma getAllStatuses_well_formed (st : ServiceManager.State) now :
  SupervisorRuns.well_formed st /\ SupervisorRuns.children_known st ->
  SupervisorRuns.well_formed (snd (ServiceManager.getAllStatuses st now))
  /\ SupervisorRuns.children_known (snd (ServiceManager.getAllStatuses st now)).
Proof.
  intros [Hwf Hck]. unfold ServiceManager.getAllStatuses. cbn [snd]. split.
  - intros k service' Hk. simpl in Hk |- *.
    rewrite lookup_fmap in Hk.
    destruct (ServiceManager.services st !! k) as [service|] eqn:Hs;
      [|discriminate].
    simpl in Hk. injection Hk as <-.
    destruct (Hwf _ service Hs) as (Hcfg & Hid & Hproc & Hrun).
    destruct (refresh_same_but_uptime now service) as (E1 & E2 & E3 & E4).
    split; [now rewrite E1|].
    split; [apply (f_equal ServiceManager.id) in E4; simpl in E4; congruence|].
    split; [rewrite E2; exact Hproc|].
    rewrite E2, E3. apply (f_equal ServiceManager.status) in E4. simpl in E4.
    rewrite E4. exact Hrun.
  - intros h c Hc. simpl in Hc |- *.
    destruct (Hck h c Hc) as [Hlt [service Hsv]]. split; [exact Hlt|].
    rewrite lookup_fmap, Hsv. simpl. eauto.
Qed.

Lemma registerService_well_formed (st : ServiceManager.State) c :
  SupervisorRuns.well_formed st /\ SupervisorRuns.children_known st ->
  SupervisorRuns.well_formed (fst (fst (ServiceManager.registerService st c)))
  /\ SupervisorRuns.children_known
       (fst (fst (ServiceManager.registerService st c))).
Proof.
  intros [Hwf Hck]. unfold ServiceManager.registerService.
  destruct (ServiceManager.services st !! ServiceManager.cfg_id c); [auto|].
  cbn [fst]. apply update_keeps_well_formed.
  - exact Hwf.
  - exact Hck.
  - reflexivity.
  - reflexivity.
  - discriminate.
  - discriminate.
  - intros h c0 Hc0. exists c0. auto.
  - now apply same_children_known.
Qed.

Lemma step_well_formed (st st' : ServiceManager.State) :
  SupervisorRuns.step st st' ->
  SupervisorRuns.well_formed st /\ SupervisorRuns.children_known st ->
  SupervisorRuns.well_formed st' /\ SupervisorRuns.children_known st'.
Proof.
  intros Hstep H. destruct Hstep.
  - now apply registerService_well_formed.
  - now apply startService_well_formed.
  - now apply stopService_well_formed.
  - now apply on_child_error_well_formed.
  - now apply on_child_exit_well_formed.
  - now apply fire_timer_well_formed.
  - now apply getStatus_well_formed.
  - now apply getAllStatuses_well_formed.
Qed.

Lemma reachable_well_formed (st : ServiceManager.State) :
  SupervisorRuns.reachable st ->
  SupervisorRuns.well_formed st /\ SupervisorRuns.children_known st.
Proof.
  induction 1 as [|st st' _ IH Hstep].
  - split.
    + intros k service Hk. simpl in Hk. now rewrite lookup_empty in Hk.
    + intros h c Hc. simpl in Hc. now rewrite lookup_empty in Hc.
  - exact (step_well_formed st st' Hstep IH).
Qed.

Lemma sup2_reachable : SupervisorRuns.reachable Scenario.sup2.
Proof.
  eapply SupervisorRuns.reachable_step; [|apply SupervisorRuns.step_start].
  eapply SupervisorRuns.reachable_step; [|apply SupervisorRuns.step_register].
  apply SupervisorRuns.reachable_initial.
Qed.

(** X22.  In every state that the supervisor reaches from a fresh one by
    calls of its methods, events of its children and timers, a registered
    service is stored under the id of its configuration and of its status,
    and a service whose status is [running] has a start time and a process
    that is a child spawned for this very service. *)
Theorem running_service_has_its_own_process
    (st : ServiceManager.State) (i : string)
    (service : ServiceManager.ManagedService) :
  SupervisorRuns.reachable st ->
  ServiceManager.services st !! i = Some service ->
  ServiceManager.cfg_id (ServiceManager.config service) = i
  /\ ServiceManager.id (ServiceManager.svc_status service) = i
  /\ (ServiceManager.status (ServiceManager.svc_status service)
      = ServiceManager.running ->
      exists h c t,
        ServiceManager.process service = Some h
        /\ ServiceManager.startTime service = Some t
        /\ ServiceManager.children st !! h = Some c
        /\ ServiceManager.child_service c = i
        /\ (h < ServiceManager.next_child st)%nat).
Proof.
  intros Hreach Hs.
  destruct (reachable_well_formed st Hreach) as [Hwf Hck].
  destruct (Hwf i service Hs) as (Hcfg & Hid & Hproc & Hrun).
  split; [exact Hcfg|]. split; [exact Hid|].
  intros Hr. destruct (Hrun Hr) as [[h Hh] [t Ht]].
  destruct (Hproc h Hh) as (c & Hc & Hcs).
  exists h, c, t. repeat split; try assumption.
  exact (proj1 (Hck h c Hc)).
Qed.

Lemma running_service_has_its_own_process_witness :
  ServiceManager.cfg_id Scenario.worker = "worker"
  /\ exists h c t,
       Some 0%nat = Some h /\ Some 1000 = Some t
       /\ ServiceManager.children Scenario.sup2 !! h = Some c
       /\ ServiceManager.child_service c = "worker"
       /\ (h < ServiceManager.next_child Scenario.sup2)%nat.
Proof.
  destruct (running_service_has_its_own_process Scenario.sup2 "worker"
              (ServiceManager.mkService Scenario.worker (Some 0%nat)
                 (ServiceManager.mkStatus "worker" "Worker"
                    ServiceManager.running (Some 42) None None)
                 (Some 1000))
              sup2_reachable ltac:(vm_compute; reflexivity))
    as (H1 & _ & H3).
  split; [exact H1 | exact (H3 eq_refl)].
Defined.

(** X23.  A status query writes nothing but [uptime]: after [getStatus] or
    [getAllStatuses] the children, the handle counter and the pending timers
    are the same, the same ids are registered, and each service record
    differs from the one before at most in the [uptime] of its status. *)
Theorem status_queries_write_only_uptime
    (st st' : ServiceManager.State) (now : Z) (j i : string) :
  st' = snd (ServiceManager.getStatus st now j)
  \/ st' = snd (ServiceManager.getAllStatuses st now) ->
  ServiceManager.children st' = ServiceManager.children st
  /\ ServiceManager.next_child st' = ServiceManager.next_child st
  /\ ServiceManager.timers st' = ServiceManager.timers st
  /\ match ServiceManager.services st !! i with
     | Some service =>
         exists service',
           ServiceManager.services st' !! i = Some service'
           /\ SupervisorTrace.same_but_uptime service service'
     | None => ServiceManager.services st' !! i = None
     end.
Proof.
  intros [-> | ->].
  - unfold ServiceManager.getStatus.
    destruct (ServiceManager.services st !! j) as [sj|] eqn:Hj; cbn [snd].
    + split; [reflexivity|]. split; [reflexivity|]. split; [reflexivity|].
      simpl. destruct (decide (i = j)) as [->|Hne].
      * rewrite Hj, lookup_insert_eq. eexists. split; [reflexivity|].
        apply refresh_same_but_uptime.
      * rewrite lookup_insert_ne by congruence.
        destruct (ServiceManager.services st !! i) as [service|];
          [|reflexivity].
        exists service. split; [reflexivity|].
        unfold SupervisorTrace.same_but_uptime. auto.
    + split; [reflexivity|]. split; [reflexivity|]. split; [reflexivity|].
      destruct (ServiceManager.services st !! i) as [service|];
        [|reflexivity].
      exists service. split; [reflexivity|].
      unfold SupervisorTrace.same_but_uptime. auto.
  - unfold ServiceManager.getAllStatuses. cbn [snd].
    split; [reflexivity|]. split; [reflexivity|]. split; [reflexivity|].
    simpl. rewrite lookup_fmap.
    destruct (ServiceManager.services st !! i) as [service|]; simpl;
      [|reflexivity].
    eexists. split; [reflexivity|]. apply refresh_same_but_uptime.
Qed.

Lemma status_queries_write_only_uptime_witness :
  ServiceManager.children Scenario.sup3 = ServiceManager.children Scenario.sup2
  /\ ServiceManager.timers Scenario.sup3 = ServiceManager.timers Scenario.sup2.
Proof.
  destruct (status_queries_write_only_uptime Scenario.sup2 Scenario.sup3
              1500 "worker" "worker" (or_introl eq_refl))
    as (H1 & _ & H3 & _).
  split; [exact H1 | exact H3].
Defined.

End SupervisorFacts.

(** ** The request/response pattern of the client SDK *)

Module SdkFacts.

(** The branches of [handleMessage] below the request/response branch
    settle no promise and leave the pending requests and their timers
    alone. *)
Lemma handle_event_frame (st : AgentClient.State) (m : AgentClient.RemoteMessage) :
  AgentClient.pendingRequests (fst (AgentClient.handle_event st m))
  = AgentClient.pendingRequests st
  /\ AgentClient.timers (fst (AgentClient.handle_event st m))
     = AgentClient.timers st
  /\ forall o, o ∈ snd (AgentClient.handle_event st m) ->
               exists e p, o = AgentClient.Emitted e p.
Proof.
  unfold AgentClient.handle_event.
  repeat match goal with
         | |- context [if ?b then _ else _] => destruct b
         end;
    (split; [reflexivity|]; split; [reflexivity|]);
    intros o Ho; simpl in Ho;
    solve [ apply list_elem_of_singleton in Ho; eauto
          | apply elem_of_nil in Ho; contradiction ].
Qed.

Lemma handleMessage_pending (st : AgentClient.State)
    (m : AgentClient.RemoteMessage) (rid : string) :
  AgentClient.requestId m = Some rid ->
  Js.truthy rid = true ->
  rid ∈ AgentClient.pendingRequests st ->
  AgentClient.handleMessage st m
  = (AgentClient.mkState (AgentClient.ws_open st) (AgentClient.connected st)
       (AgentClient.pendingRequests st ∖ {[rid]}) (AgentClient.timers st),
     [AgentClient.Resolved rid (AgentClient.payload m)]).
Proof.
  intros Hm Ht Hp. unfold AgentClient.handleMessage.
  now rewrite Hm, Ht, bool_decide_eq_true_2.
Qed.

Lemma handleMessage_not_pending (st : AgentClient.State)
    (m : AgentClient.RemoteMessage) :
  (forall rid, AgentClient.requestId m = Some rid ->
               rid ∉ AgentClient.pendingRequests st) ->
  AgentClient.handleMessage st m = AgentClient.handle_event st m.
Proof.
  intros H. unfold AgentClient.handleMessage.
  destruct (AgentClient.requestId m) as [rid|]; [|reflexivity].
  rewrite bool_decide_eq_false_2 by now apply H.
  now rewrite andb_false_r.
Qed.

(** X25.  A request that has been answered is not rejected later: the
    reply that carries the id of a pending request resolves it with the
    payload of the reply and removes it, and when the timer of that
    request fires afterwards, at whatever time, nothing is rejected and no
    other pending request is touched. *)
Theorem answered_request_is_not_rejected
    (st : AgentClient.State) (m : AgentClient.RemoteMessage) (rid : string)
    (now due : Z) (k : nat) :
  AgentClient.requestId m = Some rid ->
  Js.truthy rid = true ->
  rid ∈ AgentClient.pendingRequests st ->
  AgentClient.timers st !! k = Some (due, rid) ->
  snd (AgentClient.handleMessage st m)
  = [AgentClient.Resolved rid (AgentClient.payload m)]
  /\ (rid ∉ AgentClient.pendingRequests (fst (AgentClient.handleMessage st m)))
  /\ snd (AgentClient.fire_request_timer
            (fst (AgentClient.handleMessage st m)) now k) = []
  /\ AgentClient.pendingRequests
       (fst (AgentClient.fire_request_timer
               (fst (AgentClient.handleMessage st m)) now k))
     = AgentClient.pendingRequests (fst (AgentClient.handleMessage st m)).
Proof.
  intros Hm Ht Hp Hk. rewrite (handleMessage_pending st m rid Hm Ht Hp).
  cbn [fst snd]. split; [reflexivity|].
  assert (Hgone : rid ∉ AgentClient.pendingRequests st ∖ {[rid]}).
  { intros Hin. apply elem_of_difference in Hin as [_ Hn].
    apply Hn, elem_of_singleton. reflexivity. }
  split; [exact Hgone|].
  unfold AgentClient.fire_request_timer. cbn [AgentClient.timers].
  rewrite Hk. destruct (due <=? now); [|split; reflexivity].
  unfold AgentClient.on_timeout. cbn [AgentClient.pendingRequests].
  rewrite bool_decide_eq_false_2 by exact Hgone. split; reflexivity.
Qed.

Lemma answered_request_is_not_rejected_witness :
  snd (AgentClient.handleMessage Scenario2.waiting_client Scenario2.reply_r1)
  = [AgentClient.Resolved "r1" "[]"]
  /\ snd (AgentClient.fire_request_timer
            (fst (AgentClient.handleMessage Scenario2.waiting_client
                    Scenario2.reply_r1)) 10000 0) = [].
Proof.
  destruct (answered_request_is_not_rejected Scenario2.waiting_client
              Scenario2.reply_r1 "r1" 10000 10000 0 eq_refl eq_refl
              ltac:(vm_compute; reflexivity) eq_refl)
    as (H1 & _ & H3 & _).
  split; [exact H1 | exact H3].
Defined.

(** X26.  A reply that arrives after the timeout is not delivered: once
    the timer of a pending request has fired, the request is rejected with
    "Request timed out", and a later message with that request id resolves
    nothing; it is handled like a message without request id, which can
    only emit events, and the other pending requests stay as they are. *)
Theorem late_reply_is_not_delivered
    (st : AgentClient.State) (m : AgentClient.RemoteMessage) (rid : string)
    (now due : Z) (k : nat) :
  AgentClient.requestId m = Some rid ->
  rid ∈ AgentClient.pendingRequests st ->
  AgentClient.timers st !! k = Some (due, rid) ->
  due <= now ->
  snd (AgentClient.fire_request_timer st now k)
  = [AgentClient.Rejected rid "Request timed out"]
  /\ (forall o,
         o ∈ snd (AgentClient.handleMessage
                    (fst (AgentClient.fire_request_timer st now k)) m) ->
         exists e p, o = AgentClient.Emitted e p)
  /\ AgentClient.pendingRequests
       (fst (AgentClient.handleMessage
               (fst (AgentClient.fire_request_timer st now k)) m))
     = AgentClient.pendingRequests st ∖ {[rid]}.
Proof.
  intros Hm Hp Hk Hdue. unfold AgentClient.fire_request_timer.
  rewrite Hk, (proj2 (Z.leb_le _ _) Hdue).
  unfold AgentClient.on_timeout. cbn [AgentClient.pendingRequests].
  rewrite bool_decide_eq_true_2 by exact Hp. cbn [fst snd].
  split; [reflexivity|].
  rewrite handleMessage_not_pending.
  - match goal with
    | |- context [AgentClient.handle_event ?s m] =>
        destruct (handle_event_frame s m) as (H1 & _ & H3)
    end.
    split; [exact H3 | exact H1].
  - intros r Hr. rewrite Hm in Hr. injection Hr as <-.
    cbn [AgentClient.pendingRequests]. intros Hin.
    apply elem_of_difference in Hin as [_ Hn].
    apply Hn, elem_of_singleton. reflexivity.
Qed.

Lemma late_reply_is_not_delivered_witness :
  snd (AgentClient.fire_request_timer Scenario2.waiting_client 10000 0)
  = [AgentClient.Rejected "r1" "Request timed out"]
  /\ AgentClient.pendingRequests
       (fst (AgentClient.handleMessage
               (fst (AgentClient.fire_request_timer Scenario2.waiting_client
                       10000 0)) Scenario2.reply_r1))
     = AgentClient.pendingRequests Scenario2.waiting_client ∖ {["r1"]}.
Proof.
  destruct (late_reply_is_not_delivered Scenario2.waiting_client
              Scenario2.reply_r1 "r1" 10000 10000 0 eq_refl
              ltac:(vm_compute; reflexivity) eq_refl ltac:(lia))
    as (H1 & _ & H3).
  split; [exact H1 | exact H3].
Defined.

(** X27.  A request made while the socket is not open is never sent, yet
    it is recorded as pending; no message other than a reply with its own
    id takes it out of the pending requests, and its own timer, 10 seconds
    after the call, rejects it. *)
Theorem request_while_disconnected_times_out
    (st : AgentClient.State) (now : Z) (rid : string)
    (m : AgentClient.RemoteMessage) :
  AgentClient.ws_open st = false ->
  snd (AgentClient.request st now rid m) = []
  /\ (forall m',
         AgentClient.requestId m' <> Some rid ->
         rid ∈ AgentClient.pendingRequests
                 (fst (AgentClient.handleMessage
                         (fst (AgentClient.request st now rid m)) m')))
  /\ snd (AgentClient.fire_request_timer
            (fst (AgentClient.request st now rid m)) (now + 10000)
            (List.length (AgentClient.timers st)))
     = [AgentClient.Rejected rid "Request timed out"].
Proof.
  intros Hclosed. unfold AgentClient.request, AgentClient.send.
  rewrite Hclosed. cbn [fst snd]. split; [reflexivity|]. split.
  - intros m' Hm'. unfold AgentClient.handleMessage.
    assert (Hin : rid ∈ ({[rid]} ∪ AgentClient.pendingRequests st : gset string)).
    { apply elem_of_union_l, elem_of_singleton. reflexivity. }
    assert (Hev : rid ∈ AgentClient.pendingRequests
                          (fst (AgentClient.handle_event
                                  (AgentClient.mkState false
                                     (AgentClient.connected st)
                                     ({[rid]} ∪ AgentClient.pendingRequests st)
                                     (AgentClient.timers st
                                      ++ [(now + 10000, rid)])) m'))).
    { rewrite (proj1 (handle_event_frame _ m')). exact Hin. }
    destruct (AgentClient.requestId m') as [r|]; [|exact Hev].
    destruct (Js.truthy r && bool_decide (r ∈ _)); [|exact Hev].
    cbn [fst AgentClient.pendingRequests].
    apply elem_of_difference. split; [exact Hin|].
    intros Hr. apply elem_of_singleton in Hr. congruence.
  - unfold AgentClient.fire_request_timer. cbn [AgentClient.timers].
    rewrite list_lookup_middle by reflexivity.
    rewrite Z.leb_refl. unfold AgentClient.on_timeout.
    cbn [AgentClient.pendingRequests].
    rewrite bool_decide_eq_true_2; [reflexivity|].
    apply elem_of_union_l, elem_of_singleton. reflexivity.
Qed.

Lemma request_while_disconnected_times_out_witness :
  snd (AgentClient.request (AgentClient.mkState false false ∅ []) 0 "r1"
         Scenario.list_request) = []
  /\ snd (AgentClient.fire_request_timer
            (fst (AgentClient.request (AgentClient.mkState false false ∅ []) 0
                    "r1" Scenario.list_request)) (0 + 10000) 0)
     = [AgentClient.Rejected "r1" "Request timed out"].
Proof.
  destruct (request_while_disconnected_times_out
              (AgentClient.mkState false false ∅ []) 0 "r1"
              Scenario.list_request eq_refl)
    as (H1 & _ & H3).
  split; [exact H1 | exact H3].
Defined.

End SdkFacts.

(** ** The Tailscale collaborator *)

Module TailscaleFacts.

Lemma or_null_nonempty (x : option string) :
  TailscaleService.or_null x <> Some "".
Proof.
  destruct x as [v|]; simpl; [|discriminate].
  destruct v; simpl; discriminate.
Qed.

Lemma findCli_some (available : string -> bool) :
  is_Some (TailscaleService.findCli available)
  <-> exists p, p ∈ TailscaleService.CLI_PATHS /\ available p = true.
Proof.
  unfold TailscaleService.findCli. split.
  - intros [p Hp]. apply List.find_some in Hp as [Hin Hav].
    exists p. split; [now apply list_elem_of_In | exact Hav].
  - intros (p & Hin & Hav).
    destruct (List.find available TailscaleService.CLI_PATHS) as [q|] eqn:Hf;
      [eauto|].
    apply list_elem_of_In in Hin.
    pose proof (List.find_none _ _ Hf p Hin) as Hn. congruence.
Qed.

(** X28.  The status that [getStatus] reports is consistent, whatever the
    command line tool does: Tailscale is reported installed exactly when
    one of the four known paths is available; running implies installed
    and logged in implies running; an error text is present exactly when
    the node is not logged in; an address is only reported for a node that
    is logged in; and neither the address nor the host name is ever the
    empty string. *)
Theorem reported_status_is_consistent
    (available : string -> bool) (call : TailscaleService.StatusCall)
    (ipCall : TailscaleService.IpCall) :
  (TailscaleService.installed
     (TailscaleService.getStatus (TailscaleService.findCli available) call ipCall)
   = true
   <-> exists p, p ∈ TailscaleService.CLI_PATHS /\ available p = true)
  /\ (TailscaleService.running
        (TailscaleService.getStatus (TailscaleService.findCli available) call ipCall)
      = true ->
      TailscaleService.installed
        (TailscaleService.getStatus (TailscaleService.findCli available) call ipCall)
      = true)
  /\ (TailscaleService.loggedIn
        (TailscaleService.getStatus (TailscaleService.findCli available) call ipCall)
      = true ->
      TailscaleService.running
        (TailscaleService.getStatus (TailscaleService.findCli available) call ipCall)
      = true)
  /\ (TailscaleService.error
        (TailscaleService.getStatus (TailscaleService.findCli available) call ipCall)
      = None
      <-> TailscaleService.loggedIn
            (TailscaleService.getStatus (TailscaleService.findCli available)
               call ipCall)
          = true)
  /\ (is_Some
        (TailscaleService.ip
           (TailscaleService.getStatus (TailscaleService.findCli available)
              call ipCall)) ->
      TailscaleService.loggedIn
        (TailscaleService.getStatus (TailscaleService.findCli available) call ipCall)
      = true)
  /\ TailscaleService.ip
       (TailscaleService.getStatus (TailscaleService.findCli available) call ipCall)
     <> Some ""
  /\ TailscaleService.hostname
       (TailscaleService.getStatus (TailscaleService.findCli available) call ipCall)
     <> Some "".
Proof.
  pose proof (findCli_some available) as Hcli.
  destruct (TailscaleService.findCli available) as [cli|].
  - assert (Hex : exists p, p ∈ TailscaleService.CLI_PATHS /\ available p = true)
      by (apply Hcli; eauto).
    unfold TailscaleService.getStatus.
    destruct call as [message stderr | backendState hostName].
    + destruct (TailscaleService.mentions_not_running message
                || TailscaleService.mentions_not_running stderr); simpl;
        repeat split; try discriminate; try tauto;
        intros H; destruct H; discriminate.
    + destruct (bool_decide (backendState = Some "NeedsLogin")
                || bool_decide (backendState = Some "NoState"));
        [|destruct (negb (bool_decide (backendState = Some "Running")))];
        simpl; repeat split; try discriminate; try tauto;
        try apply or_null_nonempty;
        try (intros H; destruct H; discriminate).
      destruct ipCall as [|text]; simpl; [discriminate|].
      apply (or_null_nonempty (Some text)).
  - simpl. repeat split; try discriminate; try tauto.
    + intros Hex. apply Hcli in Hex. destruct Hex; discriminate.
    + intros H; destruct H; discriminate.
Qed.

End TailscaleFacts.
